(** * basalt-vscode: the item editor's asset resolution and preview pipeline

    A shallow embedding of the TypeScript sources of the item editor
    (host side: [src/item-editor.ts], [src/shared/proto.ts],
    [src/shared/item.ts]; rendering side: [item-editor/util/hash.ts],
    [util/preview.ts], [util/mcbitmapfont.ts], [util/tooltip.ts],
    [app/App.tsx]) together with the properties stated about them.

    Conventions.
    - A JavaScript string is a [string]; where the code works on UTF-16
      code units ([charCodeAt], [length] of a glyph row) a string is the
      list of its code units.
    - A JavaScript object used as a dictionary is a [gmap]; an object
      whose enumeration order is observed ([Object.values]) is the list
      of its own properties in enumeration order.
    - A file of the disk whose text is a JSON document is given by the
      document, so that [JSON.parse] of what [JSON.stringify] wrote is
      the value written.
    - Library functions the sources call ([path.join], the MD5 digest,
      the SNBT parser, text measurement) are fields of the classes
      [Node], [NBT] and [Pixi]. *)

From Stdlib Require Import ZArith List Ascii String Lia Bool.
From stdpp Require Import base gmap strings list fin_maps.
From Equations Require Import Equations.

Set Warnings "-register-all".
Local Open Scope string_scope.
Local Open Scope Z_scope.
Local Open Scope list_scope.

(** ** JavaScript values *)

Module JS.

(** [s.indexOf(pat)]: the position of the first occurrence, [-1] when
    there is none. *)
Definition indexOf (pat s : string) : Z :=
  match String.index 0 pat s with
  | Some n => Z.of_nat n
  | None => -1
  end.

Fixpoint drop_chars (n : nat) (s : string) : string :=
  match n, s with
  | O, _ => s
  | S n', String _ rest => drop_chars n' rest
  | S _, EmptyString => EmptyString
  end.

(** [s.substring(start)]: a negative start counts as [0], a start past
    the end yields the empty string. *)
Definition substring_from (start : Z) (s : string) : string :=
  drop_chars (Z.to_nat start) s.

(** [s.replaceAll(c, "")] for a one-character pattern. *)
Fixpoint remove_char (c : ascii) (s : string) : string :=
  match s with
  | EmptyString => EmptyString
  | String d rest =>
      if Ascii.eqb c d then remove_char c rest else String d (remove_char c rest)
  end.

(** JSON data. In an object the members are kept as a list: as written
    in a JSON text (declaration order, repetitions possible) or as the
    own properties of a JavaScript object in enumeration order. Numbers
    are the integral ones. *)
Inductive json : Type :=
| JNull
| JBool (b : bool)
| JNum (n : Z)
| JStr (s : string)
| JArr (elems : list json)
| JObj (members : list (string * json)).

(** *** Own-property order of ordinary objects

    Array-index keys (canonical decimal numerals below [2^32 - 1]) come
    first in ascending numeric order, the other string keys follow in
    order of creation. *)

Definition is_digit (c : ascii) : bool :=
  let n := N_of_ascii c in ((48 <=? n) && (n <=? 57))%N.

Fixpoint digits_value (acc : N) (s : string) : option N :=
  match s with
  | EmptyString => Some acc
  | String c rest =>
      if is_digit c
      then digits_value (acc * 10 + (N_of_ascii c - 48))%N rest
      else None
  end.

Definition array_index (k : string) : option N :=
  match k with
  | EmptyString => None
  | String c rest =>
      if Ascii.eqb c "0" && negb (String.eqb rest EmptyString) then None
      else if (10 <? String.length k)%nat then None
      else match digits_value 0 k with
           | Some v => if (v <? 4294967295)%N then Some v else None
           | None => None
           end
  end.

Section Objects.
Context {V : Type}.

Fixpoint get_property (k : string) (o : list (string * V)) : option V :=
  match o with
  | [] => None
  | (k', v) :: rest => if String.eqb k k' then Some v else get_property k rest
  end.

(** The [in] operator on an object without inherited properties of
    that name. *)
Definition has_property (k : string) (o : list (string * V)) : bool :=
  match get_property k o with Some _ => true | None => false end.

Fixpoint replace_value (k : string) (v : V) (o : list (string * V)) :=
  match o with
  | [] => []
  | (k', v') :: rest =>
      if String.eqb k k' then (k', v) :: rest
      else (k', v') :: replace_value k v rest
  end.

Fixpoint insert_index (i : N) (k : string) (v : V) (o : list (string * V)) :=
  match o with
  | [] => [(k, v)]
  | (k', v') :: rest =>
      match array_index k' with
      | Some j =>
          if (j <? i)%N then (k', v') :: insert_index i k v rest
          else (k, v) :: o
      | None => (k, v) :: o
      end
  end.

(** Creating or overwriting a data property: an existing key keeps its
    place and takes the new value. *)
Definition define_property (o : list (string * V)) (kv : string * V) :=
  let '(k, v) := kv in
  if has_property k o then replace_value k v o
  else match array_index k with
       | Some i => insert_index i k v o
       | None => (o ++ [(k, v)])%list
       end.

(** The object [JSON.parse] builds from the members of an object
    literal, taken left to right. *)
Definition object_of_members (ms : list (string * V)) : list (string * V) :=
  fold_left define_property ms [].

(** [Object.values]. *)
Definition Object_values (o : list (string * V)) : list V := map snd o.
End Objects.

(** The names of the members a plain object inherits from
    [Object.prototype]: [o[name]] is truthy for each of them on an
    object that has no property of its own under the name. *)
Definition Object_prototype_members : list string :=
  [ "constructor"; "hasOwnProperty"; "isPrototypeOf"; "propertyIsEnumerable";
    "toLocaleString"; "toString"; "valueOf"; "__proto__"; "__defineGetter__";
    "__defineSetter__"; "__lookupGetter__"; "__lookupSetter__" ].

Definition inherits (name : string) : bool :=
  bool_decide (name ∈ Object_prototype_members).

End JS.

(** ** Resource keys ([item-editor/util/hash.ts]) *)

Record Item := {
  minecraftVersion : string;
  id : string;
  count : Z;
  components : gmap string string;
}.

Definition hashItemTexture (item : Item) : string :=
  minecraftVersion item +:+ "##" +:+ id item.

Definition hashResource (version resource : string) : string :=
  version +:+ "##" +:+ resource.

(** ** The item as the panel holds it ([mc.IItem]) *)

Module mc.

(** A count as the panel can hold it: a number a schema accepted or a
    handler wrote, or [NaN], which [parseInt] returns for a text that
    starts with no digit, such as that of an emptied field. *)
Inductive number :=
| Num (z : Z)
| NaN.

(** The type of [editedItem]. Its values are not validated: a handler
    of the panel builds them with an object literal. *)
Record IItem := {
  minecraftVersion : string;
  id : string;
  count : number;
  components : gmap string string;
}.

End mc.

(** An item a schema accepted, as a value of [mc.IItem]; and the item
    a value of [mc.IItem] is when its count is a number. *)
Definition IItem_of_Item (item : Item) : mc.IItem :=
  {| mc.minecraftVersion := minecraftVersion item; mc.id := id item;
     mc.count := mc.Num (count item); mc.components := components item |}.

Definition Item_of_IItem (item : mc.IItem) : option Item :=
  match mc.count item with
  | mc.Num z => Some {| minecraftVersion := mc.minecraftVersion item; id := mc.id item;
                        count := z; components := mc.components item |}
  | mc.NaN => None
  end.

(** ** The transport protocol ([src/shared/item.ts], [src/shared/proto.ts]) *)

Module Proto.
Import JS.

(** Schema combinators. The input of a schema is a JavaScript value or
    [undefined] (for a property that is not there); the result is the
    parsed data, [None] when validation fails. *)

Definition z_string (x : option json) : option string :=
  match x with Some (JStr s) => Some s | _ => None end.

Definition z_number (x : option json) : option Z :=
  match x with Some (JNum n) => Some n | _ => None end.

Definition z_literal (lit : string) (x : option json) : option unit :=
  match x with
  | Some (JStr s) => if String.eqb s lit then Some tt else None
  | _ => None
  end.

Fixpoint z_array_string (l : list json) : option (list string) :=
  match l with
  | [] => Some []
  | x :: rest =>
      s ← z_string (Some x); ss ← z_array_string rest; Some (s :: ss)
  end.

Definition z_array (x : option json) : option (list string) :=
  match x with Some (JArr l) => z_array_string l | _ => None end.

(** [z.record(z.string(), z.string())]: every own property of the input
    object must hold a string; the result maps each key to its value. *)
Fixpoint record_entries (o : list (string * json)) (acc : gmap string string)
  : option (gmap string string) :=
  match o with
  | [] => Some acc
  | (k, v) :: rest => s ← z_string (Some v); record_entries rest (<[k:=s]> acc)
  end.

Definition z_record (x : option json) : option (gmap string string) :=
  match x with
  | Some (JObj ms) => record_entries (object_of_members ms) ∅
  | _ => None
  end.

(** [z.object({...})]: the input must be an object; each declared key is
    validated by its schema and undeclared keys are left out. *)
Definition z_object {A} (x : option json)
    (shape : list (string * json) -> option A) : option A :=
  match x with
  | Some (JObj ms) => shape (object_of_members ms)
  | _ => None
  end.

(** [schema.nullable()]. *)
Definition z_nullable {A} (schema : option json -> option A) (x : option json)
  : option (option A) :=
  match x with
  | Some JNull => Some None
  | _ => a ← schema x; Some (Some a)
  end.

(** [a.or(b)]: the first schema that accepts decides. *)
Definition z_or {A} (a b : option A) : option A :=
  match a with Some r => Some r | None => b end.

(** [Item] of [shared/item.ts]. *)
Definition Item_schema (x : option json) : option Item :=
  z_object x (fun o =>
    v ← z_string (get_property "minecraftVersion" o);
    i ← z_string (get_property "id" o);
    c ← z_number (get_property "count" o);
    cs ← z_record (get_property "components" o);
    Some {| minecraftVersion := v; id := i; count := c; components := cs |}).

(** [Item.parse(value)]: [None] stands for the thrown validation
    error. *)
Definition Item_parse (j : json) : option Item := Item_schema (Some j).

Inductive ClientMessage :=
| GetItemTexture (item : Item)
| ClientUpdateItem (item : option Item)
| Ready
| GetAnyResource (version resource : string).

Inductive ServerMessage :=
| ItemTextureResponse (item : Item) (texture : string)
| ServerUpdateItem (item : option Item)
| UpdateMinecraftVersions (versions : list string)
| AnyResourceResponse (version resource texture : string)
| UpdateItemComponents (components : list string).

Definition GetItemTextureMessage (x : option json) : option Item :=
  z_object x (fun o =>
    _ ← z_literal "get-item-texture" (get_property "type" o);
    Item_schema (get_property "item" o)).

Definition UpdateItemMessage (x : option json) : option (option Item) :=
  z_object x (fun o =>
    _ ← z_literal "update-item" (get_property "type" o);
    z_nullable Item_schema (get_property "item" o)).

Definition UpdateMinecraftVersionsMessage (x : option json) : option (list string) :=
  z_object x (fun o =>
    _ ← z_literal "update-versions" (get_property "type" o);
    z_array (get_property "versions" o)).

Definition ReadyMessage (x : option json) : option unit :=
  z_object x (fun o => z_literal "ready" (get_property "type" o)).

Definition ItemTextureResponseMessage (x : option json) : option (Item * string) :=
  z_object x (fun o =>
    _ ← z_literal "item-texture" (get_property "type" o);
    i ← Item_schema (get_property "item" o);
    t ← z_string (get_property "texture" o);
    Some (i, t)).

Definition GetAnyResourceMessage (x : option json) : option (string * string) :=
  z_object x (fun o =>
    _ ← z_literal "get-resource" (get_property "type" o);
    v ← z_string (get_property "version" o);
    r ← z_string (get_property "resource" o);
    Some (v, r)).

Definition AnyResourceResponseMessage (x : option json)
  : option (string * string * string) :=
  z_object x (fun o =>
    _ ← z_literal "resource" (get_property "type" o);
    v ← z_string (get_property "version" o);
    r ← z_string (get_property "resource" o);
    t ← z_string (get_property "texture" o);
    Some (v, r, t)).

Definition UpdateItemComponentsMessage (x : option json) : option (list string) :=
  z_object x (fun o =>
    _ ← z_literal "update-item-components" (get_property "type" o);
    z_array (get_property "components" o)).

(** [ServerMessages.safeParse(data)] and [ClientMessages.safeParse(data)];
    [None] is the result with [success: false]. *)
Definition ServerMessages_safeParse (data : json) : option ServerMessage :=
  let x := Some data in
  z_or (z_or (z_or (z_or
    ((fun '(i, t) => ItemTextureResponse i t) <$> ItemTextureResponseMessage x)
    (ServerUpdateItem <$> UpdateItemMessage x))
    (UpdateMinecraftVersions <$> UpdateMinecraftVersionsMessage x))
    ((fun '(v, r, t) => AnyResourceResponse v r t) <$> AnyResourceResponseMessage x))
    (UpdateItemComponents <$> UpdateItemComponentsMessage x).

Definition ClientMessages_safeParse (data : json) : option ClientMessage :=
  let x := Some data in
  z_or (z_or (z_or
    (GetItemTexture <$> GetItemTextureMessage x)
    (ClientUpdateItem <$> UpdateItemMessage x))
    ((fun _ => Ready) <$> ReadyMessage x))
    ((fun '(v, r) => GetAnyResource v r) <$> GetAnyResourceMessage x).

(** The value [JSON.stringify] writes for an item, as a JSON tree. *)
Definition components_to_json (cs : gmap string string) : json :=
  JObj (map (fun kv => (kv.1, JStr kv.2)) (map_to_list cs)).

Definition Item_to_json (item : Item) : json :=
  JObj [ ("minecraftVersion", JStr (minecraftVersion item));
         ("id", JStr (id item));
         ("count", JNum (count item));
         ("components", components_to_json (components item)) ].

Definition document_to_json (item : option Item) : json :=
  match item with Some i => Item_to_json i | None => JNull end.

(** The object literals the host hands to [webview.postMessage]. *)
Definition ServerMessage_to_json (m : ServerMessage) : json :=
  match m with
  | ItemTextureResponse item texture =>
      JObj [("type", JStr "item-texture"); ("item", Item_to_json item);
            ("texture", JStr texture)]
  | AnyResourceResponse version resource texture =>
      JObj [("type", JStr "resource"); ("version", JStr version);
            ("resource", JStr resource); ("texture", JStr texture)]
  | UpdateItemComponents components =>
      JObj [("type", JStr "update-item-components");
            ("components", JArr (map JStr components))]
  | ServerUpdateItem item =>
      JObj [("type", JStr "update-item"); ("item", document_to_json item)]
  | UpdateMinecraftVersions versions =>
      JObj [("type", JStr "update-versions"); ("versions", JArr (map JStr versions))]
  end.

End Proto.

(** ** The host's environment *)

(** [node:path], the location of the game directory
    ([getDotMinecraft()]) and the MD5 digest, in hexadecimal, of the
    text [JSON.stringify] writes for a value. *)
Class Node := {
  path_join : list string -> string;
  dotMinecraft : string;
  md5_hex : JS.json -> string;
}.

(** What a path of the disk holds: a directory, a file whose text is
    the JSON document [doc], or a file with other content. *)
Inductive file :=
| Directory
| JsonText (doc : JS.json)
| OtherContent.

(** An entry of the disk, with what the process may do with it. *)
Record entry := {
  content : file;
  readable : bool;
  writable : bool;
}.

(** An entry the process made itself. *)
Definition own (f : file) : entry :=
  {| content := f; readable := true; writable := true |}.

(** [exists(path)]: whether [fs.access(path, R_OK | W_OK)] succeeds. *)
Definition exists_ (fs : gmap string entry) (path : string) : bool :=
  match fs !! path with
  | Some e => readable e && writable e
  | None => false
  end.

(** [fs.mkdir(path, { recursive: true })] that succeeded. *)
Definition mkdir (path : string) (fs : gmap string entry) : gmap string entry :=
  match fs !! path with
  | Some _ => fs
  | None => <[path := own Directory]> fs
  end.

Section Paths.
Context `{Node}.

Definition getUnpackedVersionDirectory (version : string) : string :=
  path_join [dotMinecraft; ".basalt"; "unpacked"; version].
End Paths.

(** ** Resource resolution ([getUnpackedItemResource]) *)

Module Resolver.
Import JS.

Inductive error :=
| ENOENT      (** [fs.readFile]: no such file *)
| EACCES      (** [fs.readFile]: the file may not be read *)
| EISDIR      (** [fs.readFile] on a directory *)
| SyntaxError (** [JSON.parse] *)
| TypeError.  (** a property read or a call on a value that has none *)

Definition readFile (fs : gmap string entry) (path : string) : error + file :=
  match fs !! path with
  | None => inl ENOENT
  | Some e =>
      if negb (readable e) then inl EACCES
      else match content e with
           | Directory => inl EISDIR
           | f => inr f
           end
  end.

Definition JSON_parse (f : file) : error + json :=
  match f with
  | JsonText doc => inr doc
  | _ => inl SyntaxError
  end.

Definition stripMinecraftNamespace (resource : string) : string :=
  substring_from (indexOf "/" resource + 1) resource.

(** The texture reference chosen from [blockData.textures]:
    [textures.side] when ["side" in textures], the first of
    [Object.values(textures)] otherwise. A value that is not a string
    makes [stripMinecraftNamespace] throw. *)
Definition select_texture (blockData : json) : error + string :=
  match blockData with
  | JObj ms =>
      match get_property "textures" (object_of_members ms) with
      | Some (JObj ts) =>
          let textures := object_of_members ts in
          let texture :=
            if has_property "side" textures
            then get_property "side" textures
            else head (Object_values textures) in
          match texture with
          | Some (JStr s) => inr s
          | _ => inl TypeError
          end
      | Some (JArr elems) =>
          match head elems with
          | Some (JStr s) => inr s
          | _ => inl TypeError
          end
      | _ => inl TypeError
      end
  | _ => inl TypeError
  end.

Section WithNode.
Context `{Node}.

Definition item_texture_path (version name : string) : string :=
  path_join [getUnpackedVersionDirectory version; "textures"; "item"; name +:+ ".png"].

Definition block_model_path (version name : string) : string :=
  path_join [getUnpackedVersionDirectory version; "models"; "block"; name +:+ ".json"].

Definition block_texture_path (version name : string) : string :=
  path_join [getUnpackedVersionDirectory version; "textures"; "block"; name +:+ ".png"].

Definition getUnpackedResource (version resource : string) : string :=
  path_join [getUnpackedVersionDirectory version; resource].

Definition getUnpackedItemResource (fs : gmap string entry) (version id : string)
  : error + string :=
  let id := substring_from (indexOf ":" id + 1) id in
  let itemPath := item_texture_path version id in
  if exists_ fs itemPath then inr itemPath
  else
    match readFile fs (block_model_path version id) with
    | inl e => inl e
    | inr blockModel =>
        match JSON_parse blockModel with
        | inl e => inl e
        | inr blockData =>
            match select_texture blockData with
            | inl e => inl e
            | inr texture =>
                inr (block_texture_path version (stripMinecraftNamespace texture))
            end
        end
    end.
End WithNode.

End Resolver.

(** ** Unpacking a version ([unpackVersion], [ensureUnpackedVersion])

    The host runs on one thread: code between two [await]s is atomic,
    and what is awaited completes through an event of the loop. *)

Module Unpack.

Inductive outcome := Fulfilled | Rejected.

(** What a started [unpackVersion] is waiting for. *)
Inductive stage :=
| MkdirUnpacked  (** [fs.mkdir(unpackedPath)] *)
| MkdirDatagen   (** [fs.mkdir(datagenPath)] *)
| MkdirFonts     (** [fs.mkdir(fontsPath)] *)
| Extract        (** the progress block that extracts the archive *)
| Datagen        (** the progress block that runs the generator *)
| DatagenStuck.  (** the generator's promise can no longer settle *)

(** A task is the promise [unpackVersion(version).finally(...)]:
    [Settled] once [unpackVersion] has settled and the [finally]
    callback is due, [Finalized] once the callback has run and the
    task's own promise has taken the outcome. *)
Inductive status :=
| Running (s : stage)
| Settled (o : outcome)
| Finalized (o : outcome).

Record task := { task_version : string; task_status : status }.

Record state := {
  fs : gmap string entry;
  runningUnpackTasks : gmap string nat;
  tasks : list task;
}.

Definition initial (disk : gmap string entry) : state :=
  {| fs := disk; runningUnpackTasks := ∅; tasks := [] |}.

(** How an awaited operation ends. *)
Inductive completion :=
| IoOk
| IoFailed
| ChildExit (code : Z)  (** the generator process emitted [exit] *)
| CommandFailed.        (** [getDatagenRunCommand] or [spawn] threw *)

Inductive call_result :=
| ReturnedVoid                (** resolved at once *)
| ReturnedTask (t : nat)      (** resolves or rejects with task [t] *)
| ReturnedMember (name : string).
    (** resolved at once, with the member of [Object.prototype] that
        has the name *)

Definition set_status (t : nat) (s : status) (st : state) : state :=
  {| fs := fs st;
     runningUnpackTasks := runningUnpackTasks st;
     tasks := alter (fun k => {| task_version := task_version k; task_status := s |})
                t (tasks st) |}.

Definition set_fs (disk : gmap string entry) (st : state) : state :=
  {| fs := disk; runningUnpackTasks := runningUnpackTasks st; tasks := tasks st |}.

Section WithNode.
Context `{Node}.

Definition datagenPath (version : string) : string :=
  path_join [getUnpackedVersionDirectory version; "datagen"].

Definition fontsPath (version : string) : string :=
  path_join [getUnpackedVersionDirectory version; "font"].

(** The call [unpackVersion(version)]: it runs up to its first
    [await] and hands back its promise. *)
Definition unpackVersion (version : string) (st : state) : nat * state :=
  (length (tasks st),
   {| fs := fs st;
      runningUnpackTasks := runningUnpackTasks st;
      tasks := (tasks st ++ [{| task_version := version;
                                task_status := Running MkdirUnpacked |}])%list |}).

(** [ensureUnpackedVersion(version)] from the point where
    [await exists(unpackedPath)] has answered [dirExists]. The table
    is a plain object: [runningUnpackTasks[version]] is the task
    entered under the version, else the member [Object.prototype] has
    under that name, which is truthy and is returned as it is. *)
Definition ensureUnpackedVersion (version : string) (dirExists : bool) (st : state)
  : call_result * state :=
  if dirExists then (ReturnedVoid, st)
  else
    match runningUnpackTasks st !! version with
    | Some t => (ReturnedTask t, st)
    | None =>
        if JS.inherits version then (ReturnedMember version, st)
        else
          let '(t, st') := unpackVersion version st in
          (ReturnedTask t,
           {| fs := fs st';
              runningUnpackTasks := <[version := t]> (runningUnpackTasks st');
              tasks := tasks st' |})
    end.

(** The same call when nothing else ran between the answer of
    [exists] and the continuation. *)
Definition ensureUnpackedVersion_now (version : string) (st : state)
  : call_result * state :=
  ensureUnpackedVersion version
    (exists_ (fs st) (getUnpackedVersionDirectory version)) st.

(** Task [t] resumes after what it awaited. *)
Definition resume (t : nat) (c : completion) (st : state) : state :=
  match tasks st !! t with
  | Some {| task_version := version; task_status := Running s |} =>
      match s, c with
      | MkdirUnpacked, IoOk =>
          set_status t (Running MkdirDatagen)
            (set_fs (mkdir (getUnpackedVersionDirectory version) (fs st)) st)
      | MkdirDatagen, IoOk =>
          set_status t (Running MkdirFonts)
            (set_fs (mkdir (datagenPath version) (fs st)) st)
      | MkdirFonts, IoOk =>
          set_status t (Running Extract)
            (set_fs (mkdir (fontsPath version) (fs st)) st)
      | Extract, IoOk => set_status t (Running Datagen) st
      | (MkdirUnpacked | MkdirDatagen | MkdirFonts | Extract), IoFailed =>
          set_status t (Settled Rejected) st
      | Datagen, ChildExit _ => set_status t (Settled Fulfilled) st
      | Datagen, CommandFailed => set_status t (Running DatagenStuck) st
      | _, _ => st
      end
  | _ => st
  end.

(** The callback [() => delete runningUnpackTasks[version]] of a task
    whose [unpackVersion] has settled. *)
Definition finally (t : nat) (st : state) : state :=
  match tasks st !! t with
  | Some {| task_version := version; task_status := Settled o |} =>
      set_status t (Finalized o)
        {| fs := fs st;
           runningUnpackTasks := delete version (runningUnpackTasks st);
           tasks := tasks st |}
  | _ => st
  end.

Inductive event :=
  | Call (version : string) (dirExists : bool)
  | Resume (t : nat) (c : completion)
  | Finally (t : nat).

Definition step (st : state) (ev : event) : state :=
  match ev with
  | Call version dirExists => (ensureUnpackedVersion version dirExists st).2
  | Resume t c => resume t c st
  | Finally t => finally t st
  end.

Definition run (evs : list event) (st : state) : state := fold_left step evs st.
End WithNode.

(** A task that has not been finalized is live. *)
Definition live (st : state) (t : nat) (version : string) : Prop :=
  ∃ s, tasks st !! t = Some {| task_version := version; task_status := s |}
       ∧ ∀ o, s ≠ Finalized o.

(** The table holds exactly the live tasks, each under its version. *)
Definition table_exact (st : state) : Prop :=
  (∀ version t, runningUnpackTasks st !! version = Some t → live st t version)
  ∧ (∀ version t, live st t version → runningUnpackTasks st !! version = Some t).

(** What a caller that was handed [r] has observed so far. *)
Definition observed (st : state) (r : call_result) : option outcome :=
  match r with
  | ReturnedVoid => Some Fulfilled
  | ReturnedTask t =>
      match tasks st !! t with
      | Some {| task_status := Finalized o |} => Some o
      | _ => None
      end
  | ReturnedMember _ => Some Fulfilled
  end.

(** No task is of a version that names a member of
    [Object.prototype]. *)
Definition tasks_named (st : state) : Prop :=
  ∀ t version s,
    tasks st !! t = Some {| task_version := version; task_status := s |} →
    JS.inherits version = false.

End Unpack.

(** ** The host's message handler ([resolveCustomEditor]) *)

Module Host.
Import JS Proto.

(** The asynchronous operations the handler awaits, with the type of
    what each resolves to. *)
Inductive query :=
| GetMinecraftVersions
| EnsureUnpackedVersion (version : string)
| GetUnpackedItemResource (version id : string)
| GetUnpackedResource (version resource : string)
| ReadFileBase64 (path : string)
| GetItemComponents (version : string).

Definition answer (q : query) : Type :=
  match q with
  | GetMinecraftVersions => list string
  | EnsureUnpackedVersion _ => unit
  | GetUnpackedItemResource _ _ => string
  | GetUnpackedResource _ _ => string
  | ReadFileBase64 _ => string
  | GetItemComponents _ => list string
  end.

(** The handler as the sequence of what it does. An awaited operation
    that rejects ends the handler there. *)
Inductive prog :=
| Return
| Await (q : query) (k : answer q -> prog)
| ConsoleLog (label : string) (data : json) (k : prog)
| PostMessage (m : ServerMessage) (k : prog)
| DocumentWrite (item : Item) (k : prog)
| DocumentItem (k : option Item -> prog).

Definition includes (l : list string) (x : string) : bool := bool_decide (x ∈ l).

(** Truthiness of [document.item?.minecraftVersion]. *)
Definition has_version (item : option Item) : option string :=
  match item with
  | Some i => if String.eqb (minecraftVersion i) "" then None else Some (minecraftVersion i)
  | None => None
  end.

Definition onDidReceiveMessage (minecraftVersions : list string) (data : json) : prog :=
  ConsoleLog "CLIENT MESSAGE" data
    match ClientMessages_safeParse data with
    | None => Return
    | Some (GetItemTexture parsedItem) =>
        Await GetMinecraftVersions (fun versions =>
          if negb (includes versions (minecraftVersion parsedItem)) then Return
          else
            Await (EnsureUnpackedVersion (minecraftVersion parsedItem)) (fun _ =>
            Await (GetUnpackedItemResource (minecraftVersion parsedItem) (id parsedItem))
              (fun path =>
            Await (ReadFileBase64 path) (fun content =>
            PostMessage (ItemTextureResponse parsedItem content) Return))))
    | Some (GetAnyResource version resource) =>
        Await GetMinecraftVersions (fun versions =>
          if negb (includes versions version) then Return
          else
            Await (EnsureUnpackedVersion version) (fun _ =>
            Await (GetUnpackedResource version resource) (fun path =>
            Await (ReadFileBase64 path) (fun content =>
            PostMessage (AnyResourceResponse version resource content) Return))))
    | Some (ClientUpdateItem (Some item)) =>
        DocumentWrite item
          (Await (GetItemComponents (minecraftVersion item)) (fun components =>
           PostMessage (UpdateItemComponents components) Return))
    | Some (ClientUpdateItem None) => Return
    | Some Ready =>
        DocumentItem (fun item =>
          PostMessage (ServerUpdateItem item)
          (PostMessage (UpdateMinecraftVersions minecraftVersions)
          match has_version item with
          | Some version =>
              Await (GetItemComponents version) (fun components =>
              PostMessage (UpdateItemComponents components) Return)
          | None => Return
          end))
    end.

(** The state the handler can touch: the document, the messages posted
    to the webview, the console and the change events fired. *)
Record host := {
  document_item : option Item;
  document_hash : option string;
  posted : list ServerMessage;
  console : list (string * json);
  changes_fired : nat;
}.

Section WithNode.
Context `{Node}.

Definition hashItem (item : Item) : string := md5_hex (Item_to_json item).

(** [ItemEditorDocument.write]. *)
Definition document_write (item : Item) (h : host) : host :=
  let newHash := hashItem item in
  let changed :=
    match document_hash h with
    | None => true
    | Some old => negb (String.eqb old newHash)
    end in
  if changed then
    {| document_item := Some item;
       document_hash := Some newHash;
       posted := posted h;
       console := console h;
       changes_fired := S (changes_fired h) |}
  else h.

(** [ItemEditorDocument.init] on the decoded content of the file:
    a validation or syntax error leaves the item [null]. *)
Definition document_init (content : file) (h : host) : host :=
  match content with
  | JsonText data =>
      match Item_parse data with
      | Some item =>
          {| document_item := Some item;
             document_hash := Some (hashItem item);
             posted := posted h;
             console := console h;
             changes_fired := changes_fired h |}
      | None => h
      end
  | _ => h
  end.

(** [saveCustomDocumentAs]: the file written at the destination. *)
Definition saveCustomDocumentAs (h : host) (destination : string)
    (fs : gmap string entry) : gmap string entry :=
  <[destination := own (JsonText (document_to_json (document_item h)))]> fs.

(** Running the handler: [world] resolves ([Some]) or rejects
    ([None]) each awaited operation. The flag tells whether the
    handler ran to its end. *)
Fixpoint exec (world : ∀ q, option (answer q)) (p : prog) (h : host) : host * bool :=
  match p with
  | Return => (h, true)
  | Await q k =>
      match world q with
      | Some a => exec world (k a) h
      | None => (h, false)
      end
  | ConsoleLog label data k =>
      exec world k
        {| document_item := document_item h;
           document_hash := document_hash h;
           posted := posted h;
           console := (console h ++ [(label, data)])%list;
           changes_fired := changes_fired h |}
  | PostMessage m k =>
      exec world k
        {| document_item := document_item h;
           document_hash := document_hash h;
           posted := (posted h ++ [m])%list;
           console := console h;
           changes_fired := changes_fired h |}
  | DocumentWrite item k => exec world k (document_write item h)
  | DocumentItem k => exec world (k (document_item h)) h
  end.
End WithNode.

End Host.

(** ** The rendering side's message handler ([App]) *)

Module App.
Import JS Proto.

(** The resource paths of [util/constant.ts]. *)
Class Constants := {
  GLINT_TEXTURE_PATH : string;
  ASCII_FONT_PATH : string;
  ACCENTED_FONT_PATH : string;
  NONLATIN_EUROPEAN_FONT_PATH : string;
  FONT_DATA_JSON : string;
}.

Record state := {
  minecraftVersions : list string;
  itemTextures : gmap string string;
  resources : gmap string string;
  editedItem : option mc.IItem;
  itemComponents : list string;
}.

(** The object literals [App] hands to [vsc.postMessage]. They are
    typed, not validated: the item is [editedItem] as it is. *)
Inductive post :=
| PostReady
| PostUpdateItem (item : mc.IItem)
| PostGetItemTexture (item : mc.IItem)
| PostGetResource (version resource : string).

Definition initial : state :=
  {| minecraftVersions := []; itemTextures := ∅; resources := ∅;
     editedItem := None; itemComponents := [] |}.

Section WithConstants.
Context `{Constants}.

Definition requestResource (version path : string) : post :=
  PostGetResource version path.

(** What the effects that depend on [editedItem] and on
    [editedItem?.minecraftVersion] post after [setEditedItem(item)]
    with a fresh value. *)
Definition item_effects (old new : option mc.IItem) : list post :=
  match new with
  | None => []
  | Some item =>
      ([PostUpdateItem item; PostGetItemTexture item] ++
       (if bool_decide (mc.minecraftVersion <$> old = Some (mc.minecraftVersion item))
        then []
        else [ requestResource (mc.minecraftVersion item) GLINT_TEXTURE_PATH;
               requestResource (mc.minecraftVersion item) ASCII_FONT_PATH;
               requestResource (mc.minecraftVersion item) ACCENTED_FONT_PATH;
               requestResource (mc.minecraftVersion item) NONLATIN_EUROPEAN_FONT_PATH ]))%list
  end.

(** The listener for [message] events: the state after it, with what
    was logged and what the effects it triggers post to the host. *)
Definition onMessage (data : json) (st : state)
  : state * list (string * json) * list post :=
  let log := [("SERVER MESSAGE", data)] in
  match ServerMessages_safeParse data with
  | None => (st, log, [])
  | Some (ServerUpdateItem item) =>
      ({| minecraftVersions := minecraftVersions st;
          itemTextures := itemTextures st;
          resources := resources st;
          editedItem := IItem_of_Item <$> item;
          itemComponents := itemComponents st |},
       log, item_effects (editedItem st) (IItem_of_Item <$> item))
  | Some (UpdateMinecraftVersions versions) =>
      ({| minecraftVersions := versions;
          itemTextures := itemTextures st;
          resources := resources st;
          editedItem := editedItem st;
          itemComponents := itemComponents st |}, log, [])
  | Some (ItemTextureResponse item texture) =>
      ({| minecraftVersions := minecraftVersions st;
          itemTextures := <[hashItemTexture item := texture]> (itemTextures st);
          resources := resources st;
          editedItem := editedItem st;
          itemComponents := itemComponents st |}, log, [])
  | Some (AnyResourceResponse version resource texture) =>
      ({| minecraftVersions := minecraftVersions st;
          itemTextures := itemTextures st;
          resources := <[hashResource version resource := texture]> (resources st);
          editedItem := editedItem st;
          itemComponents := itemComponents st |}, log, [])
  | Some (UpdateItemComponents components) =>
      ({| minecraftVersions := minecraftVersions st;
          itemTextures := itemTextures st;
          resources := resources st;
          editedItem := editedItem st;
          itemComponents := components |}, log, [])
  end.
End WithConstants.

End App.

(** ** Enchantment detection ([util/preview.ts]) *)

Module Preview.
Import JS.

(** The SNBT parser of the package [@basalt-nbt]: [parseSNBT] ([None]
    when it throws), [getValue()] of a tag that is an instance of
    [ByteTag], and the length of [list()] of a tag that is an instance
    of [CompoundTag]. *)
Class NBT := {
  Tag : Type;
  parseSNBT : string -> option Tag;
  ByteTag_getValue : Tag -> option Z;
  CompoundTag_list_length : Tag -> option nat;
}.

Definition GLINT_OVERRIDE : string := "minecraft:enchantment_glint_override".
Definition ENCHANTMENTS : string := "minecraft:enchantments".

Definition newline : ascii := ascii_of_nat 10.

Section WithNBT.
Context `{NBT}.

Definition tryParseSNBT (snbt : string) : option Tag := parseSNBT snbt.

(** The tag a component string parses to, newlines removed; [None]
    when the parser throws. *)
Definition parsed_component (s : string) : option Tag :=
  tryParseSNBT (remove_char newline s).

Definition isItemEnchanted (item : Item) : bool :=
  match components item !! GLINT_OVERRIDE with
  | Some override =>
      match tryParseSNBT (remove_char newline override) with
      | Some parsed =>
          match ByteTag_getValue parsed with
          | Some v => (v =? 1)%Z
          | None => false
          end
      | None => false
      end
  | None =>
      match components item !! ENCHANTMENTS with
      | Some enchantments =>
          match tryParseSNBT (remove_char newline enchantments) with
          | Some parsed =>
              match CompoundTag_list_length parsed with
              | Some n => (0 <? n)%nat
              | None => false
              end
          | None => false
          end
      | None => false
      end
  end.
End WithNBT.

End Preview.

(** ** The bitmap font ([util/mcbitmapfont.ts]) *)

Module Font.

(** A row of glyphs is the list of the UTF-16 code units of its
    string. *)
Record MCFontProvider := {
  type : string;
  file : string;
  height : option Z;
  ascent : Z;
  chars : list (list N);
}.

Record MCFontData := { providers : list MCFontProvider }.

Definition MC2PAGE (file : string) : option nat :=
  if String.eqb file "minecraft:font/ascii.png" then Some 0%nat
  else if String.eqb file "minecraft:font/accented.png" then Some 1%nat
  else if String.eqb file "minecraft:font/nonlatin_european.png" then Some 2%nat
  else None.

Record RawCharData := {
  char_id : N;
  char_page : option nat;
  char_x : Z;
  char_y : Z;
  char_width : Z;
  char_height : Z;
  char_letter : list N;
  char_xAdvance : Z;
  char_yOffset : Z;
  char_xOffset : Z;
  char_kerning : list (N * Z);
}.

(** [textures[page]!.width]: [None] when the read throws, which it does
    for a page that is [undefined]. The three textures are given by
    their widths. *)
Definition page_width (textures : Z * Z * Z) (page : option nat) : option Z :=
  let '(ascii, accent, nonlatin) := textures in
  match page with
  | Some 0%nat => Some ascii
  | Some 1%nat => Some accent
  | Some 2%nat => Some nonlatin
  | _ => None
  end.

(** The loop over [j]. *)
Fixpoint row_loop (page : option nat) (width height : Z) (i : nat)
    (row : list N) (j : nat) (table : gmap N RawCharData) : gmap N RawCharData :=
  match row with
  | [] => table
  | code :: rest =>
      row_loop page width height i rest (S j)
        (<[code := {| char_id := code;
                      char_page := page;
                      char_x := Z.of_nat j * width;
                      char_y := Z.of_nat i * height;
                      char_width := width;
                      char_height := height;
                      char_letter := [code];
                      char_xAdvance := width;
                      char_yOffset := 0;
                      char_xOffset := 0;
                      char_kerning := [] |}]> table)
  end.

(** The loop over [i]. *)
Fixpoint rows_loop (textures : Z * Z * Z) (page : option nat) (height : Z)
    (rows : list (list N)) (i : nat) (table : gmap N RawCharData)
  : option (gmap N RawCharData) :=
  match rows with
  | [] => Some table
  | row :: rest =>
      match page_width textures page with
      | None => None
      | Some w =>
          let width := w / Z.of_nat (length row) in
          rows_loop textures page height rest (S i)
            (row_loop page width height i row 0 table)
      end
  end.

(** The loop over the providers. *)
Fixpoint providers_loop (textures : Z * Z * Z) (ps : list MCFontProvider)
    (table : gmap N RawCharData) : option (gmap N RawCharData) :=
  match ps with
  | [] => Some table
  | provider :: rest =>
      let page := MC2PAGE (file provider) in
      let height := default 8 (height provider) in
      match rows_loop textures page height (chars provider) 0 table with
      | None => None
      | Some table' => providers_loop textures rest table'
      end
  end.

(** The [chars] table [generate] passes to the font; [None] when
    [generate] throws. *)
Definition generate (data : MCFontData) (textures : Z * Z * Z)
  : option (gmap N RawCharData) :=
  providers_loop textures (providers data) ∅.

(** The assignment [chars[id] = ...]. *)
Definition assign (table : gmap N RawCharData) (a : N * RawCharData)
  : gmap N RawCharData := <[a.1 := a.2]> table.

(** *** The glyph table as the specification words it *)

(** The cell of the character at [column] of row [rowIndex] of a
    provider, the row having [n] characters. *)
Definition cell (textures : Z * Z * Z) (provider : MCFontProvider)
    (rowIndex n column : nat) (code : N) : RawCharData :=
  let cellWidth := default 0 (page_width textures (MC2PAGE (file provider))) / Z.of_nat n in
  let rowHeight := default 8 (height provider) in
  {| char_id := code;
     char_page := MC2PAGE (file provider);
     char_x := Z.of_nat column * cellWidth;
     char_y := Z.of_nat rowIndex * rowHeight;
     char_width := cellWidth;
     char_height := rowHeight;
     char_letter := [code];
     char_xAdvance := cellWidth;
     char_yOffset := 0;
     char_xOffset := 0;
     char_kerning := [] |}.

(** Every assignment of the manifest, in processing order. *)
Definition assignments (data : MCFontData) (textures : Z * Z * Z)
  : list (N * RawCharData) :=
  providers data ≫= (fun provider =>
    mjoin (imap (fun rowIndex row =>
      imap (fun column code =>
        (code, cell textures provider rowIndex (length row) column code)) row)
      (chars provider))).

(** The last assignment of a character code wins. *)
Definition reference_glyph (data : MCFontData) (textures : Z * Z * Z) (code : N)
  : option RawCharData :=
  last (omap (fun a : N * RawCharData => if (a.1 =? code)%N then Some a.2 else None)
          (assignments data textures)).

(** Every provider that has a row names one of the three known files. *)
Definition recognised (data : MCFontData) : Prop :=
  Forall (fun provider => chars provider = [] ∨ is_Some (MC2PAGE (file provider)))
    (providers data).

End Font.

(** ** Tooltip layout ([util/tooltip.ts]) *)

Module Tooltip.

Inductive MCText :=
| MString (s : string)
| MArray (items : list MCText)
| MObject (text : string) (color : option string) (extra : option (list MCText)).

(** The fill of a run: [new PIXI.Color(c)], kept as the string it is
    made from; the entry [MINECRAFT_COLORS[c]]; or a colour name handed
    down to the children as it is. *)
Inductive fill :=
| PixiColor (c : string)
| MinecraftColorsEntry (c : string)
| RawColor (c : string).

(** The size [PIXI.Text] gives a string in the tooltip's text style, in
    whole pixels, and whether [new PIXI.Color(color)] makes a colour of
    a string: it throws when it cannot convert it. [PIXI.TextStyle] is
    taken to accept the fill it is handed. *)
Class Pixi := {
  text_width : string -> Z;
  text_height : string -> Z;
  color_valid : string -> bool;
}.

Definition TOOLTIP_DEFAULT_TEXT_COLOR : fill := PixiColor "#ffffff".

Definition TOOLTIP_PADDING_OUT_X : Z := 8.
Definition TOOLTIP_PADDING_OUT_Y : Z := 8.
Definition TOOLTIP_PADDING_INNER_X : Z := 8.
Definition TOOLTIP_PADDING_INNER_Y : Z := 8.

(** The names for which [color in DEFAULT_TEXT_STYLE] holds: the two
    keys of the style and what every object inherits. *)
Definition in_DEFAULT_TEXT_STYLE (color : string) : bool :=
  bool_decide (color ∈ [ "fontFamily"; "fontSize"; "constructor"; "hasOwnProperty";
                         "isPrototypeOf"; "propertyIsEnumerable"; "toLocaleString";
                         "toString"; "valueOf"; "__proto__"; "__defineGetter__";
                         "__defineSetter__"; "__lookupGetter__"; "__lookupSetter__" ]).

Record run := {
  run_text : string;
  run_fill : fill;
  run_x : Z;
  run_y : Z;
}.

Fixpoint nodes (t : MCText) : nat :=
  match t with
  | MString _ => 1
  | MArray items => S (list_sum (map nodes items))
  | MObject _ _ extra =>
      S (match extra with
         | Some children => list_sum (map nodes children)
         | None => 0
         end)
  end.

Definition queue_nodes (parts : list (MCText * fill)) : nat :=
  list_sum (map (fun p => nodes p.1) parts).

Lemma queue_nodes_app (p q : list (MCText * fill)) :
  queue_nodes (p ++ q) = (queue_nodes p + queue_nodes q)%nat.
Proof.
  unfold queue_nodes. rewrite map_app, list_sum_app. reflexivity.
Qed.

Lemma queue_nodes_children (items : list MCText) (c : fill) :
  queue_nodes (map (fun t => (t, c)) items) = list_sum (map nodes items).
Proof.
  unfold queue_nodes. rewrite map_map. reflexivity.
Qed.

(** The loop state between two iterations of [while (parts.length > 0)]. *)
Record line_state := {
  currentX : Z;
  textHeight : Z;
  placed : list run;
}.

Section WithPixi.
Context `{Pixi}.

(** [toPIXIColor]; [None] when [new PIXI.Color(color)] throws. *)
Definition toPIXIColor (color : string) : option fill :=
  if in_DEFAULT_TEXT_STYLE color then Some (MinecraftColorsEntry color)
  else if color_valid color then Some (PixiColor color)
  else None.

(** The fill of the text of an object:
    [top.color ? toPIXIColor(top.color) : parentColor]. *)
Definition text_fill (color : option string) (parentColor : fill) : option fill :=
  match color with
  | Some c => if String.eqb c "" then Some parentColor else toPIXIColor c
  | None => Some parentColor
  end.

(** The end of an iteration that made a text: it is placed at the
    cursor, the cursor moves by its width, and [textHeight] becomes
    [Math.max(0, text.height)]. *)
Definition place (text : string) (f : fill) (currentY : Z) (ls : line_state)
  : line_state :=
  {| currentX := currentX ls + text_width text;
     textHeight := Z.max 0 (text_height text);
     placed := (placed ls ++ [{| run_text := text; run_fill := f;
                                 run_x := currentX ls; run_y := currentY |}])%list |}.

(** The loop over the parts of a line; [None] when making a text
    throws. *)
Equations? line_loop (currentY : Z) (parts : list (MCText * fill)) (ls : line_state)
  : option line_state by wf (queue_nodes parts) lt :=
  line_loop currentY [] ls := Some ls;
  line_loop currentY ((MArray items, parentColor) :: rest) ls :=
    line_loop currentY (rest ++ map (fun text => (text, parentColor)) items) ls;
  line_loop currentY ((MString top, parentColor) :: rest) ls :=
    line_loop currentY rest (place top parentColor currentY ls);
  line_loop currentY ((MObject text color extra, parentColor) :: rest) ls
    with text_fill color parentColor := {
    | None := None;
    | Some f :=
        line_loop currentY
          (rest ++ match extra with
                   | Some children =>
                       map (fun child =>
                              (child, match color with
                                      | Some c => RawColor c
                                      | None => parentColor
                                      end)) children
                   | None => []
                   end)
          (place text f currentY ls) }.
Proof.
  all: rewrite ?queue_nodes_app; try destruct extra as [children|];
    rewrite ?queue_nodes_children; unfold queue_nodes; simpl; lia.
Qed.

(** The state carried from line to line. *)
Record layout := {
    currentY : Z;
    maxWidth : Z;
    runs : list run;
  }.

Definition layout_line (l : layout) (line : MCText) : option layout :=
  match line_loop (currentY l) [(line, TOOLTIP_DEFAULT_TEXT_COLOR)]
          {| currentX := 0; textHeight := 0; placed := [] |} with
  | None => None
  | Some ls =>
      Some {| currentY := currentY l + textHeight ls;
              maxWidth := Z.max (maxWidth l) (currentX ls);
              runs := (runs l ++ placed ls)%list |}
  end.

(** The loop over the lines. *)
Fixpoint layout_loop (lines : list MCText) (l : layout) : option layout :=
  match lines with
  | [] => Some l
  | line :: rest =>
      match layout_line l line with
      | None => None
      | Some l' => layout_loop rest l'
      end
  end.

Definition layout_lines (lines : list MCText) : option layout :=
  layout_loop lines {| currentY := 0; maxWidth := 0; runs := [] |}.

(** What [buildTooltip] draws: the background rectangle at the
    origin, the position of the text container and its runs. *)
Record tooltip := {
    panel_width : Z;
    panel_height : Z;
    text_x : Z;
    text_y : Z;
    text_runs : list run;
  }.

(** [buildTooltip]; [None] when it throws. *)
Definition buildTooltip (lines : list MCText) : option tooltip :=
  match layout_lines lines with
  | None => None
  | Some l =>
      Some {| panel_width :=
                maxWidth l + TOOLTIP_PADDING_OUT_X * 2 + TOOLTIP_PADDING_INNER_X * 2;
              panel_height :=
                currentY l + TOOLTIP_PADDING_OUT_Y * 2 + TOOLTIP_PADDING_INNER_Y * 2;
              text_x := TOOLTIP_PADDING_OUT_X + TOOLTIP_PADDING_INNER_X;
              text_y := TOOLTIP_PADDING_OUT_Y + TOOLTIP_PADDING_INNER_Y;
              text_runs := runs l |}
  end.

(** The runs of a line sit side by side from [0]: each starts where
    the one before it ends, and the cursor ends at their total width. *)
Fixpoint side_by_side (x : Z) (rs : list run) : Prop :=
  match rs with
  | [] => True
  | r :: rest => run_x r = x ∧ side_by_side (x + text_width (run_text r)) rest
  end.

Definition total_width (rs : list run) : Z :=
  foldr (fun r acc => text_width (run_text r) + acc) 0 rs.

(** The height of the tallest text among runs, as the specification
    has the height of a line. *)
Definition tallest (rs : list run) : Z :=
  foldr (fun r acc => Z.max (text_height (run_text r)) acc) 0 rs.
End WithPixi.

End Tooltip.

(** ** Concrete environments *)

Module Sample.

(** Path segments joined by a slash. *)
Definition join (segments : list string) : string := String.concat "/" segments.

#[export] Instance node : Node :=
  {| path_join := join;
     dotMinecraft := "~/.minecraft";
     md5_hex := fun _ => "d41d8cd98f00b204e9800998ecf8427e" |}.

#[export] Instance constants : App.Constants :=
  {| App.GLINT_TEXTURE_PATH := "textures/misc/enchanted_glint_item.png";
     App.ASCII_FONT_PATH := "textures/font/ascii.png";
     App.ACCENTED_FONT_PATH := "textures/font/accented.png";
     App.NONLATIN_EUROPEAN_FONT_PATH := "textures/font/nonlatin_european.png";
     App.FONT_DATA_JSON := "font/include/default.json" |}.

(** A parser that knows four texts. *)
Inductive tag := Byte (v : Z) | Compound (entries : nat).

#[export] Instance nbt : Preview.NBT :=
  {| Preview.Tag := tag;
     Preview.parseSNBT := fun snbt =>
       if String.eqb snbt "1b" then Some (Byte 1)
       else if String.eqb snbt "0b" then Some (Byte 0)
       else if String.eqb snbt "{}" then Some (Compound 0)
       else if String.eqb snbt "{sharpness:1}" then Some (Compound 1)
       else None;
     Preview.ByteTag_getValue := fun t =>
       match t with Byte v => Some v | _ => None end;
     Preview.CompoundTag_list_length := fun t =>
       match t with Compound n => Some n | _ => None end |}.

Fixpoint count_char (c : ascii) (s : string) : nat :=
  match s with
  | EmptyString => 0
  | String d rest => ((if Ascii.eqb c d then 1 else 0) + count_char c rest)%nat
  end.

(** Glyphs eight pixels wide, lines of twenty-four pixels: a text of
    [n] newlines is [n + 1] lines high. The colours are those written
    with a hash sign and a few names of CSS. *)
#[export] Instance pixi : Tooltip.Pixi :=
  {| Tooltip.text_width := fun s => 8 * Z.of_nat (String.length s);
     Tooltip.text_height := fun s => 24 * (Z.of_nat (count_char Preview.newline s) + 1);
     Tooltip.color_valid := fun c =>
       match c with
       | String "#" _ => true
       | _ => bool_decide (c ∈ ["red"; "green"; "blue"; "yellow"; "white"; "black";
                                "gold"; "gray"; "aqua"])
       end |}.

(** A block model whose textures declare [particle] first and a slot
    named [0] second, on a disk that has no texture for the item. *)
Definition lamp_model : JS.json :=
  JS.JObj [("textures", JS.JObj [("particle", JS.JStr "block/a");
                                 ("0", JS.JStr "block/b")])].

Definition lamp_disk : gmap string entry :=
  {[ Resolver.block_model_path "1.21" "lamp" := own (JsonText lamp_model) ]}.

(** A block model with a [side] slot declared after another slot. *)
Definition log_textures : list (string * JS.json) :=
  [("end", JS.JStr "minecraft:block/log_top"); ("side", JS.JStr "minecraft:block/log")].

Definition log_disk : gmap string entry :=
  {[ Resolver.block_model_path "1.21" "log" :=
       own (JsonText (JS.JObj [("parent", JS.JStr "block/cube_column");
                               ("textures", JS.JObj log_textures)])) ]}.

(** A stick with a glint override and one with enchantments only. *)
Definition plain_stick : Item :=
  {| minecraftVersion := "1.21"; id := "minecraft:stick"; count := 1;
     components := {[ Preview.GLINT_OVERRIDE := "0b";
                      Preview.ENCHANTMENTS := "{sharpness:1}" ]} |}.

Definition sharp_stick : Item :=
  {| minecraftVersion := "1.21"; id := "minecraft:stick"; count := 1;
     components := {[ Preview.ENCHANTMENTS := "{sharpness:1}" ]} |}.

(** A manifest whose only provider names a file outside [MC2PAGE], and
    one with a row of sixteen glyphs on the ASCII page. *)
Definition unknown_file_font : Font.MCFontData :=
  {| Font.providers :=
       [ {| Font.type := "bitmap"; Font.file := "minecraft:font/asciillager.png";
            Font.height := None; Font.ascent := 7; Font.chars := [[65%N; 66%N]] |} ] |}.

Definition ascii_row_font : Font.MCFontData :=
  {| Font.providers :=
       [ {| Font.type := "bitmap"; Font.file := "minecraft:font/ascii.png";
            Font.height := None; Font.ascent := 7;
            Font.chars := [ [32%N; 33%N; 34%N; 35%N; 36%N; 37%N; 38%N; 39%N;
                             40%N; 41%N; 42%N; 43%N; 44%N; 45%N; 46%N; 47%N];
                            [48%N; 49%N; 50%N; 51%N; 52%N; 53%N; 54%N; 55%N;
                             56%N; 57%N; 58%N; 59%N; 60%N; 61%N; 62%N; 32%N] ] |} ] |}.

(** The text of two lines [a] and [b], and a tooltip line made of it
    followed by a text of one line. *)
Definition two_lines : string := String "a" (String Preview.newline "b").

Definition uneven_line : Tooltip.MCText :=
  Tooltip.MArray [Tooltip.MString two_lines; Tooltip.MString "c"].

(** The host after a call for a version has started a task and the
    task has made the version's directory; after the task then failed
    and its [finally] callback ran; and after a task ran up to a
    generator that exited with code [1]. *)
Definition unpacking : Unpack.state :=
  Unpack.run [Unpack.Call "1.21" false; Unpack.Resume 0 Unpack.IoOk] (Unpack.initial ∅).

Definition unpack_failed : Unpack.state :=
  Unpack.run [Unpack.Resume 0 Unpack.IoFailed; Unpack.Finally 0] unpacking.

Definition generating : Unpack.state :=
  Unpack.run [Unpack.Resume 0 Unpack.IoOk; Unpack.Resume 0 Unpack.IoOk;
              Unpack.Resume 0 Unpack.IoOk] unpacking.

Definition generator_failed : Unpack.state :=
  Unpack.run [Unpack.Resume 0 Unpack.IoOk; Unpack.Resume 0 Unpack.IoOk;
              Unpack.Resume 0 Unpack.IoOk; Unpack.Resume 0 (Unpack.ChildExit 1);
              Unpack.Finally 0] unpacking.

End Sample.

(** * Further parts of the sources *)

(** ** Strings without a given character *)

Module Text.

Fixpoint free_of (c : ascii) (s : string) : bool :=
  match s with
  | EmptyString => true
  | String d rest => negb (Ascii.eqb c d) && free_of c rest
  end.

End Text.

(** ** What a task has made on the disk *)

Module UnpackFacts.
Import Unpack.

Section WithNode.
Context `{Node}.

(** The directories whose creation a task has awaited with success by
    the time it has a status. *)
Definition made (version : string) (s : status) : list string :=
  match s with
  | Running MkdirUnpacked => []
  | Running MkdirDatagen => [getUnpackedVersionDirectory version]
  | Running MkdirFonts => [getUnpackedVersionDirectory version; datagenPath version]
  | Running (Extract | Datagen | DatagenStuck)
  | Settled Fulfilled | Finalized Fulfilled =>
      [getUnpackedVersionDirectory version; datagenPath version; fontsPath version]
  | Settled Rejected | Finalized Rejected => []
  end.

End WithNode.

End UnpackFacts.

(** ** What a run of the handler awaits *)

Module HostFacts.
Import Host.

Section WithNode.
Context `{Node}.

(** The operations the handler awaits, in order, when [world] answers
    them. *)
Fixpoint awaited (world : ∀ q, option (answer q)) (p : prog) (h : host) : list query :=
  match p with
  | Return => []
  | Await q k =>
      q :: match world q with
           | Some a => awaited world (k a) h
           | None => []
           end
  | ConsoleLog _ _ k => awaited world k h
  | PostMessage _ k => awaited world k h
  | DocumentWrite item k => awaited world k (document_write item h)
  | DocumentItem k => awaited world (k (document_item h)) h
  end.

(** The stored hash is the hash of the stored item. *)
Definition document_consistent (h : host) : Prop :=
  document_hash h = hashItem <$> document_item h.
End WithNode.

(** The version a request for a texture or a resource is about. *)
Definition requested_version (m : Proto.ClientMessage) : option string :=
  match m with
  | Proto.GetItemTexture item => Some (minecraftVersion item)
  | Proto.GetAnyResource version _ => Some version
  | _ => None
  end.

End HostFacts.

(** ** What the rendering side posts *)

Module AppPosts.
Import JS Proto.

(** A message of the panel as the host receives it. A count that is
    [NaN] arrives as a value [z.number()] does not accept; it is
    written [null] here, as [JSON.stringify] writes it. *)
Definition number_to_json (n : mc.number) : json :=
  match n with
  | mc.Num z => JNum z
  | mc.NaN => JNull
  end.

Definition IItem_to_json (item : mc.IItem) : json :=
  JObj [ ("minecraftVersion", JStr (mc.minecraftVersion item));
         ("id", JStr (mc.id item));
         ("count", number_to_json (mc.count item));
         ("components", components_to_json (mc.components item)) ].

Definition post_to_json (p : App.post) : json :=
  match p with
  | App.PostReady => JObj [("type", JStr "ready")]
  | App.PostUpdateItem item =>
      JObj [("type", JStr "update-item"); ("item", IItem_to_json item)]
  | App.PostGetItemTexture item =>
      JObj [("type", JStr "get-item-texture"); ("item", IItem_to_json item)]
  | App.PostGetResource version resource =>
      JObj [("type", JStr "get-resource"); ("version", JStr version);
            ("resource", JStr resource)]
  end.

(** The messages of the client schema, as object literals. *)
Definition ClientMessage_to_json (m : ClientMessage) : json :=
  match m with
  | Ready => JObj [("type", JStr "ready")]
  | ClientUpdateItem item =>
      JObj [("type", JStr "update-item"); ("item", document_to_json item)]
  | GetItemTexture item =>
      JObj [("type", JStr "get-item-texture"); ("item", Item_to_json item)]
  | GetAnyResource version resource =>
      JObj [("type", JStr "get-resource"); ("version", JStr version);
            ("resource", JStr resource)]
  end.

(** What the client schema makes of a message of the panel. *)
Definition validated (p : App.post) : option ClientMessage :=
  match p with
  | App.PostReady => Some Ready
  | App.PostUpdateItem item =>
      (fun item => ClientUpdateItem (Some item)) <$> Item_of_IItem item
  | App.PostGetItemTexture item => GetItemTexture <$> Item_of_IItem item
  | App.PostGetResource version resource => Some (GetAnyResource version resource)
  end.

(** The keys the [Item] schema declares. *)
Definition Item_keys : list string := ["minecraftVersion"; "id"; "count"; "components"].

End AppPosts.

(** ** Characters of a manifest *)

Module FontFacts.
Import Font.

(** A character code occurs in a row of the provider, of the
    manifest. *)
Definition in_provider (code : N) (provider : MCFontProvider) : Prop :=
  ∃ row, row ∈ chars provider ∧ code ∈ row.

Definition occurs (code : N) (data : MCFontData) : Prop :=
  ∃ provider, provider ∈ providers data ∧ in_provider code provider.

End FontFacts.

(** ** A manifest of two providers *)

Module FontSamples.
Import Font.

(** A provider of the accented page that also draws the digit zero. *)
Definition accented_row : MCFontProvider :=
  {| type := "bitmap"; file := "minecraft:font/accented.png";
     height := Some 12; ascent := 10;
     chars := [ [192%N; 193%N; 48%N; 233%N] ] |}.

Definition two_providers : MCFontData :=
  {| providers := providers Sample.ascii_row_font ++ [accented_row] |}.

Definition two_providers_table : gmap N RawCharData :=
  default ∅ (generate two_providers (128, 64, 128)).

End FontSamples.

(** ** Sample environments of the handler *)

Module HostSamples.
Import Host.

(** An environment where only the listing of the versions succeeds. *)
Definition only_versions (installed : list string) (q : query) : option (answer q) :=
  match q with
  | GetMinecraftVersions => Some installed
  | _ => None
  end.

(** An environment where nothing succeeds. *)
Definition nothing (q : query) : option (answer q) := None.


(** The document of a panel that has just been made. *)
Definition fresh : host :=
  {| document_item := None; document_hash := None;
     posted := []; console := []; changes_fired := 0 |}.

End HostSamples.

(** ** A task whose generator cannot be launched *)

Module UnpackSamples.
Import Unpack.

Definition until_generator : list event :=
  [Call "1.21" false; Resume 0 IoOk; Resume 0 IoOk; Resume 0 IoOk; Resume 0 IoOk].

Definition launch_fails : list event := (until_generator ++ [Resume 0 CommandFailed])%list.


End UnpackSamples.

(** ** The texts of a tooltip line *)

Module TooltipFacts.
Import Tooltip.

(** The strings and the [text] fields of a line, arrays and [extra]
    lists flattened. *)
Fixpoint texts_of (t : MCText) : list string :=
  match t with
  | MString s => [s]
  | MArray items => concat (map texts_of items)
  | MObject text _ extra =>
      text :: match extra with
              | Some children => concat (map texts_of children)
              | None => []
              end
  end.

Definition queue_texts (parts : list (MCText * fill)) : list string :=
  concat (map (fun p => texts_of p.1) parts).

Definition start : line_state := {| currentX := 0; textHeight := 0; placed := [] |}.

Section WithPixi.
Context `{Pixi}.

(** The colour of an object lets its text be made: there is none, or
    it is empty, or a name of the default style, or a string
    [new PIXI.Color] converts. *)
Definition colour_accepted (color : option string) : bool :=
  match color with
  | Some c => String.eqb c "" || in_DEFAULT_TEXT_STYLE c || color_valid c
  | None => true
  end.

(** Every object of a line has such a colour. *)
Fixpoint colours_accepted (t : MCText) : bool :=
  match t with
  | MString _ => true
  | MArray items => forallb colours_accepted items
  | MObject _ color extra =>
      colour_accepted color
      && match extra with
         | Some children => forallb colours_accepted children
         | None => true
         end
  end.

Definition queue_accepted (parts : list (MCText * fill)) : bool :=
  forallb (fun p => colours_accepted p.1) parts.
End WithPixi.

End TooltipFacts.

(** ** The edits of the side panel ([App]) *)

Module AppEdits.
Import Proto.

(** What each change handler passes to [setEditedItem]; [None] when it
    returns before. [itemCountChanged] is given what [parseInt] made of
    the field. *)
Definition minecraftVersionChanged (version : string) (editedItem : option mc.IItem)
  : option mc.IItem :=
  match editedItem with
  | None => Some {| mc.minecraftVersion := version; mc.id := "stone";
                    mc.count := mc.Num 1; mc.components := ∅ |}
  | Some item => Some {| mc.minecraftVersion := version; mc.id := mc.id item;
                         mc.count := mc.count item;
                         mc.components := mc.components item |}
  end.

Definition itemIdChanged (itemId : string) (editedItem : option mc.IItem)
  : option mc.IItem :=
  match editedItem with
  | None => None
  | Some item => Some {| mc.minecraftVersion := mc.minecraftVersion item;
                         mc.id := itemId; mc.count := mc.count item;
                         mc.components := mc.components item |}
  end.

Definition itemCountChanged (itemCount : mc.number) (editedItem : option mc.IItem)
  : option mc.IItem :=
  match editedItem with
  | None => None
  | Some item => Some {| mc.minecraftVersion := mc.minecraftVersion item;
                         mc.id := mc.id item; mc.count := itemCount;
                         mc.components := mc.components item |}
  end.

Definition addingComponentConfirm (component : string) (editedItem : option mc.IItem)
  : option mc.IItem :=
  match editedItem with
  | None => None
  | Some item => Some {| mc.minecraftVersion := mc.minecraftVersion item;
                         mc.id := mc.id item; mc.count := mc.count item;
                         mc.components := <[component := ""]> (mc.components item) |}
  end.

Definition changeComponent (component value : string) (editedItem : option mc.IItem)
  : option mc.IItem :=
  match editedItem with
  | None => None
  | Some item => Some {| mc.minecraftVersion := mc.minecraftVersion item;
                         mc.id := mc.id item; mc.count := mc.count item;
                         mc.components := <[component := value]> (mc.components item) |}
  end.

(** The events of the side panel that have a handler. *)
Inductive edit :=
| VersionChanged (version : string)
| IdChanged (itemId : string)
| CountChanged (itemCount : mc.number)
| ComponentAdded (component : string)
| ComponentChanged (component value : string).

Definition handle (e : edit) (editedItem : option mc.IItem) : option mc.IItem :=
  match e with
  | VersionChanged version => minecraftVersionChanged version editedItem
  | IdChanged itemId => itemIdChanged itemId editedItem
  | CountChanged itemCount => itemCountChanged itemCount editedItem
  | ComponentAdded component => addingComponentConfirm component editedItem
  | ComponentChanged component value => changeComponent component value editedItem
  end.

Section WithConstants.
Context `{App.Constants}.

(** The state after the handler of an edit and the effects its
    [setEditedItem] triggers, with what they post. *)
Definition apply_edit (e : edit) (st : App.state) : App.state * list App.post :=
  match handle e (App.editedItem st) with
  | None => (st, [])
  | Some item =>
      ({| App.minecraftVersions := App.minecraftVersions st;
          App.itemTextures := App.itemTextures st;
          App.resources := App.resources st;
          App.editedItem := Some item;
          App.itemComponents := App.itemComponents st |},
       App.item_effects (App.editedItem st) (Some item))
  end.

Definition apply_edits (es : list edit) (st : App.state) : App.state :=
  fold_left (fun st e => (apply_edit e st).1) es st.

(** The four paths [App] requests for a version. *)
Definition requested_paths : list string :=
  [App.GLINT_TEXTURE_PATH; App.ASCII_FONT_PATH; App.ACCENTED_FONT_PATH;
   App.NONLATIN_EUROPEAN_FONT_PATH].

(** The condition under which [tryLoadFonts] loads the fonts and the
    lore is built. *)
Definition fonts_available (item : Item) (resources : gmap string string) : bool :=
  bool_decide (is_Some (resources !! hashResource (minecraftVersion item) App.ASCII_FONT_PATH))
  && bool_decide (is_Some (resources !! hashResource (minecraftVersion item)
                                          App.ACCENTED_FONT_PATH))
  && bool_decide (is_Some (resources !! hashResource (minecraftVersion item)
                                          App.NONLATIN_EUROPEAN_FONT_PATH))
  && bool_decide (is_Some (resources !! hashResource (minecraftVersion item)
                                          App.FONT_DATA_JSON)).
End WithConstants.

End AppEdits.

(** ** The panel and the host together *)

Module Session.
Import JS Proto Host AppPosts AppEdits.

(** The rendering side, the host, the messages on their way to the
    host, and how many of the messages the host has posted the
    rendering side has handled. *)
Record system := {
  app : App.state;
  ext : host;
  to_host : list json;
  delivered : nat;
}.

Inductive action :=
| HostHandles (world : ∀ q, option (answer q))
| AppHandles
| UserEdits (e : edit).

Section WithEnvironment.
Context `{Node} `{App.Constants}.

(** The panel has mounted: [App] has posted [ready]. *)
Definition mounted (h : host) : system :=
  {| app := App.initial; ext := h;
     to_host := [post_to_json App.PostReady]; delivered := length (posted h) |}.

Definition step (versions : list string) (s : system) (a : action) : system :=
  match a with
  | HostHandles world =>
      match to_host s with
      | [] => s
      | data :: rest =>
          {| app := app s;
             ext := (exec world (onDidReceiveMessage versions data) (ext s)).1;
             to_host := rest;
             delivered := delivered s |}
      end
  | AppHandles =>
      match posted (ext s) !! delivered s with
      | None => s
      | Some m =>
          let r := App.onMessage (ServerMessage_to_json m) (app s) in
          {| app := r.1.1;
             ext := ext s;
             to_host := (to_host s ++ (post_to_json <$> r.2))%list;
             delivered := S (delivered s) |}
      end
  | UserEdits e =>
      let r := apply_edit e (app s) in
      {| app := r.1;
         ext := ext s;
         to_host := (to_host s ++ (post_to_json <$> r.2))%list;
         delivered := delivered s |}
  end.

Definition run (versions : list string) (actions : list action) (s : system) : system :=
  fold_left (step versions) actions s.
End WithEnvironment.

End Session.

(** ** What the messages of a session ask for *)

Module SessionFacts.
Import JS Proto Host AppPosts AppEdits Session.

Section WithEnvironment.
Context `{Node} `{App.Constants}.

(** A request asks for one of the four paths, an answer carries one of
    them, and a key is the key of one of them. *)
Definition asks_requested (p : App.post) : Prop :=
  match p with
  | App.PostGetResource _ resource => resource ∈ requested_paths
  | _ => True
  end.

Definition answers_requested (m : ServerMessage) : Prop :=
  match m with
  | AnyResourceResponse _ resource _ => resource ∈ requested_paths
  | _ => True
  end.

Definition requested_key (key : string) : Prop :=
  ∃ version resource, resource ∈ requested_paths ∧ key = hashResource version resource.

Definition only_requested (s : system) : Prop :=
  Forall (fun data => ∃ p, data = post_to_json p ∧ asks_requested p) (to_host s)
  ∧ Forall answers_requested (posted (ext s))
  ∧ ∀ key, is_Some (App.resources (app s) !! key) → requested_key key.
End WithEnvironment.

End SessionFacts.

(** ** A sample session *)

Module SessionSamples.
Import Host AppEdits Session.

(** An environment where every operation succeeds. *)
Definition everything (q : query) : option (answer q) :=
  match q with
  | GetMinecraftVersions => Some ["1.20"; "1.21"]
  | EnsureUnpackedVersion _ => Some tt
  | GetUnpackedItemResource _ _ => Some "stone.png"
  | GetUnpackedResource _ resource => Some resource
  | ReadFileBase64 _ => Some "iVBORw0KGgo="
  | GetItemComponents _ => Some ["minecraft:lore"]
  end.

(** The panel mounts on a document without an item, the user chooses a
    version, and the host answers the first three messages of the
    edit. *)
Definition choose_version : list action :=
  [HostHandles everything; AppHandles; AppHandles;
   UserEdits (VersionChanged "1.21");
   HostHandles everything; HostHandles everything; HostHandles everything;
   AppHandles; AppHandles; AppHandles].

End SessionSamples.

(** ** The state of the preview ([initItemPreview]) *)

Module PreviewState.
Import Preview.

(** A texture being loaded by [loadTextureResource], for
    [tryLoadEditedTexture] or for [tryLoadGlintTexture], by the data
    it is loaded from. *)
Inductive load :=
| ItemTexture (data : string)
| GlintTexture (data : string).

(** The variables of the closure and the shader's resources that
    [tryLoadEditedTexture] and [tryLoadGlintTexture] use. A sampler is
    [None] for [PIXI.Texture.EMPTY.source], else the data its texture
    was loaded from. [tryLoadFonts] and [tryBuildLore] write none of
    them. The preview reads the version, the id and the components of
    the item and never its count: an item whose count is [NaN] stands
    here with any count. *)
Record preview := {
  _resources : gmap string string;
  _textures : gmap string string;
  _editedItem : option Item;
  hasTexture : Z;
  uItemSampler : option string;
  isEnchanted : Z;
  uGlintSampler : option string;
  loading : list load;
}.

Definition initial : preview :=
  {| _resources := ∅; _textures := ∅; _editedItem := None;
     hasTexture := 0; uItemSampler := None;
     isEnchanted := 0; uGlintSampler := None; loading := [] |}.

Inductive event :=
| OnTextures (textures : gmap string string)
| OnResources (resources : gmap string string)
| OnEditedItem (item : option Item)
| Loaded (k : nat)
| LoadFailed (k : nat).

Section WithEnvironment.
Context `{NBT} `{App.Constants}.

Definition set_item_texture (has : Z) (sampler : option string) (p : preview) : preview :=
  {| _resources := _resources p; _textures := _textures p; _editedItem := _editedItem p;
     hasTexture := has; uItemSampler := sampler;
     isEnchanted := isEnchanted p; uGlintSampler := uGlintSampler p;
     loading := loading p |}.

Definition set_glint (enchanted : Z) (sampler : option string) (p : preview) : preview :=
  {| _resources := _resources p; _textures := _textures p; _editedItem := _editedItem p;
     hasTexture := hasTexture p; uItemSampler := uItemSampler p;
     isEnchanted := enchanted; uGlintSampler := sampler;
     loading := loading p |}.

Definition set_loading (l : list load) (p : preview) : preview :=
  {| _resources := _resources p; _textures := _textures p; _editedItem := _editedItem p;
     hasTexture := hasTexture p; uItemSampler := uItemSampler p;
     isEnchanted := isEnchanted p; uGlintSampler := uGlintSampler p;
     loading := l |}.

(** [tryLoadEditedTexture] up to its [await]. *)
Definition tryLoadEditedTexture (p : preview) : preview :=
  match _editedItem p with
  | None => set_item_texture 0 None p
  | Some item =>
      match _textures p !! hashItemTexture item with
      | None => set_item_texture 0 None p
      | Some data => set_loading (loading p ++ [ItemTexture data]) p
      end
  end.

(** [tryLoadGlintTexture] up to its [await]. *)
Definition tryLoadGlintTexture (p : preview) : preview :=
  match _editedItem p with
  | None => p
  | Some item =>
      match _resources p !! hashResource (minecraftVersion item) App.GLINT_TEXTURE_PATH with
      | None => set_glint 0 None p
      | Some data =>
          if negb (isItemEnchanted item) then set_glint 0 None p
          else set_loading (loading p ++ [GlintTexture data]) p
      end
  end.

(** What follows the [await] once the texture is there. With no item
    left, [isItemEnchanted] throws after the texture was set. *)
Definition resume (l : load) (p : preview) : preview :=
  match l with
  | ItemTexture data =>
      let p' := set_item_texture 1 (Some data) p in
      match _editedItem p' with
      | None => p'
      | Some item => if isItemEnchanted item then tryLoadGlintTexture p' else p'
      end
  | GlintTexture data => set_glint 1 (Some data) p
  end.

Definition step (p : preview) (ev : event) : preview :=
  match ev with
  | OnTextures textures =>
      tryLoadEditedTexture
        {| _resources := _resources p; _textures := textures; _editedItem := _editedItem p;
           hasTexture := hasTexture p; uItemSampler := uItemSampler p;
           isEnchanted := isEnchanted p; uGlintSampler := uGlintSampler p;
           loading := loading p |}
  | OnResources resources =>
      tryLoadGlintTexture
        {| _resources := resources; _textures := _textures p; _editedItem := _editedItem p;
           hasTexture := hasTexture p; uItemSampler := uItemSampler p;
           isEnchanted := isEnchanted p; uGlintSampler := uGlintSampler p;
           loading := loading p |}
  | OnEditedItem item =>
      tryLoadEditedTexture
        {| _resources := _resources p; _textures := _textures p; _editedItem := item;
           hasTexture := hasTexture p; uItemSampler := uItemSampler p;
           isEnchanted := isEnchanted p; uGlintSampler := uGlintSampler p;
           loading := loading p |}
  | Loaded k =>
      match loading p !! k with
      | None => p
      | Some l => resume l (set_loading (delete k (loading p)) p)
      end
  | LoadFailed k =>
      match loading p !! k with
      | None => p
      | Some _ => set_loading (delete k (loading p)) p
      end
  end.

Definition run (evs : list event) (p : preview) : preview := fold_left step evs p.

(** The item in the preview is not an enchanted one. *)
Definition plain (p : preview) : Prop :=
  ∀ item, _editedItem p = Some item → isItemEnchanted item = false.

(** An event that neither hands new resources to the preview nor an
    enchanted item. *)
Definition keeps_plain (ev : event) : Prop :=
  match ev with
  | OnResources _ => False
  | OnEditedItem (Some item) => isItemEnchanted item = false
  | _ => True
  end.
End WithEnvironment.

End PreviewState.

(** ** A preview that shows the glint *)

Module PreviewSamples.
Import PreviewState.
#[local] Existing Instance Sample.nbt.
#[local] Existing Instance Sample.constants.

(** The preview of an enchanted stick once the glint texture is
    there. *)
Definition glinting : preview :=
  run [OnEditedItem (Some Sample.sharp_stick);
       OnResources {[ hashResource "1.21" App.GLINT_TEXTURE_PATH := "R0xJTlQ=" ]};
       Loaded 0] initial.

(** Textures that have one for the stick and none for the egg. *)
Definition stick_texture : gmap string string :=
  {[ hashItemTexture Sample.plain_stick := "U1RJQ0s=" ]}.

Definition egg : Item :=
  {| minecraftVersion := "1.21"; id := "minecraft:egg"; count := 1; components := ∅ |}.

End PreviewSamples.

(** ** The command of the data generator ([util/run-minecraft.ts]) *)

Module RunMinecraft.

(** A rule of a library of the version manifest: its [action], and its
    [os] when it has one, with the [name] of the [os] when that has
    one. *)
Record MCVersionLibraryRule := {
  action : string;
  os : option (option string);
}.

Record MCVersionLibrary := {
  artifact_path : string;
  name : string;
  rules : option (list MCVersionLibraryRule);
}.

Record MCVersionData := { libraries : list MCVersionLibrary }.

Definition classPathSep (platform : string) : string :=
  if String.eqb platform "win32" then ";" else ":".

Definition libPlatform (platform : string) : string :=
  if String.eqb platform "win32" then "windows"
  else if String.eqb platform "darwin" then "osx"
  else "linux".

(** The loop over the rules of a library: [true] when it leaves with
    [continue libraryLoop]. *)
Fixpoint rules_loop (libPlatform : string) (rs : list MCVersionLibraryRule) : bool :=
  match rs with
  | [] => false
  | rule :: rest =>
      if String.eqb (action rule) "allow" then
        match os rule with
        | Some os_name =>
            if negb (bool_decide (os_name = Some libPlatform)) then true
            else rules_loop libPlatform rest
        | None => rules_loop libPlatform rest
        end
      else rules_loop libPlatform rest
  end.

Section WithNode.
Context `{Node}.

(** The loop over the libraries. *)
Fixpoint library_loop (dotMinecraft libPlatform : string) (ls : list MCVersionLibrary)
    (classPath : list string) : list string :=
  match ls with
  | [] => classPath
  | library :: rest =>
      let skipped :=
        match rules library with
        | Some rs => rules_loop libPlatform rs
        | None => false
        end in
      if skipped then library_loop dotMinecraft libPlatform rest classPath
      else
        library_loop dotMinecraft libPlatform rest
          (classPath ++ [path_join [dotMinecraft; "libraries"; artifact_path library]])
  end.

(** [getDatagenRunCommand] on the manifest it has read and parsed. *)
Definition getDatagenRunCommand (platform dotMinecraft version : string)
    (flags : list string) (versionData : MCVersionData) : list string :=
  let versionJarPath :=
    path_join [dotMinecraft; "versions"; version; version +:+ ".jar"] in
  let classPath :=
    (library_loop dotMinecraft (libPlatform platform) (libraries versionData) []
     ++ [versionJarPath])%list in
  ("java" :: "-cp" :: String.concat (classPathSep platform) classPath
   :: "net.minecraft.data.Main" :: flags).
End WithNode.

(** A rule that keeps a library off the class path: an [allow] rule
    with an [os] that is not the platform's. *)
Definition excludes (libPlatform : string) (rule : MCVersionLibraryRule) : bool :=
  String.eqb (action rule) "allow"
  && match os rule with
     | Some os_name => negb (bool_decide (os_name = Some libPlatform))
     | None => false
     end.

Definition on_class_path (libPlatform : string) (library : MCVersionLibrary) : bool :=
  match rules library with
  | Some rs => negb (existsb (excludes libPlatform) rs)
  | None => true
  end.

(** A library without the rules whose action is not [allow]. *)
Definition allow_rules_only (library : MCVersionLibrary) : MCVersionLibrary :=
  {| artifact_path := artifact_path library;
     name := name library;
     rules := List.filter (fun rule => String.eqb (action rule) "allow") <$> rules library |}.

End RunMinecraft.

(** ** The language server ([languageServer.ts]) *)

Module LanguageServer.

(** A release as [listReleases] gives it, [created_at] as the time
    [new Date(created_at).getTime()]. *)
Record release := {
  tag_name : string;
  release_id : Z;
  prerelease : bool;
  created_at : Z;
}.

(** [sort] with the comparator [(a, b) => time(b) - time(a)]: the
    sort of an array is stable, so the releases come newest first and
    those of one time in the order they had. *)
Fixpoint insert (r : release) (l : list release) : list release :=
  match l with
  | [] => [r]
  | x :: rest => if created_at r <? created_at x then x :: insert r rest else r :: l
  end.

Definition sort (l : list release) : list release := foldr insert [] l.

(** [getLatestLanguageServer]: the tag and the id, or [null]. The
    lines written to the output channel are left out. *)
Definition getLatestLanguageServer (releases : list release) : option (string * Z) :=
  match head (sort (List.filter prerelease releases)) with
  | Some latest => Some (tag_name latest, release_id latest)
  | None => None
  end.

(** The tags whose install location is on the disk, and the
    [currentTag] of [language-servers.json] when the file can be read. *)
Record install := {
  installed : gset string;
  currentTag : option string;
}.

Inductive outcome :=
| Connects (serverModule : string)
| Disabled
| Rejects.

Section WithNode.
Context `{Node}.

Variable basaltAppDataLocatiion : string.

Definition getLanguageServerInstallLocation (tagName : string) : string :=
  path_join [basaltAppDataLocatiion; "lsp"; tagName].

(** [ensureLanguageServerInstalled] when the downloads succeed:
    [asset] tells whether the release has the zip. *)
Definition ensureLanguageServerInstalled (asset : bool) (tagName : string) (st : install)
  : install :=
  if asset then {| installed := {[ tagName ]} ∪ installed st; currentTag := currentTag st |}
  else st.

(** Truthiness of a tag that may be missing. *)
Definition truthy (tagName : option string) : bool :=
  match tagName with
  | Some t => negb (String.eqb t "")
  | None => false
  end.

(** The end of [loadLanguageServer], from [serverTagName] as the
    upgrade left it. *)
Definition connect (installedInfo serverTagName : option string) (st : install)
  : install * outcome :=
  let serverTagName :=
    if negb (truthy serverTagName) && bool_decide (is_Some installedInfo)
    then installedInfo else serverTagName in
  match serverTagName with
  | Some tagName =>
      if negb (truthy serverTagName) || negb (bool_decide (tagName ∈ installed st))
      then (st, Disabled)
      else (st, Connects (path_join [getLanguageServerInstallLocation tagName; "index.js"]))
  | None => (st, Disabled)
  end.

(** [loadLanguageServer] from what [getLatestLanguageServer] gave.
    [fs.promises.rm] rejects for a location that is not there. The
    locations of different tags are taken to be apart. *)
Definition loadLanguageServer (latest : option (string * Z)) (asset : bool) (st : install)
  : install * outcome :=
  let installedInfo := currentTag st in
  match latest with
  | Some (tagName, _) =>
      if bool_decide (installedInfo ≠ Some tagName) then
        let st1 := ensureLanguageServerInstalled asset tagName st in
        match installedInfo with
        | Some old =>
            if bool_decide (old ∈ installed st1) then
              connect installedInfo (Some tagName)
                {| installed := installed st1 ∖ {[ old ]}; currentTag := Some tagName |}
            else (st1, Rejects)
        | None =>
            connect installedInfo (Some tagName)
              {| installed := installed st1; currentTag := Some tagName |}
        end
      else connect installedInfo None st
  | None => connect installedInfo None st
  end.
End WithNode.

End LanguageServer.

(** * Properties *)

(** ** Objects: lookup and enumeration order *)

Section ObjectFacts.
Import JS.
Context {V : Type}.
Implicit Types (o ms : list (string * V)) (k : string) (v : V).

Lemma get_property_None k o : get_property k o = None ↔ k ∉ o.*1.
Proof.
  induction o as [|[k' v'] o IH]; simpl.
  - split; [intros _; apply not_elem_of_nil | done].
  - destruct (String.eqb_spec k k') as [->|Hne].
    + split; [done | intros Hn; exfalso; apply Hn; left].
    + rewrite IH, not_elem_of_cons.
      split; [intros ?; split; done | intros [_ ?]; done].
Qed.

Lemma has_property_false k o : has_property k o = false ↔ k ∉ o.*1.
Proof.
  unfold has_property. rewrite <- get_property_None.
  destruct (get_property k o); naive_solver.
Qed.

Lemma get_property_app k o o' :
  get_property k (o ++ o') =
  match get_property k o with Some v => Some v | None => get_property k o' end.
Proof.
  induction o as [|[k' v'] o IH]; simpl; [done|].
  destruct (String.eqb k k'); done.
Qed.

Lemma get_replace_value k k' v o :
  get_property k (replace_value k' v o) =
  if String.eqb k k' then (if has_property k' o then Some v else None)
  else get_property k o.
Proof.
  unfold has_property.
  induction o as [|[k0 v0] o IH]; simpl.
  - destruct (String.eqb k k'); done.
  - destruct (String.eqb_spec k' k0) as [->|Hne]; simpl.
    + destruct (String.eqb_spec k k0) as [->|Hne']; done.
    + rewrite IH. destruct (String.eqb_spec k k') as [->|Hne'].
      * destruct (String.eqb_spec k' k0); [done|]. done.
      * done.
Qed.

Lemma get_insert_index k i k' v o :
  k' ∉ o.*1 →
  get_property k (insert_index i k' v o) =
  if String.eqb k k' then Some v else get_property k o.
Proof.
  induction o as [|[k0 v0] o IH]; simpl; intros Hnot.
  - destruct (String.eqb k k'); done.
  - apply not_elem_of_cons in Hnot as [Hne Hnot].
    destruct (array_index k0) as [j|]; [destruct (j <? i)%N|]; simpl;
      try (destruct (String.eqb k k'); done).
    rewrite IH by done.
    destruct (String.eqb_spec k k0) as [->|]; [|done].
    destruct (String.eqb_spec k0 k'); congruence.
Qed.

(** The last write to a key decides what the key holds. *)
Lemma get_define_property k o k' v :
  get_property k (define_property o (k', v)) =
  if String.eqb k k' then Some v else get_property k o.
Proof.
  unfold define_property.
  destruct (has_property k' o) eqn:Hhas.
  - rewrite get_replace_value, Hhas. done.
  - apply has_property_false in Hhas.
    destruct (array_index k').
    + by apply get_insert_index.
    + rewrite get_property_app. simpl.
      destruct (String.eqb_spec k k') as [->|].
      * by apply get_property_None in Hhas as ->.
      * by destruct (get_property k o).
Qed.

Lemma get_fold_define k ms o :
  get_property k (fold_left define_property ms o) =
  match get_property k (rev ms) with
  | Some v => Some v
  | None => get_property k o
  end.
Proof.
  revert o. induction ms as [|[k' v'] ms IH]; intros o; [done|].
  cbn [fold_left rev].
  rewrite IH, get_property_app, get_define_property. cbn [get_property].
  destruct (get_property k (rev ms)); [done|].
  destruct (String.eqb k k'); done.
Qed.

(** In the object built from the members of a literal, a key holds
    the value of its last declaration. *)
Lemma get_object_of_members k ms :
  get_property k (object_of_members ms) = get_property k (rev ms).
Proof.
  unfold object_of_members. rewrite get_fold_define. simpl.
  by destruct (get_property k (rev ms)).
Qed.

Lemma insert_index_perm i k v o : insert_index i k v o ≡ₚ (k, v) :: o.
Proof.
  induction o as [|[k0 v0] o IH]; simpl; [done|].
  destruct (array_index k0) as [j|]; [destruct (j <? i)%N|]; try done.
  rewrite IH. apply Permutation_swap.
Qed.

Lemma define_property_perm o k v :
  k ∉ o.*1 → define_property o (k, v) ≡ₚ o ++ [(k, v)].
Proof.
  intros Hnot. unfold define_property.
  apply has_property_false in Hnot as ->.
  destruct (array_index k); [|done].
  rewrite insert_index_perm. apply Permutation_cons_append.
Qed.

Lemma fold_define_perm ms o :
  NoDup ((o ++ ms).*1) → fold_left define_property ms o ≡ₚ o ++ ms.
Proof.
  revert o. induction ms as [|[k v] ms IH]; intros o Hnd; cbn [fold_left].
  - by rewrite app_nil_r.
  - assert (Hk : k ∉ o.*1).
    { rewrite fmap_app in Hnd. apply NoDup_app in Hnd as (_ & Hd & _).
      intros Hin. apply (Hd k Hin). simpl. left. }
    assert (Hp : define_property o (k, v) ≡ₚ o ++ [(k, v)])
      by by apply define_property_perm.
    rewrite IH.
    + rewrite Hp, <- app_assoc. done.
    + rewrite fmap_app, Hp, <- fmap_app, <- app_assoc. done.
Qed.

(** An object literal without repeated keys has exactly its members
    as properties. *)
Lemma object_of_members_perm ms :
  NoDup (ms.*1) → object_of_members ms ≡ₚ ms.
Proof. intros Hnd. unfold object_of_members. by rewrite fold_define_perm. Qed.

Lemma fold_define_plain ms o :
  NoDup ((o ++ ms).*1) →
  Forall (fun kv => array_index kv.1 = None) ms →
  fold_left define_property ms o = o ++ ms.
Proof.
  revert o. induction ms as [|[k v] ms IH]; intros o Hnd Hplain.
  - simpl. by rewrite app_nil_r.
  - apply Forall_cons in Hplain as [Hk Hplain]. simpl in Hk.
    assert (Hnot : k ∉ o.*1).
    { rewrite fmap_app in Hnd. apply NoDup_app in Hnd as (_ & Hd & _).
      intros Hin. apply (Hd k Hin). simpl. left. }
    assert (Hdef : define_property o (k, v) = o ++ [(k, v)]).
    { unfold define_property.
      apply has_property_false in Hnot as ->. by rewrite Hk. }
    cbn [fold_left]. rewrite Hdef.
    rewrite IH; [by rewrite <- app_assoc | by rewrite <- app_assoc | done].
Qed.

(** Without repeated keys and without array-index keys, enumeration
    order is declaration order. *)
Lemma object_of_members_plain ms :
  NoDup (ms.*1) →
  Forall (fun kv => array_index kv.1 = None) ms →
  object_of_members ms = ms.
Proof. intros. unfold object_of_members. by rewrite fold_define_plain. Qed.
End ObjectFacts.

(** ** The protocol: what is written can be read back *)

Section ProtoFacts.
Import JS Proto.

Lemma record_entries_strings (l : list (string * string)) (acc : gmap string string) :
  record_entries (map (fun kv => (kv.1, JStr kv.2)) l) acc =
  Some (fold_left (fun m kv => <[kv.1 := kv.2]> m) l acc).
Proof.
  revert acc. induction l as [|[k v] l IH]; intros acc; simpl; [done|].
  apply IH.
Qed.

Lemma fold_insert_list_to_map (l : list (string * string)) (acc : gmap string string) :
  NoDup (l.*1) → (∀ k, k ∈ l.*1 → acc !! k = None) →
  fold_left (fun m kv => <[kv.1 := kv.2]> m) l acc = list_to_map l ∪ acc.
Proof.
  revert acc. induction l as [|[k v] l IH]; intros acc Hnd Hfresh; simpl.
  - by rewrite (left_id_L ∅ (∪)).
  - apply NoDup_cons in Hnd as [Hk Hnd].
    rewrite IH; [|done|].
    + rewrite <- insert_union_r by by apply not_elem_of_list_to_map_1.
      by rewrite insert_union_l.
    + intros k' Hk'. rewrite lookup_insert_ne.
      * apply Hfresh. simpl. by right.
      * intros ->. done.
Qed.

Lemma z_record_components (cs : gmap string string) :
  z_record (Some (components_to_json cs)) = Some cs.
Proof.
  unfold z_record, components_to_json.
  set (f := fun kv : string * string => (kv.1, JStr kv.2)).
  assert (Hkeys : ∀ l, (map f l).*1 = l.*1).
  { intros l. induction l as [|[??] l IH]; simpl; [done | by f_equal]. }
  assert (Hperm : object_of_members (map f (map_to_list cs)) ≡ₚ map f (map_to_list cs)).
  { apply object_of_members_perm. rewrite Hkeys. apply NoDup_fst_map_to_list. }
  apply Permutation_map_inv in Hperm as (l & Heq & Hl).
  rewrite Heq. unfold f. rewrite record_entries_strings.
  assert (Hnd : NoDup (l.*1)).
  { rewrite <- Hl. apply NoDup_fst_map_to_list. }
  rewrite fold_insert_list_to_map; [|done|intros; apply lookup_empty].
  rewrite (right_id_L ∅ (∪)).
  f_equal. transitivity (list_to_map (map_to_list cs) : gmap string string).
  - by apply list_to_map_proper.
  - apply list_to_map_to_list.
Qed.

Lemma Item_schema_to_json (item : Item) :
  Item_schema (Some (Item_to_json item)) = Some item.
Proof.
  destruct item as [v i c cs].
  unfold Item_schema, Item_to_json, z_object. cbn [minecraftVersion id count components].
  change (object_of_members _) with
    [("minecraftVersion", JStr v); ("id", JStr i); ("count", JNum c);
     ("components", components_to_json cs)].
  cbn [get_property String.eqb Ascii.eqb Bool.eqb z_string z_number mbind option_bind].
  by rewrite z_record_components.
Qed.
End ProtoFacts.

Section ProtoTheorems.
Import JS Proto.
Context `{Node}.

Lemma z_array_strings (l : list string) : z_array_string (map JStr l) = Some l.
Proof. induction l as [|s l IH]; simpl; [done | by rewrite IH]. Qed.

(** Whatever the host posts validates on the rendering side, as the
  message that was posted. *)
Lemma ServerMessages_safeParse_posted (m : ServerMessage) :
  ServerMessages_safeParse (ServerMessage_to_json m) = Some m.
Proof.
  destruct m as [item texture|item|versions|version resource texture|components];
    unfold ServerMessages_safeParse, ServerMessage_to_json,
      ItemTextureResponseMessage, UpdateItemMessage, UpdateMinecraftVersionsMessage,
      AnyResourceResponseMessage, UpdateItemComponentsMessage, z_object.
  - change (object_of_members _) with
      [("type", JStr "item-texture"); ("item", Item_to_json item);
       ("texture", JStr texture)].
    cbn [get_property String.eqb Ascii.eqb Bool.eqb z_literal z_string mbind option_bind].
    by rewrite Item_schema_to_json.
  - change (object_of_members _) with
      [("type", JStr "update-item"); ("item", document_to_json item)].
    cbn [get_property String.eqb Ascii.eqb Bool.eqb z_literal z_string mbind option_bind
           fmap option_fmap option_map z_or].
    destruct item as [item|]; cbn [document_to_json z_nullable]; [|done].
    unfold z_nullable.
    assert (Hi := Item_schema_to_json item).
    destruct (Item_to_json item) eqn:Hj; try discriminate Hj.
    by rewrite Hi.
  - change (object_of_members _) with
      [("type", JStr "update-versions"); ("versions", JArr (map JStr versions))].
    cbn [get_property String.eqb Ascii.eqb Bool.eqb z_literal z_string mbind option_bind
           fmap option_fmap option_map z_or z_array].
    by rewrite z_array_strings.
  - change (object_of_members _) with
      [("type", JStr "resource"); ("version", JStr version);
       ("resource", JStr resource); ("texture", JStr texture)].
    done.
  - change (object_of_members _) with
      [("type", JStr "update-item-components");
       ("components", JArr (map JStr components))].
    cbn [get_property String.eqb Ascii.eqb Bool.eqb z_literal z_string mbind option_bind
           fmap option_fmap option_map z_or z_array].
    by rewrite z_array_strings.
Qed.

(** C9. An item written by [saveCustomDocumentAs] and read back by
    [ItemEditorDocument.init] is the item that was written, field by
    field; an empty [components] mapping is written as the empty
    object and read back as the empty mapping, which [null] and a
    missing key are not. *)
Theorem item_json_roundtrip (item : Item) :
  Item_parse (Item_to_json item) = Some item
  ∧ (∀ h destination disk h0,
       Host.document_item h = Some item →
       ∃ saved,
         Host.saveCustomDocumentAs h destination disk !! destination = Some saved
         ∧ readable saved = true
         ∧ Host.document_item (Host.document_init (content saved) h0) = Some item)
  ∧ (∀ v i c,
       Item_to_json {| minecraftVersion := v; id := i; count := c; components := ∅ |} =
       JObj [("minecraftVersion", JStr v); ("id", JStr i); ("count", JNum c);
             ("components", JObj [])]
       ∧ z_record (Some (JObj [])) = Some ∅
       ∧ z_record (Some JNull) = None
       ∧ z_record None = None).
Proof.
  split; [apply Item_schema_to_json|]. split.
  - intros h destination disk h0 Hitem.
    exists (own (JsonText (Item_to_json item))). split; [|split; [done|]].
    + unfold Host.saveCustomDocumentAs. rewrite Hitem. apply lookup_insert_eq.
    + unfold Host.document_init, Item_parse. cbn [content own].
      by rewrite Item_schema_to_json.
  - intros v i c. repeat split.
Qed.
End ProtoTheorems.

(** ** Messages that fail validation *)

Section Dropped.
Import JS Proto.
Context `{Node} `{App.Constants}.

Lemma host_handler_invalid (versions : list string) (data : json) :
  ClientMessages_safeParse data = None →
  Host.onDidReceiveMessage versions data =
  Host.ConsoleLog "CLIENT MESSAGE" data Host.Return.
Proof. intros Hinvalid. unfold Host.onDidReceiveMessage. by rewrite Hinvalid. Qed.

Lemma app_handler_invalid (data : json) (st : App.state) :
  ServerMessages_safeParse data = None →
  App.onMessage data st = (st, [("SERVER MESSAGE", data)], []).
Proof. intros Hinvalid. unfold App.onMessage. by rewrite Hinvalid. Qed.

(** C7. On either side a message that fails validation is dropped.
  The host's handler logs it and returns: it awaits nothing, posts
  nothing, and leaves the document, its hash and the change events
  as they were. The listener of the rendering side logs it and
  leaves the state as it was, so that no effect posts anything.
  Hence a handler that posted a message or changed the state was
  given a message that validates. *)
Theorem invalid_message_dropped (data : json) :
  (ClientMessages_safeParse data = None →
     ∀ versions world h,
       Host.exec world (Host.onDidReceiveMessage versions data) h =
       ({| Host.document_item := Host.document_item h;
           Host.document_hash := Host.document_hash h;
           Host.posted := Host.posted h;
           Host.console := Host.console h ++ [("CLIENT MESSAGE", data)];
           Host.changes_fired := Host.changes_fired h |}, true))
  ∧ (ServerMessages_safeParse data = None →
     ∀ st, App.onMessage data st = (st, [("SERVER MESSAGE", data)], []))
  ∧ (∀ versions world h,
       (let h' := (Host.exec world (Host.onDidReceiveMessage versions data) h).1 in
        Host.posted h' ≠ Host.posted h
        ∨ Host.document_item h' ≠ Host.document_item h
        ∨ Host.changes_fired h' ≠ Host.changes_fired h) →
       is_Some (ClientMessages_safeParse data))
  ∧ (∀ st,
       (let r := App.onMessage data st in r.1.1 ≠ st ∨ r.2 ≠ []) →
       is_Some (ServerMessages_safeParse data)).
Proof.
  split; [|split; [|split]].
  - intros Hinvalid versions world h. by rewrite host_handler_invalid.
  - intros Hinvalid st. by apply app_handler_invalid.
  - intros versions world h Hacted.
    destruct (ClientMessages_safeParse data) eqn:Hparse; [by eexists|].
    rewrite host_handler_invalid in Hacted by done. simpl in Hacted.
    by destruct Hacted as [?|[?|?]].
  - intros st Hacted.
    destruct (ServerMessages_safeParse data) eqn:Hparse; [by eexists|].
    rewrite app_handler_invalid in Hacted by done. simpl in Hacted.
    by destruct Hacted.
Qed.
End Dropped.

(** A message of a shape that is not declared, and a message of a
    shape declared for the other direction only. *)
Lemma invalid_message_dropped_witness :
  Host.posted
    (Host.exec (H := Sample.node) (fun _ => None)
       (Host.onDidReceiveMessage ["1.21"]
          (JS.JObj [("type", JS.JStr "update-versions"); ("versions", JS.JArr [])]))
       {| Host.document_item := None; Host.document_hash := None;
          Host.posted := []; Host.console := []; Host.changes_fired := 0 |}).1 = []
  ∧ (App.onMessage (H := Sample.constants)
       (JS.JObj [("type", JS.JStr "ready")]) App.initial).1.1 = App.initial.
Proof.
  pose proof (invalid_message_dropped (H := Sample.node) (H0 := Sample.constants)
    (JS.JObj [("type", JS.JStr "update-versions"); ("versions", JS.JArr [])]))
    as (Hhost & _).
  pose proof (invalid_message_dropped (H := Sample.node) (H0 := Sample.constants)
    (JS.JObj [("type", JS.JStr "ready")]))
    as (_ & Happ & _).
  split.
  - rewrite Hhost; reflexivity.
  - rewrite Happ; reflexivity.
Defined.

(** ** Resource keys *)

Section Keys.
Import JS Proto.
Context `{Node} `{App.Constants}.

End Keys.


(** ** Enchantment detection *)

Section Enchanted.
Import JS Preview.
Context `{NBT}.

(** C6. An item is enchanted exactly when either its components hold
    the glint override and the override parses to the byte [1], or
    they hold no override and the enchantments component parses to a
    compound whose list is not empty. With an override present the
    result depends on nothing else. A component that fails to parse
    gives [false]; the function is total. *)
Theorem isItemEnchanted_spec (item : Item) :
  (isItemEnchanted item = true ↔
     (∃ override parsed,
        components item !! GLINT_OVERRIDE = Some override
        ∧ parsed_component override = Some parsed
        ∧ ByteTag_getValue parsed = Some 1)
     ∨ (components item !! GLINT_OVERRIDE = None
        ∧ ∃ enchantments parsed n,
            components item !! ENCHANTMENTS = Some enchantments
            ∧ parsed_component enchantments = Some parsed
            ∧ CompoundTag_list_length parsed = Some n
            ∧ (0 < n)%nat))
  ∧ (∀ item' override,
       components item !! GLINT_OVERRIDE = Some override →
       components item' !! GLINT_OVERRIDE = Some override →
       isItemEnchanted item' = isItemEnchanted item)
  ∧ (∀ override,
       components item !! GLINT_OVERRIDE = Some override →
       parsed_component override = None →
       isItemEnchanted item = false)
  ∧ (∀ enchantments,
       components item !! GLINT_OVERRIDE = None →
       components item !! ENCHANTMENTS = Some enchantments →
       parsed_component enchantments = None →
       isItemEnchanted item = false)
  ∧ (components item !! GLINT_OVERRIDE = None →
     components item !! ENCHANTMENTS = None →
     isItemEnchanted item = false).
Proof.
  unfold isItemEnchanted, parsed_component.
  split; [|split; [|split; [|split]]].
  - split.
    + destruct (components item !! GLINT_OVERRIDE) as [override|] eqn:Hov.
      * destruct (tryParseSNBT (remove_char newline override)) as [parsed|] eqn:Hp;
          [|discriminate].
        destruct (ByteTag_getValue parsed) as [v|] eqn:Hv; [|discriminate].
        intros Heq%Z.eqb_eq. subst v. left. by exists override, parsed.
      * destruct (components item !! ENCHANTMENTS) as [ench|] eqn:Hen; [|discriminate].
        destruct (tryParseSNBT (remove_char newline ench)) as [parsed|] eqn:Hp;
          [|discriminate].
        destruct (CompoundTag_list_length parsed) as [n|] eqn:Hn; [|discriminate].
        intros Hlt%Nat.ltb_lt. right. split; [done|]. by exists ench, parsed, n.
    + intros [(o & p & Ho & Hp & Hv)|(Hno & e & p & n & He & Hp & Hn & Hlt)].
      * rewrite Ho, Hp, Hv. reflexivity.
      * rewrite Hno, He, Hp, Hn. by apply Nat.ltb_lt.
  - intros item' override -> ->. done.
  - intros override -> ->. done.
  - intros enchantments -> -> ->. done.
  - intros -> ->. done.
Qed.
End Enchanted.

(** A stick whose only component is a non-empty list of enchantments
    is enchanted; with an override that parses to the byte [0] it is
    not. *)
Lemma isItemEnchanted_spec_witness :
  Preview.isItemEnchanted (H := Sample.nbt) Sample.sharp_stick = true
  ∧ Preview.isItemEnchanted (H := Sample.nbt) Sample.plain_stick =
    Preview.isItemEnchanted (H := Sample.nbt)
      {| minecraftVersion := "1.21"; id := "minecraft:stone"; count := 64;
         components := {[ Preview.GLINT_OVERRIDE := "0b" ]} |}.
Proof.
  split.
  - apply (isItemEnchanted_spec (H := Sample.nbt) Sample.sharp_stick).
    right. split; [reflexivity|].
    exists "{sharpness:1}", (Sample.Compound 1), 1%nat.
    repeat split; [reflexivity.. | lia].
  - pose proof (isItemEnchanted_spec (H := Sample.nbt)
                  {| minecraftVersion := "1.21"; id := "minecraft:stone"; count := 64;
                     components := {[ Preview.GLINT_OVERRIDE := "0b" ]} |})
      as (_ & Hoverride & _).
    apply (Hoverride Sample.plain_stick "0b"); reflexivity.
Defined.

(** An override that parses to the byte [0] hides a non-empty list of
    enchantments; without the override the list decides. *)
Example isItemEnchanted_override_false :
  Preview.isItemEnchanted (H := Sample.nbt) Sample.plain_stick = false
  ∧ Preview.isItemEnchanted (H := Sample.nbt) Sample.sharp_stick = true
  ∧ Preview.isItemEnchanted (H := Sample.nbt)
      {| minecraftVersion := "1.21"; id := "minecraft:stick"; count := 1;
         components := {[ Preview.ENCHANTMENTS := "{sharpness:" ]} |}
    = false.
Proof. repeat split; vm_compute; reflexivity. Qed.

(** ** Item sprites *)

Section Sprites.
Import JS Resolver.
Context `{Node}.


Lemma select_texture_side (members textures : list (string * json)) (reference : string) :
  get_property "textures" (object_of_members members) = Some (JObj textures) →
  get_property "side" (object_of_members textures) = Some (JStr reference) →
  select_texture (JObj members) = inr reference.
Proof.
  intros Htex Hside. unfold select_texture, has_property. by rewrite Htex, Hside.
Qed.

Lemma select_texture_first (members textures rest : list (string * json))
    (slot reference : string) :
  get_property "textures" (object_of_members members) = Some (JObj textures) →
  "side" ∉ textures.*1 →
  object_of_members textures = (slot, JStr reference) :: rest →
  select_texture (JObj members) = inr reference.
Proof.
  intros Htex Hnoside Hfirst. unfold select_texture. rewrite Htex.
  assert (Hhas : has_property "side" (object_of_members textures) = false).
  { unfold has_property. rewrite get_object_of_members.
    assert (Hnone : get_property "side" (rev textures) = None).
    { apply get_property_None.
      rewrite rev_alt. change (rev_append textures []) with (reverse textures).
      by rewrite fmap_reverse, elem_of_reverse. }
    by rewrite Hnone. }
  rewrite Hhas, Hfirst. done.
Qed.

Lemma resolve_from_model (disk : gmap string entry) (version id : string)
    (members : list (string * json)) (reference : string) :
  let name := substring_from (indexOf ":" id + 1) id in
  exists_ disk (item_texture_path version name) = false →
  readFile disk (block_model_path version name) = inr (JsonText (JObj members)) →
  select_texture (JObj members) = inr reference →
  getUnpackedItemResource disk version id =
  inr (block_texture_path version (stripMinecraftNamespace reference)).
Proof.
  intros name Habsent Hmodel Hsel. unfold getUnpackedItemResource.
  fold name. rewrite Habsent, Hmodel.
  cbn [JSON_parse]. by rewrite Hsel.
Qed.

(** C3, as the code has it. The namespace of the item id is stripped
    and the item texture is the answer whenever the process may read
    and write it, which is what [exists] tests. When it may not, the
    file being absent or lacking one of the two permissions, the
    texture reference is taken from the block model: [textures.side]
    when the model has that slot, and otherwise the first value in the
    enumeration order of the [textures] object, which is the first
    declared value when no slot is declared twice and no slot name is
    an array index. The answer is the block texture named by the
    reference cut after its first slash. For a model whose [side] slot
    is ["block/foo"] this is the [foo] block texture, whatever other
    slots there are. *)
Theorem item_resource_resolution (disk : gmap string entry) (version id : string) :
  let name := substring_from (indexOf ":" id + 1) id in
  let sprite := item_texture_path version name in
  (exists_ disk sprite = true ↔
   ∃ e, disk !! sprite = Some e ∧ readable e = true ∧ writable e = true)
  ∧ (exists_ disk sprite = true → getUnpackedItemResource disk version id = inr sprite)
  ∧ (∀ members textures,
       exists_ disk sprite = false →
       readFile disk (block_model_path version name) = inr (JsonText (JObj members)) →
       get_property "textures" (object_of_members members) = Some (JObj textures) →
       (∀ reference,
          get_property "side" (object_of_members textures) = Some (JStr reference) →
          getUnpackedItemResource disk version id =
          inr (block_texture_path version (stripMinecraftNamespace reference)))
       ∧ (∀ slot reference rest,
            "side" ∉ textures.*1 →
            object_of_members textures = (slot, JStr reference) :: rest →
            getUnpackedItemResource disk version id =
            inr (block_texture_path version (stripMinecraftNamespace reference)))
       ∧ (∀ slot reference rest,
            "side" ∉ textures.*1 →
            textures = (slot, JStr reference) :: rest →
            NoDup (textures.*1) →
            Forall (fun kv => array_index kv.1 = None) textures →
            getUnpackedItemResource disk version id =
            inr (block_texture_path version (stripMinecraftNamespace reference)))
       ∧ (get_property "side" (object_of_members textures) = Some (JStr "block/foo") →
          getUnpackedItemResource disk version id = inr (block_texture_path version "foo"))).
Proof.
  intros name sprite. split; [|split].
  - unfold exists_. destruct (disk !! sprite) as [e|].
    + rewrite andb_true_iff. split.
      * intros [Hr Hw]. by exists e.
      * by intros (e' & [= <-] & Hr & Hw).
    + split; [done | by intros (e & ? & _)].
  - intros Hexists. unfold getUnpackedItemResource. fold name. fold sprite.
    by rewrite Hexists.
  - intros members textures Habsent Hmodel Htex.
    split; [|split; [|split]].
    + intros reference Hside.
      eapply resolve_from_model; [done..|]. by eapply select_texture_side.
    + intros slot reference rest Hnoside Hfirst.
      eapply resolve_from_model; [done..|]. by eapply select_texture_first.
    + intros slot reference rest Hnoside Hdecl Hnd Hplain.
      eapply resolve_from_model; [done..|].
      eapply select_texture_first; [done..|].
      rewrite object_of_members_plain by done. done.
    + intros Hside.
      change "foo" with (stripMinecraftNamespace "block/foo").
      eapply resolve_from_model; [done..|]. by eapply select_texture_side.
Qed.

End Sprites.

Section SpriteExamples.
Existing Instance Sample.node.

(** The block model declares [particle] first, yet the slot named [0]
    is enumerated first and its texture is the answer. A reference
    without a slash keeps its namespace. An item texture that is on
    the disk but may not be written is passed over for the model. *)
Lemma first_declared_texture_not_chosen :
  exists_ Sample.lamp_disk (Resolver.item_texture_path "1.21" "lamp") = false
  ∧ Resolver.readFile Sample.lamp_disk (Resolver.block_model_path "1.21" "lamp") =
    inr (JsonText (JS.JObj [("textures",
           JS.JObj [("particle", JS.JStr "block/a"); ("0", JS.JStr "block/b")])]))
  ∧ Resolver.getUnpackedItemResource Sample.lamp_disk "1.21" "minecraft:lamp" =
    inr (Resolver.block_texture_path "1.21" "b")
  ∧ Resolver.getUnpackedItemResource Sample.lamp_disk "1.21" "minecraft:lamp" ≠
    inr (Resolver.block_texture_path "1.21" (Resolver.stripMinecraftNamespace "block/a"))
  ∧ Resolver.getUnpackedItemResource
      {[ Resolver.block_model_path "1.21" "lamp" :=
           own (JsonText (JS.JObj [("textures",
                  JS.JObj [("side", JS.JStr "minecraft:foo")])])) ]}
      "1.21" "minecraft:lamp"
    = inr "~/.minecraft/.basalt/unpacked/1.21/textures/block/minecraft:foo.png"
  ∧ Resolver.getUnpackedItemResource
      (<[Resolver.item_texture_path "1.21" "lamp" :=
           {| content := OtherContent; readable := true; writable := false |}]>
         Sample.lamp_disk)
      "1.21" "minecraft:lamp"
    = inr (Resolver.block_texture_path "1.21" "b").
Proof. repeat split; vm_compute; congruence. Qed.

(** The lamp resolves to the texture of the slot enumerated first, the
    log to the texture of its [side] slot. *)
Lemma item_resource_resolution_witness :
  Resolver.getUnpackedItemResource Sample.lamp_disk "1.21" "minecraft:lamp" =
    inr (Resolver.block_texture_path "1.21" "b")
  ∧ Resolver.getUnpackedItemResource Sample.log_disk "1.21" "log" =
    inr (Resolver.block_texture_path "1.21" "log").
Proof.
  split.
  - pose proof (item_resource_resolution Sample.lamp_disk "1.21" "minecraft:lamp")
      as (_ & _ & Hmodel).
    destruct (Hmodel
                [("textures", JS.JObj [("particle", JS.JStr "block/a");
                                       ("0", JS.JStr "block/b")])]
                [("particle", JS.JStr "block/a"); ("0", JS.JStr "block/b")]
                eq_refl eq_refl eq_refl) as (_ & Hfirst & _).
    apply (Hfirst "0" "block/b" [("particle", JS.JStr "block/a")]); [|reflexivity].
    cbn [fmap list_fmap fst]. rewrite !elem_of_cons, elem_of_nil.
    intros [?|[?|[]]]; discriminate.
  - pose proof (item_resource_resolution Sample.log_disk "1.21" "log")
      as (_ & _ & Hmodel).
    destruct (Hmodel
                [("parent", JS.JStr "block/cube_column");
                 ("textures", JS.JObj Sample.log_textures)]
                Sample.log_textures eq_refl eq_refl eq_refl) as (Hside & _).
    apply (Hside "minecraft:block/log"). reflexivity.
Defined.



(** A texture on the disk wins over the model; a [side] slot wins over
    the other slots. *)
Example item_resource_resolution_examples :
  Resolver.getUnpackedItemResource
    (<[Resolver.item_texture_path "1.21" "lamp" := own OtherContent]> Sample.lamp_disk)
    "1.21" "minecraft:lamp"
  = inr "~/.minecraft/.basalt/unpacked/1.21/textures/item/lamp.png"
  ∧ Resolver.getUnpackedItemResource Sample.log_disk "1.21" "log"
    = inr "~/.minecraft/.basalt/unpacked/1.21/textures/block/log.png"
  ∧ Resolver.getUnpackedItemResource Sample.lamp_disk "1.21" "minecraft:torch" = inl Resolver.ENOENT.
Proof. repeat split; vm_compute; reflexivity. Qed.

End SpriteExamples.

(** ** The glyph table *)

Section Glyphs.
Import Font.
Implicit Types (table : gmap N RawCharData) (textures : Z * Z * Z).

(** After a run of assignments a code holds what its last assignment
    gave it. *)
Lemma lookup_fold_assign (l : list (N * RawCharData)) table (code : N) :
  fold_left assign l table !! code =
  match last (omap (fun a : N * RawCharData =>
                      if (a.1 =? code)%N then Some a.2 else None) l) with
  | Some glyph => Some glyph
  | None => table !! code
  end.
Proof.
  revert table. induction l as [|[c g] l IH]; intros table; [done|].
  cbn [fold_left]. rewrite IH. unfold assign. cbn [omap list_omap fst snd].
  destruct (N.eqb_spec c code) as [->|Hne].
  - rewrite last_cons. destruct (last _); [done|]. apply lookup_insert_eq.
  - destruct (last _); [done|]. by apply lookup_insert_ne.
Qed.

Lemma row_loop_fold (page : option nat) (width height : Z) (i : nat)
    (row : list N) (j : nat) table :
  row_loop page width height i row j table =
  fold_left assign
    (imap (fun column code =>
             (code, {| char_id := code; char_page := page;
                       char_x := Z.of_nat (j + column) * width;
                       char_y := Z.of_nat i * height;
                       char_width := width; char_height := height;
                       char_letter := [code]; char_xAdvance := width;
                       char_yOffset := 0; char_xOffset := 0;
                       char_kerning := [] |})) row)
    table.
Proof.
  revert j table. induction row as [|code rest IH]; intros j table; [done|].
  cbn [row_loop imap fold_left]. rewrite IH. unfold assign at 3. cbn [fst snd].
  rewrite Nat.add_0_r. f_equal.
  apply imap_ext. intros column c _. cbn. by rewrite Nat.add_succ_r.
Qed.

Lemma row_loop_cells textures (provider : MCFontProvider) (w : Z) (i : nat)
    (row : list N) table :
  page_width textures (MC2PAGE (file provider)) = Some w →
  row_loop (MC2PAGE (file provider)) (w / Z.of_nat (length row))
    (default 8 (height provider)) i row 0 table =
  fold_left assign
    (imap (fun column code => (code, cell textures provider i (length row) column code)) row)
    table.
Proof.
  intros Hw. rewrite row_loop_fold. f_equal.
  apply imap_ext. intros column c _. unfold cell. by rewrite Hw.
Qed.

Lemma rows_loop_cells textures (provider : MCFontProvider) (w : Z)
    (rows : list (list N)) (i : nat) table :
  page_width textures (MC2PAGE (file provider)) = Some w →
  rows_loop textures (MC2PAGE (file provider)) (default 8 (height provider)) rows i table =
  Some (fold_left assign
          (mjoin (imap (fun rowIndex row =>
                          imap (fun column code =>
                                  (code, cell textures provider (i + rowIndex)
                                           (length row) column code)) row) rows))
          table).
Proof.
  intros Hw. revert i table. induction rows as [|row rest IH]; intros i table; [done|].
  cbn [rows_loop imap]. rewrite Hw, IH, (row_loop_cells _ _ w) by done.
  cbn [mjoin list_join]. rewrite fold_left_app, Nat.add_0_r. do 3 f_equal.
  apply imap_ext. intros rowIndex r _. cbn. apply imap_ext. intros column c _.
  by rewrite Nat.add_succ_r.
Qed.

Lemma recognised_page_width textures (f : string) :
  is_Some (MC2PAGE f) → is_Some (page_width textures (MC2PAGE f)).
Proof.
  destruct textures as [[a b] c]. unfold MC2PAGE.
  repeat (destruct (String.eqb f _); [intros _; eexists; reflexivity|]).
  by intros [? ?].
Qed.

Lemma providers_loop_cells textures (ps : list MCFontProvider) table :
  Forall (fun provider => chars provider = [] ∨ is_Some (MC2PAGE (file provider))) ps →
  providers_loop textures ps table =
  Some (fold_left assign
          (ps ≫= (fun provider =>
             mjoin (imap (fun rowIndex row =>
                            imap (fun column code =>
                                    (code, cell textures provider rowIndex
                                             (length row) column code)) row)
                      (chars provider))))
          table).
Proof.
  intros Hrec. revert table. induction Hrec as [|provider rest Hp _ IH]; intros table;
    [done|].
  cbn [providers_loop mbind list_bind]. rewrite fold_left_app.
  destruct Hp as [Hempty|Hpage].
  - rewrite Hempty. cbn [rows_loop imap mjoin list_join fold_left]. apply IH.
  - destruct (recognised_page_width textures _ Hpage) as [w Hw].
    rewrite (rows_loop_cells _ _ w) by done. cbn [Nat.add]. apply IH.
Qed.

(** C5, as the code has it. For a manifest in which every provider
    that has a row names one of the three known files, [generate]
    builds a table, and the table is the reference one: providers in
    manifest order, rows in order, each character of a row of [n]
    characters in a cell of width [floor(W / n)] at
    [(column * width, rowIndex * rowHeight)], the row height being [8]
    when the provider gives none, the advance being the width, offsets
    zero and no kerning; the last assignment of a character code
    wins. *)
Theorem generate_is_reference (data : MCFontData) textures :
  recognised data →
  ∃ table,
    generate data textures = Some table
    ∧ ∀ code, table !! code = reference_glyph data textures code.
Proof.
  intros Hrec. unfold generate. rewrite providers_loop_cells by done.
  eexists. split; [reflexivity|]. intros code.
  rewrite lookup_fold_assign. unfold reference_glyph, assignments.
  destruct (last _); [done | apply lookup_empty].
Qed.
End Glyphs.

(** Sixteen glyphs on a page 130 pixels wide are 8 pixels wide each:
    the letter [1] is the second glyph of the second row. *)
Lemma generate_is_reference_witness :
  Font.recognised Sample.ascii_row_font
  ∧ ∃ table,
      Font.generate Sample.ascii_row_font (130, 128, 128) = Some table
      ∧ table !! 49%N =
        Some {| Font.char_id := 49; Font.char_page := Some 0%nat;
                Font.char_x := 8; Font.char_y := 8;
                Font.char_width := 8; Font.char_height := 8;
                Font.char_letter := [49%N]; Font.char_xAdvance := 8;
                Font.char_yOffset := 0; Font.char_xOffset := 0;
                Font.char_kerning := [] |}
      ∧ (Font.char_x <$> table !! 32%N) = Some 120.
Proof.
  assert (Hrec : Font.recognised Sample.ascii_row_font).
  { apply Forall_cons. split; [right; by eexists | apply Forall_nil_2]. }
  split; [exact Hrec|].
  destruct (generate_is_reference Sample.ascii_row_font (130, 128, 128) Hrec)
    as (table & Hgen & Href).
  exists table. split; [exact Hgen|].
  rewrite !Href. split; vm_compute; reflexivity.
Defined.

(** A provider with rows whose file is not one of the three makes
    [generate] throw: no table is built, while the reference assigns
    the provider's characters. *)
Lemma generate_unknown_file_throws :
  Font.generate Sample.unknown_file_font (128, 128, 128) = None
  ∧ is_Some (Font.reference_glyph Sample.unknown_file_font (128, 128, 128) 65)
  ∧ ¬ ∃ table,
        Font.generate Sample.unknown_file_font (128, 128, 128) = Some table
        ∧ ∀ code, table !! code =
                  Font.reference_glyph Sample.unknown_file_font (128, 128, 128) code.
Proof.
  split; [reflexivity|]. split; [by eexists|].
  intros (table & Hgen & _). discriminate Hgen.
Qed.

(** ** Tooltip layout *)

Section Layout.
Import Tooltip.
Context `{Pixi}.

(** What every placement preserves holds when the loop over a line
    ends. *)
Lemma line_loop_invariant (I : line_state → Prop) (y : Z)
    (parts : list (MCText * fill)) (ls ls' : line_state) :
  (∀ text f ls0, I ls0 → I (place text f y ls0)) →
  I ls → line_loop y parts ls = Some ls' → I ls'.
Proof.
  intros Hplace. revert ls'.
  funelim (line_loop y parts ls); simp line_loop; intros ls' Hls Hrun.
  - by injection Hrun as <-.
  - eapply H0; [done | by apply Hplace | exact Hrun].
  - eapply H0; [done | exact Hls | exact Hrun].
  - eapply H0; [done | by apply Hplace | exact Hrun].
  - discriminate Hrun.
Qed.

Lemma side_by_side_snoc (x : Z) (rs : list run) (r : run) :
  side_by_side x rs → run_x r = x + total_width rs →
  side_by_side x (rs ++ [r]).
Proof.
  revert x. induction rs as [|r0 rs IH]; intros x Hrs Hr; simpl in *.
  - split; [lia | done].
  - destruct Hrs as [Hx Hrs]. split; [done|]. apply IH; [done | lia].
Qed.

Lemma total_width_snoc (rs : list run) (r : run) :
  total_width (rs ++ [r]) = total_width rs + text_width (run_text r).
Proof. induction rs as [|r0 rs IH]; simpl; lia. Qed.

Lemma line_loop_horizontal (y : Z) (line : MCText) (c : fill) (ls : line_state) :
  line_loop y [(line, c)] {| currentX := 0; textHeight := 0; placed := [] |} = Some ls →
  side_by_side 0 (placed ls)
  ∧ currentX ls = total_width (placed ls)
  ∧ Forall (fun r => run_y r = y) (placed ls).
Proof.
  apply (line_loop_invariant
           (fun ls => side_by_side 0 (placed ls)
                      ∧ currentX ls = total_width (placed ls)
                      ∧ Forall (fun r => run_y r = y) (placed ls))).
  - intros text f ls0 (Hside & Hx & Hy). unfold place. cbn [placed currentX].
    split; [|split].
    + apply side_by_side_snoc; [done|]. cbn [run_x]. lia.
    + rewrite total_width_snoc. cbn [run_text]. lia.
    + apply Forall_app. split; [done|]. by apply Forall_singleton.
  - simpl. by split; [|split; [|constructor]].
Qed.

(** The height of a line as the loop leaves it: that of the run placed
    last, [0] for a line without runs. *)
Lemma line_height_is_last_run (y : Z) (line : MCText) (c : fill) (ls : line_state) :
  line_loop y [(line, c)] {| currentX := 0; textHeight := 0; placed := [] |} = Some ls →
  textHeight ls =
  match last (placed ls) with
  | Some r => Z.max 0 (text_height (run_text r))
  | None => 0
  end.
Proof.
  apply (line_loop_invariant
           (fun ls => textHeight ls =
                      match last (placed ls) with
                      | Some r => Z.max 0 (text_height (run_text r))
                      | None => 0
                      end)).
  - intros text f ls0 _. unfold place. cbn [placed textHeight].
    by rewrite last_snoc.
  - done.
Qed.
End Layout.

Section LayoutExamples.
Import Tooltip.
Existing Instance Sample.pixi.

(** C4 at a line whose first run is taller than its last: the panel
    is as high as the last run of the line, not as the tallest. The
    runs are placed side by side and the panel is as wide as they are,
    padding added. *)
Theorem tooltip_height_not_tallest :
  ∃ t,
    buildTooltip [Sample.uneven_line] = Some t
    ∧ text_runs t =
      [ {| run_text := Sample.two_lines; run_fill := TOOLTIP_DEFAULT_TEXT_COLOR;
           run_x := 0; run_y := 0 |};
        {| run_text := "c"; run_fill := TOOLTIP_DEFAULT_TEXT_COLOR;
           run_x := 24; run_y := 0 |} ]
    ∧ tallest (text_runs t) = 48
    ∧ panel_width t = 32 + 32
    ∧ panel_height t = 24 + 32
    ∧ panel_height t ≠ tallest (text_runs t) + 32.
Proof.
  eexists. split; [vm_compute; reflexivity|]. vm_compute. repeat split; congruence.
Qed.

(** The two lines [hi] and [hello]. *)
Example tooltip_hi_hello :
  ∃ t,
    buildTooltip [MString "hi"; MString "hello"] = Some t
    ∧ text_runs t =
      [ {| run_text := "hi"; run_fill := TOOLTIP_DEFAULT_TEXT_COLOR;
           run_x := 0; run_y := 0 |};
        {| run_text := "hello"; run_fill := TOOLTIP_DEFAULT_TEXT_COLOR;
           run_x := 0; run_y := 24 |} ]
    ∧ panel_width t = 40 + 32
    ∧ panel_height t = 24 + 24 + 32.
Proof. eexists. split; [vm_compute; reflexivity|]. vm_compute. repeat split. Qed.
End LayoutExamples.

(** ** Unpack tasks *)

Section UnpackTasks.
Import Unpack.
Context `{Node}.

Lemma live_version (st : state) (t : nat) (v v' : string) :
  live st t v → live st t v' → v = v'.
Proof. intros (s & Hs & _) (s' & Hs' & _). congruence. Qed.

Lemma live_same_tasks (st st' : state) (t : nat) (v : string) :
  tasks st' = tasks st → live st' t v ↔ live st t v.
Proof. intros Heq. unfold live. by rewrite Heq. Qed.

Lemma live_alter (st st' : state) (t : nat) (v0 : string) (s0 s1 : status)
    (t' : nat) (v : string) :
  tasks st !! t = Some {| task_version := v0; task_status := s0 |} →
  (∀ o, s0 ≠ Finalized o) → (∀ o, s1 ≠ Finalized o) →
  tasks st' = alter (fun k => {| task_version := task_version k; task_status := s1 |})
                t (tasks st) →
  live st' t' v ↔ live st t' v.
Proof.
  intros Ht Hs0 Hs1 Heq. unfold live. rewrite Heq.
  destruct (decide (t = t')) as [<-|Hne].
  - rewrite list_lookup_alter_eq, Ht. cbn. split.
    + intros (s & [= <- <-] & _). by exists s0.
    + intros (s & [= <- <-] & _). by exists s1.
  - by rewrite list_lookup_alter_ne.
Qed.

(** A resumed task keeps the table; either nothing changes or the
    status of a running task becomes another status that is not
    final. *)
Lemma resume_spec (t : nat) (c : completion) (st : state) :
  runningUnpackTasks (resume t c st) = runningUnpackTasks st
  ∧ (tasks (resume t c st) = tasks st
     ∨ ∃ v s s',
         tasks st !! t = Some {| task_version := v; task_status := Running s |}
         ∧ (∀ o, s' ≠ Finalized o)
         ∧ tasks (resume t c st) =
           alter (fun k => {| task_version := task_version k; task_status := s' |})
             t (tasks st)).
Proof.
  unfold resume.
  destruct (tasks st !! t) as [[v [s|o|o]]|] eqn:Ht; try (split; [done | by left]).
  destruct s, c; try (split; [done | by left]);
    (split; [done|]; right; eexists v, _, _; split; [done|]; split; [|done]; done).
Qed.

Lemma table_exact_step (st : state) (ev : event) :
  table_exact st → table_exact (step st ev).
Proof.
  intros [Htable Hlive]. destruct ev as [version dirExists|t c|t]; cbn [step].
  - unfold ensureUnpackedVersion. destruct dirExists; [done|].
    destruct (runningUnpackTasks st !! version) as [t|] eqn:Hentry; [done|].
    destruct (JS.inherits version); [done|].
    cbn [unpackVersion snd runningUnpackTasks tasks fs]. split.
    + intros v t. cbn [runningUnpackTasks].
      destruct (decide (version = v)) as [<-|Hne].
      * rewrite lookup_insert_eq. intros [= <-].
        exists (Running MkdirUnpacked). cbn [tasks]. split; [|done].
        by rewrite lookup_app_r, Nat.sub_diag.
      * rewrite lookup_insert_ne by done. intros (s & Hs & Hnf)%Htable.
        exists s. cbn [tasks]. split; [|done].
        rewrite lookup_app_l; [done | by eapply lookup_lt_Some].
    + intros v t (s & Hs & Hnf). cbn [tasks] in Hs. cbn [runningUnpackTasks].
      destruct (decide (t < length (tasks st))%nat) as [Hlt|Hge].
      * rewrite lookup_app_l in Hs by done.
        assert (Hold : runningUnpackTasks st !! v = Some t) by (apply Hlive; by exists s).
        rewrite lookup_insert_ne; [done | congruence].
      * rewrite lookup_app_r in Hs by lia.
        destruct (t - length (tasks st))%nat as [|n] eqn:Hdiff; [|by destruct n].
        injection Hs as <- <-. rewrite lookup_insert_eq. f_equal. lia.
  - destruct (resume_spec t c st) as [Hrun [Hsame|(v & s & s' & Ht & Hs' & Halt)]].
    + split; intros v t'; rewrite Hrun, (live_same_tasks _ _ _ _ Hsame); auto.
    + split; intros v' t'; rewrite Hrun, (live_alter st _ t v (Running s) s') by done;
        auto.
  - unfold finally.
    destruct (tasks st !! t) as [[v [s|o|o]]|] eqn:Ht; try done.
    assert (Hentry : runningUnpackTasks st !! v = Some t).
    { apply Hlive. by exists (Settled o). }
    split.
    + intros v' t'. cbn [set_status runningUnpackTasks].
      destruct (decide (v = v')) as [<-|Hne]; [by rewrite lookup_delete_eq|].
      rewrite lookup_delete_ne by done. intros Hold.
      destruct (Htable _ _ Hold) as (s & Hs & Hnf).
      exists s. cbn [set_status tasks]. split; [|done].
      rewrite list_lookup_alter_ne; [done|]. intros <-. congruence.
    + intros v' t' (s & Hs & Hnf). cbn [set_status tasks runningUnpackTasks] in *.
      destruct (decide (t = t')) as [<-|Hne].
      * rewrite list_lookup_alter_eq, Ht in Hs. cbn in Hs.
        injection Hs as <- <-. by destruct (Hnf o).
      * rewrite list_lookup_alter_ne in Hs by done.
        assert (Hold : runningUnpackTasks st !! v' = Some t') by (apply Hlive; by exists s).
        rewrite lookup_delete_ne; [done|]. intros <-. congruence.
Qed.

Lemma table_exact_initial (disk : gmap string entry) : table_exact (initial disk).
Proof.
  split.
  - intros v t Hentry. cbn in Hentry. by rewrite lookup_empty in Hentry.
  - intros v t (s & Hs & _). cbn in Hs. by rewrite lookup_nil in Hs.
Qed.

Lemma table_exact_run (evs : list event) (st : state) :
  table_exact st → table_exact (run evs st).
Proof.
  revert st. induction evs as [|ev evs IH]; intros st Hst; [done|].
  apply IH. by apply table_exact_step.
Qed.

(** A finalized task stays as it is. *)
Lemma finalized_stable (st : state) (ev : event) (t : nat) (v : string) (o : outcome) :
  tasks st !! t = Some {| task_version := v; task_status := Finalized o |} →
  tasks (step st ev) !! t = Some {| task_version := v; task_status := Finalized o |}.
Proof.
  intros Ht. destruct ev as [version dirExists|t' c|t']; cbn [step].
  - unfold ensureUnpackedVersion. destruct dirExists; [done|].
    destruct (runningUnpackTasks st !! version); [done|].
    destruct (JS.inherits version); [done|].
    cbn [unpackVersion snd tasks]. rewrite lookup_app_l; [done | by eapply lookup_lt_Some].
  - destruct (resume_spec t' c st) as [_ [-> |(v' & s & s' & Ht' & _ & ->)]]; [done|].
    rewrite list_lookup_alter_ne; [done | congruence].
  - unfold finally.
    destruct (tasks st !! t') as [[v' [s|o'|o']]|] eqn:Ht'; try done.
    cbn [set_status tasks]. rewrite list_lookup_alter_ne; [done | congruence].
Qed.

Lemma tasks_named_alter (st st' : state) (t : nat) (s : status) :
  tasks st' = alter (fun k => {| task_version := task_version k; task_status := s |})
                t (tasks st) →
  tasks_named st → tasks_named st'.
Proof.
  intros Heq Hst t' v s' Ht'. rewrite Heq in Ht'.
  destruct (decide (t = t')) as [<-|Hne].
  - rewrite list_lookup_alter_eq in Ht'.
    destruct (tasks st !! t) as [[v0 s0]|] eqn:Ht; [|done].
    cbn in Ht'. injection Ht' as <- <-. by eapply Hst.
  - rewrite list_lookup_alter_ne in Ht' by done. by eapply Hst.
Qed.

Lemma tasks_named_step (st : state) (ev : event) :
  tasks_named st → tasks_named (step st ev).
Proof.
  intros Hst. destruct ev as [version dirExists|t c|t]; cbn [step].
  - unfold ensureUnpackedVersion. destruct dirExists; [done|].
    destruct (runningUnpackTasks st !! version); [done|].
    destruct (JS.inherits version) eqn:Hmember; [done|].
    cbn [unpackVersion snd tasks]. intros t v s Ht. cbn [tasks] in Ht.
    destruct (decide (t < length (tasks st))%nat) as [Hlt|Hge].
    + rewrite lookup_app_l in Ht by done. by eapply Hst.
    + rewrite lookup_app_r in Ht by lia.
      destruct (t - length (tasks st))%nat as [|n]; [|by destruct n].
      by injection Ht as <- <-.
  - destruct (resume_spec t c st) as [_ [Hsame|(v & s & s' & _ & _ & Halt)]].
    + unfold tasks_named. by rewrite Hsame.
    + by eapply tasks_named_alter.
  - unfold finally.
    destruct (tasks st !! t) as [[v [s|o|o]]|] eqn:Ht; try done.
    eapply (tasks_named_alter {| fs := fs st;
                                 runningUnpackTasks := delete v (runningUnpackTasks st);
                                 tasks := tasks st |}); [reflexivity | exact Hst].
Qed.

Lemma tasks_named_run (disk : gmap string entry) (evs : list event) :
  tasks_named (run evs (initial disk)).
Proof.
  assert (Hinitial : tasks_named (initial disk)).
  { intros t v s Ht. cbn in Ht. by rewrite lookup_nil in Ht. }
  revert Hinitial. generalize (initial disk).
  induction evs as [|ev evs IH]; intros st Hst; [done|].
  apply IH. by apply tasks_named_step.
Qed.

(** After a task of a version has failed and its [finally] callback
    has run, the table has no entry for the version, and the next call
    for it whose directory check is negative starts a new task, the
    version naming no member of [Object.prototype]. *)
Lemma retry_after_failure (st : state) (t : nat) (version : string) (s : stage) :
  s ∈ [MkdirUnpacked; MkdirDatagen; MkdirFonts; Extract] →
  tasks st !! t = Some {| task_version := version; task_status := Running s |} →
  JS.inherits version = false →
  let st' := finally t (resume t IoFailed st) in
  let r := ensureUnpackedVersion version false st' in
  tasks st' !! t = Some {| task_version := version; task_status := Finalized Rejected |}
  ∧ observed st' (ReturnedTask t) = Some Rejected
  ∧ runningUnpackTasks st' !! version = None
  ∧ r.1 = ReturnedTask (length (tasks st'))
  ∧ tasks r.2 !! length (tasks st') =
    Some {| task_version := version; task_status := Running MkdirUnpacked |}.
Proof.
  intros Hs Ht Hmember st' r.
  assert (Hfailed : tasks (resume t IoFailed st) !! t =
                    Some {| task_version := version; task_status := Settled Rejected |}).
  { unfold resume. rewrite Ht.
    assert (Hcases : s = MkdirUnpacked ∨ s = MkdirDatagen ∨ s = MkdirFonts ∨ s = Extract).
    { rewrite !elem_of_cons in Hs. rewrite elem_of_nil in Hs. tauto. }
    destruct Hcases as [-> | [-> | [-> | ->]]]; cbn [set_status tasks];
      by rewrite list_lookup_alter_eq, Ht. }
  assert (Hfinal : tasks st' !! t =
                   Some {| task_version := version; task_status := Finalized Rejected |}).
  { subst st'. unfold finally. rewrite Hfailed. cbn [set_status tasks].
    by rewrite list_lookup_alter_eq, Hfailed. }
  assert (Hgone : runningUnpackTasks st' !! version = None).
  { subst st'. unfold finally. rewrite Hfailed. cbn [set_status runningUnpackTasks].
    apply lookup_delete_eq. }
  split; [done|]. split; [by cbn [observed]; rewrite Hfinal|]. split; [done|].
  subst r. unfold ensureUnpackedVersion. rewrite Hgone, Hmember.
  cbn [unpackVersion fst snd tasks]. split; [done|].
  by rewrite lookup_app_r, Nat.sub_diag.
Qed.
End UnpackTasks.

Section UnpackTheorems.
Import Unpack.
Context `{Node}.

(** C1, as the code has it. In every state the host can reach, a
    version has at most one live task. While a task of a version is
    live, every call for the version whose directory check is negative
    is handed that task and starts nothing; a call whose check is
    positive returns at once. The [finally] callback of a settled task
    removes the entry of its version and makes the outcome final, and a
    final outcome never changes, so all who were handed the task see
    the same one. When a version has no live task, a call whose check
    is negative starts a new task and enters it in the table, unless
    the version names a member of [Object.prototype]: such a version
    never has a task, and a call for it whose check is negative is
    handed the inherited member at once and starts nothing. *)
Theorem unpack_task_per_version (disk : gmap string entry) (evs : list event) :
  let st := run evs (initial disk) in
  (∀ version t t', live st t version → live st t' version → t = t')
  ∧ (∀ version t,
       live st t version →
       ensureUnpackedVersion version false st = (ReturnedTask t, st))
  ∧ (∀ version, ensureUnpackedVersion version true st = (ReturnedVoid, st))
  ∧ (∀ version t o,
       tasks st !! t = Some {| task_version := version; task_status := Settled o |} →
       runningUnpackTasks (finally t st) !! version = None
       ∧ tasks (finally t st) !! t =
         Some {| task_version := version; task_status := Finalized o |})
  ∧ (∀ version t o ev,
       tasks st !! t = Some {| task_version := version; task_status := Finalized o |} →
       tasks (step st ev) !! t =
       Some {| task_version := version; task_status := Finalized o |})
  ∧ (∀ version,
       JS.inherits version = false →
       (∀ t, ¬ live st t version) →
       let r := ensureUnpackedVersion version false st in
       r.1 = ReturnedTask (length (tasks st))
       ∧ tasks st !! length (tasks st) = None
       ∧ tasks r.2 !! length (tasks st) =
         Some {| task_version := version; task_status := Running MkdirUnpacked |}
       ∧ runningUnpackTasks r.2 !! version = Some (length (tasks st)))
  ∧ (∀ version,
       JS.inherits version = true →
       (∀ t, ¬ live st t version)
       ∧ runningUnpackTasks st !! version = None
       ∧ ensureUnpackedVersion version false st = (ReturnedMember version, st)).
Proof.
  intros st.
  assert (Hexact : table_exact st) by apply table_exact_run, table_exact_initial.
  assert (Hnamed : tasks_named st) by apply tasks_named_run.
  destruct Hexact as [Htable Hlive].
  split; [|split; [|split; [|split; [|split; [|split]]]]].
  - intros version t t' Ht Ht'. apply Hlive in Ht, Ht'. congruence.
  - intros version t Ht. unfold ensureUnpackedVersion. by rewrite (Hlive _ _ Ht).
  - done.
  - intros version t o Ht. unfold finally. rewrite Ht.
    cbn [set_status runningUnpackTasks tasks]. split; [apply lookup_delete_eq|].
    by rewrite list_lookup_alter_eq, Ht.
  - intros version t o ev Ht. by apply finalized_stable.
  - intros version Hmember Hnone r. subst r. unfold ensureUnpackedVersion.
    destruct (runningUnpackTasks st !! version) as [t|] eqn:Hentry.
    { destruct (Hnone t). by apply Htable. }
    rewrite Hmember. cbn [unpackVersion fst snd tasks runningUnpackTasks].
    split; [done|]. split; [by apply lookup_ge_None|]. split.
    + by rewrite lookup_app_r, Nat.sub_diag.
    + apply lookup_insert_eq.
  - intros version Hmember.
    assert (Hnone : ∀ t, ¬ live st t version).
    { intros t (s & Hs & _). apply Hnamed in Hs. congruence. }
    assert (Hentry : runningUnpackTasks st !! version = None).
    { destruct (runningUnpackTasks st !! version) as [t|] eqn:Hentry; [|done].
      destruct (Hnone t). by apply Htable. }
    split; [done|]. split; [done|].
    unfold ensureUnpackedVersion. by rewrite Hentry, Hmember.
Qed.

(** C2, as the code has it. When the generator process exits, the task
    is fulfilled whatever the exit code. A task is rejected when one of
    its directory creations or the extraction of the archive fails:
    once the [finally] callback has run, whoever was handed the task
    has observed the rejection, the table has no entry for the version,
    and the next call whose directory check is negative starts a new
    task at its first step. The version of a task names no member of
    [Object.prototype] in any state the host can reach, which is what
    the retry needs. *)
Theorem generator_exit_fulfils (st : state) (t : nat) (version : string) :
  (∀ code,
     tasks st !! t = Some {| task_version := version; task_status := Running Datagen |} →
     tasks (resume t (ChildExit code) st) !! t =
     Some {| task_version := version; task_status := Settled Fulfilled |})
  ∧ (∀ s,
       s ∈ [MkdirUnpacked; MkdirDatagen; MkdirFonts; Extract] →
       tasks st !! t = Some {| task_version := version; task_status := Running s |} →
       JS.inherits version = false ∨ (∃ disk evs, st = run evs (initial disk)) →
       let st' := finally t (resume t IoFailed st) in
       let r := ensureUnpackedVersion version false st' in
       tasks st' !! t = Some {| task_version := version; task_status := Finalized Rejected |}
       ∧ observed st' (ReturnedTask t) = Some Rejected
       ∧ runningUnpackTasks st' !! version = None
       ∧ r.1 = ReturnedTask (length (tasks st'))
       ∧ tasks r.2 !! length (tasks st') =
         Some {| task_version := version; task_status := Running MkdirUnpacked |}).
Proof.
  split.
  - intros code Ht. unfold resume. rewrite Ht. cbn [set_status tasks].
    by rewrite list_lookup_alter_eq, Ht.
  - intros s Hs Ht Hnamed. apply (retry_after_failure st t version s Hs Ht).
    destruct Hnamed as [Hmember | (disk & evs & ->)]; [done|].
    eapply (tasks_named_run disk evs). exact Ht.
Qed.
End UnpackTheorems.

Section UnpackExamples.
Import Unpack.
Existing Instance Sample.node.

(** While version 1.21 is being unpacked, a call for it whose directory
    check was negative is handed the running task, and a call for
    version 1.20 starts the next task. *)
Lemma unpack_task_per_version_witness :
  ensureUnpackedVersion "1.21" false Sample.unpacking =
    (ReturnedTask 0, Sample.unpacking)
  ∧ (ensureUnpackedVersion "1.20" false Sample.unpacking).1 = ReturnedTask 1.
Proof.
  pose proof (unpack_task_per_version ∅ [Call "1.21" false; Resume 0 IoOk])
    as (_ & Hshared & _ & _ & _ & Hfresh & _).
  split.
  - apply Hshared. exists (Running MkdirDatagen). split; [reflexivity | discriminate].
  - apply Hfresh; [reflexivity|]. intros [|t] (s & Hs & _); discriminate Hs.
Defined.

(** The generator of version 1.21 exits with code 1: the task is
    fulfilled. A failed directory creation: the task is rejected and
    the next call starts the next task. *)
Lemma generator_exit_fulfils_witness :
  tasks (resume 0 (ChildExit 1) Sample.generating) !! 0%nat =
    Some {| task_version := "1.21"; task_status := Settled Fulfilled |}
  ∧ observed (finally 0 (resume 0 IoFailed Sample.unpacking)) (ReturnedTask 0) =
    Some Rejected
  ∧ (ensureUnpackedVersion "1.21" false
       (finally 0 (resume 0 IoFailed Sample.unpacking))).1 = ReturnedTask 1.
Proof.
  split.
  - pose proof (generator_exit_fulfils Sample.generating 0 "1.21") as [Hexit _].
    apply Hexit. reflexivity.
  - pose proof (generator_exit_fulfils Sample.unpacking 0 "1.21") as [_ Hfail].
    destruct (Hfail MkdirDatagen) as (_ & Hobserved & _ & Hnext & _).
    + rewrite !elem_of_cons. auto.
    + reflexivity.
    + right. by exists ∅, [Call "1.21" false; Resume 0 IoOk].
    + split; [exact Hobserved | exact Hnext].
Defined.

(** While the task of a version is running, after it has made the
    version's directory, a call for the version finds the directory and
    returns at once: it is not handed the task. After the task has
    failed, a call still finds the directory and starts no task. A
    call for the version named [constructor] starts no task either:
    it is handed the member the table inherits under that name. *)
Lemma call_during_unpack_returns_at_once :
  live Sample.unpacking 0 "1.21"
  ∧ tasks Sample.unpacking !! 0%nat =
    Some {| task_version := "1.21"; task_status := Running MkdirDatagen |}
  ∧ ensureUnpackedVersion_now "1.21" Sample.unpacking = (ReturnedVoid, Sample.unpacking)
  ∧ (ensureUnpackedVersion_now "1.21" Sample.unpacking).1 ≠ ReturnedTask 0
  ∧ tasks Sample.unpack_failed !! 0%nat =
    Some {| task_version := "1.21"; task_status := Finalized Rejected |}
  ∧ runningUnpackTasks Sample.unpack_failed !! "1.21" = None
  ∧ ensureUnpackedVersion_now "1.21" Sample.unpack_failed =
    (ReturnedVoid, Sample.unpack_failed)
  ∧ ensureUnpackedVersion "constructor" false (initial ∅) =
    (ReturnedMember "constructor", initial ∅).
Proof.
  split.
  - exists (Running MkdirDatagen). split; [vm_compute; reflexivity | discriminate].
  - repeat split; vm_compute; congruence.
Qed.

(** A generator that exits with code [1] leaves the task fulfilled,
    and the next call returns at once. *)
Lemma generator_exit_code_ignored :
  tasks Sample.generator_failed !! 0%nat =
    Some {| task_version := "1.21"; task_status := Finalized Fulfilled |}
  ∧ observed Sample.generator_failed (ReturnedTask 0) = Some Fulfilled
  ∧ observed Sample.generator_failed (ReturnedTask 0) ≠ Some Rejected
  ∧ ensureUnpackedVersion_now "1.21" Sample.generator_failed =
    (ReturnedVoid, Sample.generator_failed).
Proof. repeat split; vm_compute; congruence. Qed.
End UnpackExamples.

(** * Further properties *)

(** ** Cutting at a separator *)

Section Cuts.
Import JS Text.

Lemma index_cut (c : ascii) (p r : string) :
  free_of c p = true →
  String.index 0 (String c EmptyString) (p +:+ String c r) = Some (String.length p).
Proof.
  induction p as [|d p IH]; intros Hfree; simpl.
  - destruct (ascii_dec c c); [by destruct r | congruence].
  - simpl in Hfree. apply andb_prop in Hfree as [Hne Hfree].
    destruct (ascii_dec c d) as [->|_].
    + by rewrite Ascii.eqb_refl in Hne.
    + fold String.append. by rewrite IH.
Qed.

Lemma index_free (c : ascii) (s : string) :
  free_of c s = true → String.index 0 (String c EmptyString) s = None.
Proof.
  induction s as [|d s IH]; intros Hfree; simpl; [done|].
  simpl in Hfree. apply andb_prop in Hfree as [Hne Hfree].
  destruct (ascii_dec c d) as [->|_].
  - by rewrite Ascii.eqb_refl in Hne.
  - by rewrite IH.
Qed.

Lemma drop_chars_cut (c : ascii) (p r : string) :
  drop_chars (S (String.length p)) (p +:+ String c r) = r.
Proof. induction p as [|d p IH]; simpl; [done | apply IH]. Qed.

(** Cutting after the first occurrence of a separator: a text that has
    the separator loses what is before it, a text without it is kept
    whole. *)
Lemma cut_after_first (c : ascii) (p r : string) :
  free_of c p = true →
  substring_from (indexOf (String c EmptyString) (p +:+ String c r) + 1)
    (p +:+ String c r) = r.
Proof.
  intros Hfree. unfold indexOf, substring_from. rewrite index_cut by done.
  replace (Z.to_nat (Z.of_nat (String.length p) + 1)) with (S (String.length p)) by lia.
  apply drop_chars_cut.
Qed.

Lemma cut_without_separator (c : ascii) (s : string) :
  free_of c s = true →
  substring_from (indexOf (String c EmptyString) s + 1) s = s.
Proof.
  intros Hfree. unfold indexOf, substring_from. by rewrite index_free.
Qed.
End Cuts.

Section Namespaces.
Import JS Text Resolver.
Context `{Node}.

(** A texture reference of the form [prefix/rest], the prefix free of
    slashes, is cut down to [rest]: for ["minecraft:block/stone"] as
    for ["block/stone"] the result is ["stone"]. A reference without a
    slash is returned whole, its namespace included. *)
Theorem stripMinecraftNamespace_cases (prefix rest whole : string) :
  free_of "/" prefix = true →
  free_of "/" whole = true →
  stripMinecraftNamespace (prefix +:+ "/" +:+ rest) = rest
  ∧ stripMinecraftNamespace whole = whole.
Proof.
  intros Hprefix Hwhole. split.
  - apply (cut_after_first "/"); done.
  - apply (cut_without_separator "/"); done.
Qed.

(** The namespace of an item id does not matter: an id [ns:name] is
    resolved like the bare [name]. *)
Theorem item_namespace_irrelevant (disk : gmap string entry)
    (version ns name : string) :
  free_of ":" ns = true →
  free_of ":" name = true →
  getUnpackedItemResource disk version (ns +:+ ":" +:+ name) =
  getUnpackedItemResource disk version name.
Proof.
  intros Hns Hname. unfold getUnpackedItemResource.
  change (ns +:+ ":" +:+ name) with (ns +:+ String ":" name).
  rewrite (cut_after_first ":") by done.
  by rewrite (cut_without_separator ":") by done.
Qed.
End Namespaces.

Lemma stripMinecraftNamespace_cases_witness :
  Resolver.stripMinecraftNamespace "minecraft:block/stone" = "stone"
  ∧ Resolver.stripMinecraftNamespace "minecraft:stone" = "minecraft:stone".
Proof.
  apply (stripMinecraftNamespace_cases "minecraft:block" "stone" "minecraft:stone");
    reflexivity.
Defined.

Lemma item_namespace_irrelevant_witness :
  Resolver.getUnpackedItemResource (H := Sample.node) Sample.lamp_disk "1.21" "minecraft:lamp" =
  Resolver.getUnpackedItemResource (H := Sample.node) Sample.lamp_disk "1.21" "lamp".
Proof.
  apply (item_namespace_irrelevant (H := Sample.node) Sample.lamp_disk "1.21"
           "minecraft" "lamp"); reflexivity.
Defined.

(** ** Resource keys of versions without a hash sign *)

Section KeysInjective.
Import Text.

Lemma key_injective (v r v' r' : string) :
  free_of "#" v = true → free_of "#" v' = true →
  v +:+ "##" +:+ r = v' +:+ "##" +:+ r' → v = v' ∧ r = r'.
Proof.
  revert v'. induction v as [|c v IH]; intros [|c' v'] Hv Hv' Heq; simpl in Hv, Hv';
    unfold String.append in Heq; fold String.append in Heq.
  - by injection Heq as ->.
  - injection Heq as <- _. apply andb_prop in Hv' as [Hne _]. done.
  - injection Heq as -> _. apply andb_prop in Hv as [Hne _]. done.
  - injection Heq as -> Heq.
    apply andb_prop in Hv as [_ Hv]. apply andb_prop in Hv' as [_ Hv'].
    destruct (IH v' Hv Hv' Heq) as [-> ->]. done.
Qed.

(** Among versions that contain no hash sign the keys are unique: two
    requests with the same key are the same request. *)
Theorem resource_keys_injective (version resource version' resource' : string)
    (item item' : Item) :
  free_of "#" version = true → free_of "#" version' = true →
  free_of "#" (minecraftVersion item) = true →
  free_of "#" (minecraftVersion item') = true →
  (hashResource version resource = hashResource version' resource' →
   version = version' ∧ resource = resource')
  ∧ (hashItemTexture item = hashItemTexture item' →
     minecraftVersion item = minecraftVersion item' ∧ id item = id item').
Proof.
  intros Hv Hv' Hi Hi'. split; intros Heq; by apply key_injective.
Qed.
End KeysInjective.

Lemma resource_keys_injective_witness :
  (hashResource "1.21" "font/ascii.png" = hashResource "1.21" "font/ascii.png" →
   "1.21" = "1.21" ∧ "font/ascii.png" = "font/ascii.png")
  ∧ (hashItemTexture Sample.plain_stick = hashItemTexture Sample.sharp_stick →
     minecraftVersion Sample.plain_stick = minecraftVersion Sample.sharp_stick
     ∧ id Sample.plain_stick = id Sample.sharp_stick).
Proof.
  apply (resource_keys_injective "1.21" "font/ascii.png" "1.21" "font/ascii.png"
           Sample.plain_stick Sample.sharp_stick); reflexivity.
Defined.

(** ** Unpack tasks and the disk *)

Section UnpackDisk.
Import Unpack UnpackFacts.
Context `{Node}.

Lemma mkdir_subseteq (path : string) (disk : gmap string entry) : disk ⊆ mkdir path disk.
Proof.
  unfold mkdir. destruct (disk !! path) eqn:Hp; [done|]. by apply insert_subseteq.
Qed.

Lemma mkdir_is_Some (path : string) (disk : gmap string entry) :
  is_Some (mkdir path disk !! path).
Proof.
  unfold mkdir. destruct (disk !! path) eqn:Hp; [by rewrite Hp|].
  rewrite lookup_insert_eq. by eexists.
Qed.

Lemma is_Some_subseteq (disk disk' : gmap string entry) (path : string) :
  disk ⊆ disk' → is_Some (disk !! path) → is_Some (disk' !! path).
Proof. intros Hsub [e He]. exists e. by eapply lookup_weaken. Qed.


(** What resuming a task does: nothing, or a new status for a running
    task and a disk that has grown by what the new status has made. *)
Lemma resume_effect (t : nat) (c : completion) (st : state) :
  resume t c st = st
  ∨ ∃ version s s' disk',
      tasks st !! t = Some {| task_version := version; task_status := Running s |}
      ∧ resume t c st = set_status t s' (set_fs disk' st)
      ∧ fs st ⊆ disk'
      ∧ ∀ path, path ∈ made version s' →
                path ∈ made version (Running s) ∨ is_Some (disk' !! path).
Proof.
  unfold resume.
  destruct (tasks st !! t) as [[version [s|o|o]]|] eqn:Ht; try by left.
  destruct s, c; try (by left); right; eexists version, _, _, _;
    (split; [done|]); (split; [reflexivity|]); cbn [set_fs fs];
    (split; [first [apply mkdir_subseteq | done]|]);
    intros path; cbn [made]; rewrite ?elem_of_cons, ?elem_of_nil;
    intros Hin;
    repeat match goal with
    | Hor : _ ∨ _ |- _ => destruct Hor as [->|Hor]
    end;
    try done;
    first [ right; apply mkdir_is_Some
          | left; rewrite ?elem_of_cons; tauto
          | right; eapply is_Some_subseteq; [apply mkdir_subseteq|] ; fail
          | idtac ].
Qed.
End UnpackDisk.

Section UnpackInvariants.
Import Unpack UnpackFacts.
Context `{Node}.

Lemma step_fs_subseteq (st : state) (ev : event) : fs st ⊆ fs (step st ev).
Proof.
  destruct ev as [version dirExists|t c|t]; cbn [step].
  - unfold ensureUnpackedVersion. destruct dirExists; [done|].
    destruct (runningUnpackTasks st !! version); [done|].
    by destruct (JS.inherits version).
  - destruct (resume_effect t c st) as [->|(v & s & s' & disk' & _ & -> & Hsub & _)];
      done.
  - unfold finally. by destruct (tasks st !! t) as [[v [s|o|o]]|].
Qed.



(** The directories on the disk stay through every call, resumption
    and [finally] callback. *)
Lemma run_fs_subseteq (evs : list event) (st : state) :
  fs st ⊆ fs (run evs st).
Proof.
  revert st. induction evs as [|ev evs IH]; intros st; [done|].
  cbn [run fold_left]. etrans; [apply step_fs_subseteq | apply IH].
Qed.


Lemma stuck_step (st : state) (ev : event) (t : nat) (version : string) :
  tasks st !! t = Some {| task_version := version; task_status := Running DatagenStuck |} →
  tasks (step st ev) !! t =
  Some {| task_version := version; task_status := Running DatagenStuck |}.
Proof.
  intros Ht. destruct ev as [v dirExists|t' c|t']; cbn [step].
  - unfold ensureUnpackedVersion. destruct dirExists; [done|].
    destruct (runningUnpackTasks st !! v); [done|].
    destruct (JS.inherits v); [done|].
    cbn [unpackVersion snd tasks]. rewrite lookup_app_l; [done | by eapply lookup_lt_Some].
  - destruct (decide (t' = t)) as [->|Hne].
    + unfold resume. rewrite Ht. by destruct c.
    + destruct (resume_spec t' c st) as [_ [-> |(v' & s & s' & _ & _ & ->)]]; [done|].
      by rewrite list_lookup_alter_ne.
  - unfold finally.
    destruct (tasks st !! t') as [[v' [s|o'|o']]|] eqn:Ht'; try done.
    cbn [set_status tasks]. rewrite list_lookup_alter_ne; [done | congruence].
Qed.

Lemma stuck_run (evs : list event) (st : state) (t : nat) (version : string) :
  tasks st !! t = Some {| task_version := version; task_status := Running DatagenStuck |} →
  tasks (run evs st) !! t =
  Some {| task_version := version; task_status := Running DatagenStuck |}.
Proof.
  revert st. induction evs as [|ev evs IH]; intros st Ht; [done|].
  apply IH. by apply stuck_step.
Qed.

(** When the generator cannot be launched ([getDatagenRunCommand] or
    [spawn] throws inside the promise executor), the task never
    settles: whatever happens afterwards it stays pending, nobody who
    was handed it observes an outcome, and every later call for the
    version whose directory check is negative is handed the same
    task. *)
Theorem unlaunched_generator_hangs (disk : gmap string entry) (before after : list event)
    (t : nat) (version : string) :
  tasks (run before (initial disk)) !! t =
    Some {| task_version := version; task_status := Running DatagenStuck |} →
  let st := run after (run before (initial disk)) in
  tasks st !! t = Some {| task_version := version; task_status := Running DatagenStuck |}
  ∧ observed st (ReturnedTask t) = None
  ∧ ensureUnpackedVersion version false st = (ReturnedTask t, st).
Proof.
  intros Hstuck st.
  assert (Ht : tasks st !! t =
               Some {| task_version := version; task_status := Running DatagenStuck |})
    by by apply stuck_run.
  split; [done|]. split; [by cbn [observed]; rewrite Ht|].
  assert (Hexact : table_exact st)
    by apply table_exact_run, table_exact_run, table_exact_initial.
  destruct Hexact as [_ Hlive]. unfold ensureUnpackedVersion.
  rewrite (Hlive version t); [done|]. by exists (Running DatagenStuck).
Qed.

(** Every task a call hands back is a task of the version asked for,
    it is live at that moment, and it is the task the table holds for
    the version. No task is handed back for a version that names a
    member of [Object.prototype]: a call for such a version whose
    directory check is negative is handed the inherited member and
    leaves the state as it is. *)
Theorem call_returns_task_of_version (disk : gmap string entry) (evs : list event)
    (version : string) (dirExists : bool) (t : nat) :
  (ensureUnpackedVersion version dirExists (run evs (initial disk))).1 = ReturnedTask t →
  live (ensureUnpackedVersion version dirExists (run evs (initial disk))).2 t version
  ∧ runningUnpackTasks (ensureUnpackedVersion version dirExists (run evs (initial disk))).2
      !! version = Some t
  ∧ JS.inherits version = false
  ∧ ∀ member,
      JS.inherits member = true →
      ensureUnpackedVersion member false (run evs (initial disk)) =
      (ReturnedMember member, run evs (initial disk)).
Proof.
  set (st := run evs (initial disk)). intros Hcall.
  assert (Hexact : table_exact st) by apply table_exact_run, table_exact_initial.
  assert (Hexact' : table_exact (step st (Call version dirExists))).
  { by apply table_exact_step. }
  assert (Hnamed : tasks_named st) by apply tasks_named_run.
  destruct Hexact' as [Htable' _]. cbn [step] in Htable'.
  assert (Hentry' : runningUnpackTasks (ensureUnpackedVersion version dirExists st).2
                      !! version = Some t).
  { unfold ensureUnpackedVersion in *. destruct dirExists; [done|].
    destruct (runningUnpackTasks st !! version) as [t'|] eqn:Hentry.
    - cbn in Hcall. by injection Hcall as ->.
    - destruct (JS.inherits version); [done|].
      cbn in Hcall. injection Hcall as <-. cbn [unpackVersion snd runningUnpackTasks].
      apply lookup_insert_eq. }
  split; [by apply Htable'|]. split; [done|]. split.
  - unfold ensureUnpackedVersion in Hcall. destruct dirExists; [done|].
    destruct (runningUnpackTasks st !! version) as [t'|] eqn:Hentry.
    + destruct Hexact as [Htable _]. destruct (Htable _ _ Hentry) as (s & Hs & _).
      by eapply Hnamed.
    + by destruct (JS.inherits version).
  - intros member Hmember. unfold ensureUnpackedVersion.
    destruct (runningUnpackTasks st !! member) as [t'|] eqn:Hentry; [|by rewrite Hmember].
    destruct Hexact as [Htable _]. destruct (Htable _ _ Hentry) as (s & Hs & _).
    apply Hnamed in Hs. congruence.
Qed.
End UnpackInvariants.

(** ** The document and the host's handler *)

Section HostDocument.
Import JS Proto Host HostFacts.
Context `{Node}.

Lemma document_write_consistent (item : Item) (h : host) :
  document_consistent h → document_consistent (document_write item h).
Proof.
  unfold document_consistent, document_write. intros Hh.
  destruct (document_hash h) as [old|] eqn:Hold;
    [destruct (negb (String.eqb old (hashItem item)))|]; cbn; try done.
  by rewrite Hold.
Qed.

Lemma exec_consistent (world : ∀ q, option (answer q)) (p : prog) (h : host) :
  document_consistent h → document_consistent (exec world p h).1.
Proof.
  revert h. induction p as [|q k IH|label data k IH|m k IH|item k IH|k IH];
    intros h Hh; cbn [exec].
  - done.
  - destruct (world q) as [a|]; [by apply IH | done].
  - by apply IH.
  - by apply IH.
  - by apply IH, document_write_consistent.
  - by apply IH.
Qed.

(** The hash the document keeps is always the hash of the item it
    keeps: opening a file, writing an item and running any handler
    preserve this. *)
Theorem document_hash_consistent (h : host) :
  document_consistent h →
  (∀ item, document_consistent (document_write item h))
  ∧ (∀ content, document_consistent (document_init content h))
  ∧ (∀ versions world data,
       document_consistent (exec world (onDidReceiveMessage versions data) h).1).
Proof.
  intros Hh. split; [|split].
  - intros item. by apply document_write_consistent.
  - intros content. unfold document_init.
    destruct content as [|data|]; try done. by destruct (Item_parse data).
  - intros versions world data. by apply exec_consistent.
Qed.

(** Writing an item twice is writing it once: the second write fires
    no change event and leaves the document as the first one made it.
    A write fires at most one change event, and afterwards the stored
    hash is the hash of the item written. *)
Theorem document_write_idempotent (item : Item) (h : host) :
  document_write item (document_write item h) = document_write item h
  ∧ (changes_fired (document_write item h) ≤ S (changes_fired h))%nat
  ∧ document_hash (document_write item h) = Some (hashItem item).
Proof.
  split; [|split].
  - unfold document_write at 2 3.
    destruct (document_hash h) as [old|] eqn:Hold.
    + destruct (String.eqb_spec old (hashItem item)) as [Heq|Hne]; cbn [negb].
      * unfold document_write. rewrite Hold.
        by destruct (String.eqb_spec old (hashItem item)).
      * unfold document_write. cbn [document_hash]. by rewrite String.eqb_refl.
    + unfold document_write. cbn [document_hash]. by rewrite String.eqb_refl.
  - unfold document_write. destruct (document_hash h) as [old|];
      [destruct (negb _)|]; cbn [changes_fired]; lia.
  - unfold document_write. destruct (document_hash h) as [old|] eqn:Hold; [|done].
    destruct (String.eqb_spec old (hashItem item)) as [->|]; cbn [negb]; [|done].
    exact Hold.
Qed.

Lemma document_write_posted (item : Item) (h : host) :
  posted (document_write item h) = posted h.
Proof.
  unfold document_write. by destruct (document_hash h) as [old|]; [destruct (negb _)|].
Qed.

Lemma document_write_console (item : Item) (h : host) :
  console (document_write item h) = console h.
Proof.
  unfold document_write. by destruct (document_hash h) as [old|]; [destruct (negb _)|].
Qed.

Lemma document_write_item (item : Item) (h : host) :
  document_item (document_write item h) = Some item
  ∨ document_item (document_write item h) = document_item h.
Proof.
  unfold document_write. destruct (document_hash h) as [old|]; [destruct (negb _)|];
    cbn; auto.
Qed.

(** Whatever the message and however the awaited operations end, the
    handler logs the message once, posts at most three messages after
    those already posted, and changes the item of the document only
    for an [update-item] message that carries an item, to that item. *)
Theorem handler_effects (versions : list string) (world : ∀ q, option (answer q))
    (data : json) (h : host) :
  let h' := (exec world (onDidReceiveMessage versions data) h).1 in
  (∃ new, posted h' = posted h ++ new ∧ (length new ≤ 3)%nat)
  ∧ console h' = console h ++ [("CLIENT MESSAGE", data)]
  ∧ (document_item h' ≠ document_item h →
     ∃ item, ClientMessages_safeParse data = Some (ClientUpdateItem (Some item))
             ∧ document_item h' = Some item).
Proof.
  unfold onDidReceiveMessage. cbn [exec].
  destruct (ClientMessages_safeParse data) as [[item|[item|]| |version resource]|];
    repeat (cbn [exec fst];
            match goal with
            | |- context [world ?q] => destruct (world q)
            | |- context [if negb ?b then _ else _] => destruct (negb b)
            | |- context [has_version ?i] => destruct (has_version i)
            end);
    cbn [exec fst posted console document_item];
    rewrite ?document_write_posted, ?document_write_console;
    cbn [posted console document_item];
    (split; [first [ exists []; split; [by rewrite app_nil_r | simpl; lia]
                   | eexists; split; [rewrite <- ?app_assoc; reflexivity | simpl; lia] ]
            |split; [done|]]);
    try done.
  all: intros Hchanged;
    match goal with
    | |- context [document_write ?i ?h0] =>
        exists i; split; [done|];
        destruct (document_write_item i h0) as [Hitem|Hitem]; rewrite Hitem in *
    end; done.
Qed.
End HostDocument.

Section HostRequests.
Import JS Proto Host HostFacts.
Context `{Node} `{App.Constants}.

(** A request for a texture or a resource of a version that is not
    among the installed ones ends after the versions were listed:
    nothing is unpacked, resolved or read, and nothing is posted. *)
Theorem uninstalled_version_ignored (versions installed : list string)
    (world : ∀ q, option (answer q)) (data : json) (h : host)
    (m : ClientMessage) (version : string) :
  ClientMessages_safeParse data = Some m →
  requested_version m = Some version →
  world GetMinecraftVersions = Some installed →
  version ∉ installed →
  awaited world (onDidReceiveMessage versions data) h = [GetMinecraftVersions]
  ∧ posted (exec world (onDidReceiveMessage versions data) h).1 = posted h
  ∧ (exec world (onDidReceiveMessage versions data) h).2 = true.
Proof.
  intros Hparse Hversion Hworld Hnot. unfold onDidReceiveMessage. rewrite Hparse.
  assert (Hinc : includes installed version = false).
  { unfold includes. by apply bool_decide_eq_false_2. }
  destruct m as [item|item| |v r]; try discriminate Hversion;
    injection Hversion as ->; cbn [awaited exec]; rewrite Hworld, Hinc; done.
Qed.

(** An [update-item] message with an item writes the document before
    the components of the version are looked up: when that lookup
    fails the write stays and nothing is posted. *)
Theorem update_item_written_first (versions : list string)
    (world : ∀ q, option (answer q)) (data : json) (h : host) (item : Item) :
  ClientMessages_safeParse data = Some (ClientUpdateItem (Some item)) →
  world (GetItemComponents (minecraftVersion item)) = None →
  let r := exec world (onDidReceiveMessage versions data) h in
  r.2 = false
  ∧ posted r.1 = posted h
  ∧ (document_hash h ≠ Some (hashItem item) → document_item r.1 = Some item)
  ∧ awaited world (onDidReceiveMessage versions data) h =
    [GetItemComponents (minecraftVersion item)].
Proof.
  intros Hparse Hworld. unfold onDidReceiveMessage. rewrite Hparse.
  cbn [exec awaited]. rewrite Hworld. cbn [fst snd].
  split; [done|]. split; [by rewrite document_write_posted|]. split; [|done].
  intros Hhash. unfold document_write. cbn [document_hash].
  destruct (document_hash h) as [old|]; [|done].
  destruct (String.eqb_spec old (hashItem item)) as [->|]; [done | by cbn].
Qed.

(** The answer to a request carries what identifies the request: when
    the host posts anything for a [get-resource] or [get-item-texture]
    request, it is one message, and the rendering side stores its
    content under the key of the requested resource or item. *)
Theorem answer_stored_under_request_key (versions : list string)
    (world : ∀ q, option (answer q)) (data : json) (h : host) (st : App.state) :
  let h' := (exec world (onDidReceiveMessage versions data) h).1 in
  (∀ version resource,
     ClientMessages_safeParse data = Some (GetAnyResource version resource) →
     posted h' = posted h
     ∨ ∃ content,
         posted h' = posted h ++ [AnyResourceResponse version resource content]
         ∧ App.resources
             (App.onMessage
                (ServerMessage_to_json (AnyResourceResponse version resource content))
                st).1.1
           !! hashResource version resource = Some content)
  ∧ (∀ item,
       ClientMessages_safeParse data = Some (GetItemTexture item) →
       posted h' = posted h
       ∨ ∃ content,
           posted h' = posted h ++ [ItemTextureResponse item content]
           ∧ App.itemTextures
               (App.onMessage
                  (ServerMessage_to_json (ItemTextureResponse item content)) st).1.1
             !! hashItemTexture item = Some content).
Proof.
  intros h'. subst h'. split.
  - intros version resource Hparse. unfold onDidReceiveMessage. rewrite Hparse.
    repeat (cbn [exec fst];
            match goal with
            | |- context [world ?q] => destruct (world q)
            | |- context [if negb ?b then _ else _] => destruct (negb b)
            end);
      cbn [exec fst posted]; try by left.
    right. eexists. split; [reflexivity|].
    unfold App.onMessage. rewrite ServerMessages_safeParse_posted.
    cbn [fst App.resources]. apply lookup_insert_eq.
  - intros item Hparse. unfold onDidReceiveMessage. rewrite Hparse.
    repeat (cbn [exec fst];
            match goal with
            | |- context [world ?q] => destruct (world q)
            | |- context [if negb ?b then _ else _] => destruct (negb b)
            end);
      cbn [exec fst posted]; try by left.
    right. eexists. split; [reflexivity|].
    unfold App.onMessage. rewrite ServerMessages_safeParse_posted.
    cbn [fst App.itemTextures]. apply lookup_insert_eq.
Qed.
End HostRequests.

(** ** Messages across the transport *)

Section Transport.
Import JS Proto AppPosts.

Lemma nullable_item_to_json (item : option Item) :
  z_nullable Item_schema (Some (document_to_json item)) = Some item.
Proof.
  destruct item as [item|]; [|done]. cbn [document_to_json]. unfold z_nullable.
  assert (Hi := Item_schema_to_json item).
  destruct (Item_to_json item) eqn:Hj; try discriminate Hj. by rewrite Hi.
Qed.

Lemma ClientMessages_safeParse_posted (m : ClientMessage) :
  ClientMessages_safeParse (ClientMessage_to_json m) = Some m.
Proof.
  destruct m as [item|item| |version resource];
    unfold ClientMessages_safeParse, ClientMessage_to_json,
      GetItemTextureMessage, UpdateItemMessage, ReadyMessage, GetAnyResourceMessage,
      z_object.
  - change (object_of_members _) with
      [("type", JStr "get-item-texture"); ("item", Item_to_json item)].
    cbn [get_property String.eqb Ascii.eqb Bool.eqb z_literal z_string mbind option_bind].
    by rewrite Item_schema_to_json.
  - change (object_of_members _) with
      [("type", JStr "update-item"); ("item", document_to_json item)].
    cbn [get_property String.eqb Ascii.eqb Bool.eqb z_literal z_string mbind option_bind
           fmap option_fmap option_map z_or].
    by rewrite nullable_item_to_json.
  - done.
  - done.
Qed.

Lemma ClientMessages_safeParse_NaN (item : mc.IItem) :
  mc.count item = mc.NaN →
  ClientMessages_safeParse (post_to_json (App.PostUpdateItem item)) = None
  ∧ ClientMessages_safeParse (post_to_json (App.PostGetItemTexture item)) = None.
Proof.
  intros Hcount.
  assert (Hitem : Item_schema (Some (IItem_to_json item)) = None).
  { unfold Item_schema, IItem_to_json, z_object. rewrite Hcount.
    change (object_of_members _) with
      [("minecraftVersion", JStr (mc.minecraftVersion item)); ("id", JStr (mc.id item));
       ("count", JNull); ("components", components_to_json (mc.components item))].
    reflexivity. }
  unfold ClientMessages_safeParse, post_to_json,
    GetItemTextureMessage, UpdateItemMessage, ReadyMessage, GetAnyResourceMessage,
    z_object.
  split.
  - change (object_of_members _) with
      [("type", JStr "update-item"); ("item", IItem_to_json item)].
    cbn [get_property String.eqb Ascii.eqb Bool.eqb z_literal z_string mbind option_bind
           fmap option_fmap option_map z_or].
    unfold z_nullable. change (IItem_to_json item) with (JObj [
       ("minecraftVersion", JStr (mc.minecraftVersion item)); ("id", JStr (mc.id item));
       ("count", number_to_json (mc.count item));
       ("components", components_to_json (mc.components item))]) at 1.
    cbv beta iota. fold (IItem_to_json item). by rewrite Hitem.
  - change (object_of_members _) with
      [("type", JStr "get-item-texture"); ("item", IItem_to_json item)].
    cbn [get_property String.eqb Ascii.eqb Bool.eqb z_literal z_string mbind option_bind
           fmap option_fmap option_map z_or].
    by rewrite Hitem.
Qed.

Lemma ClientMessages_safeParse_post (p : App.post) :
  ClientMessages_safeParse (post_to_json p) = validated p.
Proof.
  destruct p as [|[version itemId [z|] cs]|[version itemId [z|] cs]|version resource].
  - apply (ClientMessages_safeParse_posted Ready).
  - apply (ClientMessages_safeParse_posted
             (ClientUpdateItem (Some {| minecraftVersion := version; id := itemId;
                                        count := z; components := cs |}))).
  - by apply ClientMessages_safeParse_NaN.
  - apply (ClientMessages_safeParse_posted
             (GetItemTexture {| minecraftVersion := version; id := itemId;
                                count := z; components := cs |})).
  - by apply ClientMessages_safeParse_NaN.
  - apply (ClientMessages_safeParse_posted (GetAnyResource version resource)).
Qed.

(** A message the host posts validates on the rendering side, as the
    message that was posted. A message the rendering side posts
    validates on the host, as the message that was posted, unless it
    carries an item whose count is [NaN]: such a message fails
    validation. *)
Theorem posted_messages_validate :
  ClientMessages_safeParse (post_to_json App.PostReady) = Some Ready
  ∧ (∀ version resource,
       ClientMessages_safeParse (post_to_json (App.PostGetResource version resource)) =
       Some (GetAnyResource version resource))
  ∧ (∀ item : Item,
       ClientMessages_safeParse (post_to_json (App.PostUpdateItem (IItem_of_Item item))) =
       Some (ClientUpdateItem (Some item))
       ∧ ClientMessages_safeParse
           (post_to_json (App.PostGetItemTexture (IItem_of_Item item))) =
         Some (GetItemTexture item))
  ∧ (∀ item : mc.IItem,
       mc.count item = mc.NaN →
       ClientMessages_safeParse (post_to_json (App.PostUpdateItem item)) = None
       ∧ ClientMessages_safeParse (post_to_json (App.PostGetItemTexture item)) = None)
  ∧ (∀ item : mc.IItem,
       mc.count item = mc.NaN ∨ ∃ item', item = IItem_of_Item item')
  ∧ (∀ m, ServerMessages_safeParse (ServerMessage_to_json m) = Some m).
Proof.
  split; [|split; [|split; [|split; [|split]]]].
  - apply (ClientMessages_safeParse_posted Ready).
  - intros version resource.
    apply (ClientMessages_safeParse_posted (GetAnyResource version resource)).
  - intros item. split.
    + apply (ClientMessages_safeParse_posted (ClientUpdateItem (Some item))).
    + apply (ClientMessages_safeParse_posted (GetItemTexture item)).
  - apply ClientMessages_safeParse_NaN.
  - intros [version itemId [z|] cs]; [right|by left].
    by exists {| minecraftVersion := version; id := itemId; count := z; components := cs |}.
  - intros m. apply ServerMessages_safeParse_posted.
Qed.

Lemma Item_schema_rev (ms : list (string * json)) :
  Item_schema (Some (JObj ms)) =
  (v ← z_string (get_property "minecraftVersion" (rev ms));
   i ← z_string (get_property "id" (rev ms));
   c ← z_number (get_property "count" (rev ms));
   cs ← z_record (get_property "components" (rev ms));
   Some {| minecraftVersion := v; id := i; count := c; components := cs |}).
Proof. unfold Item_schema, z_object. by rewrite !get_object_of_members. Qed.

(** A property the [Item] schema does not declare is left out: a
    document with one more property, before or after the others, opens
    as the same item. *)
Theorem Item_parse_ignores_other_keys (ms : list (string * json)) (k : string) (v : json) :
  k ∉ Item_keys →
  Item_parse (JObj ((k, v) :: ms)) = Item_parse (JObj ms)
  ∧ Item_parse (JObj (ms ++ [(k, v)])) = Item_parse (JObj ms).
Proof.
  intros Hk. unfold Item_keys in Hk. rewrite !not_elem_of_cons in Hk.
  destruct Hk as (Hv & Hi & Hc & Hcs & _).
  assert (Hfront : ∀ k', k' ≠ k →
            get_property k' (rev ((k, v) :: ms)) = get_property k' (rev ms)).
  { intros k' Hne. cbn [rev]. rewrite get_property_app. cbn [get_property].
    destruct (String.eqb_spec k' k); [done|]. by destruct (get_property k' (rev ms)). }
  assert (Hback : ∀ k', k' ≠ k →
            get_property k' (rev (ms ++ [(k, v)])) = get_property k' (rev ms)).
  { intros k' Hne. rewrite rev_app_distr. cbn [rev app get_property].
    by destruct (String.eqb_spec k' k). }
  unfold Item_parse. rewrite !Item_schema_rev.
  rewrite !Hfront, !Hback by done. done.
Qed.
End Transport.

Lemma Item_parse_ignores_other_keys_witness :
  Proto.Item_parse
    (JS.JObj (("comment", JS.JStr "a note") ::
              [("minecraftVersion", JS.JStr "1.21"); ("id", JS.JStr "stone");
               ("count", JS.JNum 1); ("components", JS.JObj [])])) =
  Proto.Item_parse
    (JS.JObj [("minecraftVersion", JS.JStr "1.21"); ("id", JS.JStr "stone");
              ("count", JS.JNum 1); ("components", JS.JObj [])]).
Proof.
  apply (Item_parse_ignores_other_keys
           [("minecraftVersion", JS.JStr "1.21"); ("id", JS.JStr "stone");
            ("count", JS.JNum 1); ("components", JS.JObj [])]
           "comment" (JS.JStr "a note")).
  unfold AppPosts.Item_keys. rewrite !not_elem_of_cons. repeat split; try discriminate.
  apply not_elem_of_nil.
Defined.

Section BothDirections.
Import JS Proto.

Lemma z_literal_Some (lit : string) (x : option json) :
  z_literal lit x = Some tt → x = Some (JStr lit).
Proof.
  unfold z_literal. destruct x as [[| | |s| |]|]; try discriminate.
  destruct (String.eqb_spec s lit) as [->|]; [done | discriminate].
Qed.

(** The two sides accept disjoint sets of messages, but for
    [update-item]: a value that validates on both sides is an
    [update-item] message, read as the same item on both. *)
Theorem only_update_item_both_ways (data : json) (c : ClientMessage) (s : ServerMessage) :
  ClientMessages_safeParse data = Some c →
  ServerMessages_safeParse data = Some s →
  ∃ item, c = ClientUpdateItem item ∧ s = ServerUpdateItem item.
Proof.
  unfold ClientMessages_safeParse, ServerMessages_safeParse,
    GetItemTextureMessage, UpdateItemMessage, ReadyMessage, GetAnyResourceMessage,
    ItemTextureResponseMessage, UpdateMinecraftVersionsMessage,
    AnyResourceResponseMessage, UpdateItemComponentsMessage, z_object.
  destruct data as [| | | | |ms]; try discriminate.
  set (o := object_of_members ms).
  destruct (z_literal "update-item" (get_property "type" o)) as [[]|] eqn:Hupdate.
  - apply z_literal_Some in Hupdate. rewrite Hupdate.
    cbn [z_literal String.eqb Ascii.eqb Bool.eqb mbind option_bind fmap option_fmap
           option_map z_or].
    destruct (z_nullable Item_schema (get_property "item" o)) as [item|];
      cbn [option_map z_or]; [|discriminate].
    intros [= <-] [= <-]. by exists item.
  - intros Hc Hs. exfalso.
    cbn [mbind option_bind fmap option_fmap option_map z_or] in Hc, Hs.
    destruct (z_literal "get-item-texture" (get_property "type" o)) as [[]|] eqn:H1.
    { apply z_literal_Some in H1. rewrite H1 in Hs. cbn in Hs. discriminate. }
    destruct (z_literal "ready" (get_property "type" o)) as [[]|] eqn:H2.
    { apply z_literal_Some in H2. rewrite H2 in Hs. cbn in Hs. discriminate. }
    destruct (z_literal "get-resource" (get_property "type" o)) as [[]|] eqn:H3.
    { apply z_literal_Some in H3. rewrite H3 in Hs. cbn in Hs. discriminate. }
    cbn in Hc. discriminate.
Qed.
End BothDirections.

(** ** Glyph cells *)

Section GlyphCells.
Import Font FontFacts.
Implicit Types (table : gmap N RawCharData) (textures : Z * Z * Z).

Lemma elem_of_assignments (data : MCFontData) textures (code : N) (g : RawCharData) :
  (code, g) ∈ assignments data textures ↔
  ∃ provider rowIndex row column,
    provider ∈ providers data
    ∧ chars provider !! rowIndex = Some row
    ∧ row !! column = Some code
    ∧ g = cell textures provider rowIndex (length row) column code.
Proof.
  unfold assignments. rewrite list_elem_of_bind. split.
  - intros (provider & Hin & Hp). apply list_elem_of_join in Hin as (cells & Hin & Hcells).
    apply elem_of_lookup_imap in Hcells as (rowIndex & row & -> & Hrow).
    apply elem_of_lookup_imap in Hin as (column & c & [= -> ->] & Hcol).
    by exists provider, rowIndex, row, column.
  - intros (provider & rowIndex & row & column & Hp & Hrow & Hcol & ->).
    exists provider. split; [|done]. apply list_elem_of_join.
    eexists. split; [|apply elem_of_lookup_imap; by eexists rowIndex, row].
    apply elem_of_lookup_imap. by exists column, code.
Qed.

Lemma generate_lookup (data : MCFontData) textures table (code : N) :
  recognised data → generate data textures = Some table →
  table !! code =
  last (omap (fun a : N * RawCharData => if (a.1 =? code)%N then Some a.2 else None)
          (assignments data textures)).
Proof.
  intros Hrec. unfold generate. rewrite providers_loop_cells by done.
  intros [= <-]. rewrite lookup_fold_assign. unfold assignments.
  destruct (last _); [done | apply lookup_empty].
Qed.

Lemma generate_lookup_Some (data : MCFontData) textures table (code : N) (g : RawCharData) :
  recognised data → generate data textures = Some table →
  table !! code = Some g → (code, g) ∈ assignments data textures.
Proof.
  intros Hrec Hgen. rewrite (generate_lookup _ _ _ _ Hrec Hgen).
  intros Hlast%last_Some_elem_of. apply list_elem_of_omap in Hlast as ([c g'] & Hin & Hsel).
  cbn [fst snd] in Hsel. destruct (N.eqb_spec c code) as [->|]; [|done].
  by injection Hsel as ->.
Qed.

(** Every glyph of the table lies within its page: it is stored under
    its own code, its page has a texture, and its cell starts at a
    non-negative [x] and ends before the right edge of the texture.
    The advance of a glyph is its width. *)
Theorem glyph_cell_within_page (data : MCFontData) (ascii accent nonlatin : Z)
    table (code : N) (g : RawCharData) :
  recognised data →
  0 ≤ ascii → 0 ≤ accent → 0 ≤ nonlatin →
  generate data (ascii, accent, nonlatin) = Some table →
  table !! code = Some g →
  char_id g = code
  ∧ char_xAdvance g = char_width g
  ∧ ∃ w, page_width (ascii, accent, nonlatin) (char_page g) = Some w
         ∧ 0 ≤ char_x g
         ∧ char_x g + char_width g ≤ w.
Proof.
  intros Hrec Ha Hb Hc Hgen Hg.
  apply (generate_lookup_Some _ _ _ _ _ Hrec Hgen) in Hg.
  apply elem_of_assignments in Hg
    as (provider & rowIndex & row & column & Hp & Hrow & Hcol & ->).
  split; [done|]. split; [done|]. cbn [cell char_page char_x char_width].
  assert (Hpage : is_Some (MC2PAGE (file provider))).
  { unfold recognised in Hrec. rewrite Forall_forall in Hrec.
    destruct (Hrec provider Hp) as [Hempty|Hsome]; [|done].
    rewrite Hempty in Hrow. by rewrite lookup_nil in Hrow. }
  destruct (recognised_page_width (ascii, accent, nonlatin) _ Hpage) as [w Hw].
  exists w. split; [done|]. rewrite Hw. cbn [default from_option]. unfold Datatypes.id.
  assert (Hw0 : 0 ≤ w).
  { unfold page_width in Hw. destruct (MC2PAGE (file provider)) as [[|[|[|]]]|];
      try discriminate; injection Hw as <-; lia. }
  apply lookup_lt_Some in Hcol.
  assert (Hn : 0 < Z.of_nat (length row)) by lia.
  pose proof (Z.mul_div_le w _ Hn) as Hle.
  pose proof (Z.div_pos w _ Hw0 Hn) as Hdiv.
  assert (Hmul : (Z.of_nat column + 1) * (w / Z.of_nat (length row))
                 ≤ Z.of_nat (length row) * (w / Z.of_nat (length row)))
    by (apply Z.mul_le_mono_nonneg_r; lia).
  split; [apply Z.mul_nonneg_nonneg; lia | lia].
Qed.

(** The table has a glyph for exactly the characters that occur in a
    row of a provider. *)
Theorem glyph_table_domain (data : MCFontData) textures table (code : N) :
  recognised data →
  generate data textures = Some table →
  is_Some (table !! code) ↔ occurs code data.
Proof.
  intros Hrec Hgen. split.
  - intros [g Hg]. apply (generate_lookup_Some _ _ _ _ _ Hrec Hgen) in Hg.
    apply elem_of_assignments in Hg
      as (provider & rowIndex & row & column & Hp & Hrow & Hcol & _).
    exists provider. split; [done|]. exists row.
    split; by eapply list_elem_of_lookup_2.
  - intros (provider & Hp & row & Hrow & Hcode).
    apply list_elem_of_lookup_1 in Hrow as [rowIndex Hrow].
    apply list_elem_of_lookup_1 in Hcode as [column Hcol].
    rewrite (generate_lookup _ _ _ _ Hrec Hgen). apply last_is_Some.
    intros Hnil.
    assert (Hin : cell textures provider rowIndex (length row) column code
                  ∈ omap (fun a : N * RawCharData =>
                            if (a.1 =? code)%N then Some a.2 else None)
                      (assignments data textures)).
    { apply list_elem_of_omap. eexists (code, _). split.
      - apply elem_of_assignments. by exists provider, rowIndex, row, column.
      - cbn [fst snd]. by rewrite N.eqb_refl. }
    rewrite Hnil in Hin. by apply elem_of_nil in Hin.
Qed.
End GlyphCells.

(** ** Providers in sequence *)

Section ProviderOrder.
Import Font FontFacts.
Implicit Types (table : gmap N RawCharData) (textures : Z * Z * Z).

Lemma row_loop_other (page : option nat) (width height : Z) (i : nat)
    (row : list N) (j : nat) table (code : N) :
  code ∉ row → row_loop page width height i row j table !! code = table !! code.
Proof.
  revert j table. induction row as [|c row IH]; intros j table Hnot; [done|].
  apply not_elem_of_cons in Hnot as [Hne Hnot]. cbn [row_loop].
  rewrite IH by done. by rewrite lookup_insert_ne.
Qed.

Lemma row_loop_page (page : option nat) (width height : Z) (i : nat)
    (row : list N) (j : nat) table (code : N) :
  code ∈ row ∨ (∃ g, table !! code = Some g ∧ char_page g = page) →
  ∃ g, row_loop page width height i row j table !! code = Some g ∧ char_page g = page.
Proof.
  revert j table. induction row as [|c row IH]; intros j table Hcase.
  - destruct Hcase as [Hin|Hold]; [by apply elem_of_nil in Hin | done].
  - cbn [row_loop]. apply IH. destruct (decide (code = c)) as [->|Hne].
    + right. eexists. by rewrite lookup_insert_eq.
    + destruct Hcase as [Hin|Hold].
      * left. apply elem_of_cons in Hin as [?|?]; done.
      * right. by rewrite lookup_insert_ne.
Qed.

Lemma rows_loop_other textures (page : option nat) (height : Z)
    (rows : list (list N)) (i : nat) table table' (code : N) :
  rows_loop textures page height rows i table = Some table' →
  (∀ row, row ∈ rows → code ∉ row) →
  table' !! code = table !! code.
Proof.
  revert i table. induction rows as [|row rows IH]; intros i table Hrun Hnot.
  - by injection Hrun as <-.
  - cbn [rows_loop] in Hrun. destruct (page_width textures page) as [w|]; [|done].
    cbn zeta in Hrun. rewrite (IH _ _ Hrun).
    + apply row_loop_other, Hnot, elem_of_cons. by left.
    + intros r Hr. apply Hnot, elem_of_cons. by right.
Qed.

Lemma rows_loop_page textures (page : option nat) (height : Z)
    (rows : list (list N)) (i : nat) table table' (code : N) :
  rows_loop textures page height rows i table = Some table' →
  (∃ row, row ∈ rows ∧ code ∈ row) ∨ (∃ g, table !! code = Some g ∧ char_page g = page) →
  ∃ g, table' !! code = Some g ∧ char_page g = page.
Proof.
  revert i table. induction rows as [|row rows IH]; intros i table Hrun Hcase.
  - injection Hrun as <-. destruct Hcase as [(row & Hin & _)|Hold]; [|done].
    by apply elem_of_nil in Hin.
  - cbn [rows_loop] in Hrun. destruct (page_width textures page) as [w|]; [|done].
    cbn zeta in Hrun. apply (IH _ _ Hrun).
    destruct Hcase as [(r & Hr & Hcode)|Hold].
    + apply elem_of_cons in Hr as [->|Hr].
      * right. apply row_loop_page. by left.
      * left. by exists r.
    + right. apply row_loop_page. by right.
Qed.

Lemma providers_loop_app textures (ps qs : list MCFontProvider) table :
  providers_loop textures (ps ++ qs) table =
  providers_loop textures ps table ≫= providers_loop textures qs.
Proof.
  revert table. induction ps as [|p ps IH]; intros table; [done|].
  cbn [providers_loop app]. cbn zeta.
  destruct (rows_loop _ _ _ _ _ _); [apply IH | done].
Qed.

(** A provider placed after the others changes only the glyphs of its
    own characters: when the table of the longer manifest is built, so
    is the table of the shorter one, every character outside the rows
    of the last provider keeps the glyph it had, and every character
    of its rows gets a glyph of the page of its file. *)
Theorem last_provider_overrides_own_characters textures
    (ps : list MCFontProvider) (p : MCFontProvider) table' :
  generate {| providers := ps ++ [p] |} textures = Some table' →
  ∃ table,
    generate {| providers := ps |} textures = Some table
    ∧ (∀ code, ¬ in_provider code p → table' !! code = table !! code)
    ∧ (∀ code, in_provider code p →
         ∃ g, table' !! code = Some g ∧ char_page g = MC2PAGE (file p)).
Proof.
  unfold generate. cbn [providers]. rewrite providers_loop_app.
  destruct (providers_loop textures ps ∅) as [table|]; [|done].
  cbn [mbind option_bind providers_loop]. cbn zeta.
  destruct (rows_loop _ _ _ _ _ _) as [t|] eqn:Hrows; [|done].
  intros [= <-]. exists table. split; [done|]. split.
  - intros code Hnot. apply (rows_loop_other _ _ _ _ _ _ _ _ Hrows).
    intros row Hrow Hcode. apply Hnot. by exists row.
  - intros code Hin. apply (rows_loop_page _ _ _ _ _ _ _ _ Hrows). by left.
Qed.

Lemma last_provider_overrides_own_characters_witness :
  ∃ table,
    generate Sample.ascii_row_font (128, 64, 128) = Some table
    ∧ (∀ code, ¬ in_provider code FontSamples.accented_row →
         FontSamples.two_providers_table !! code = table !! code)
    ∧ (∀ code, in_provider code FontSamples.accented_row →
         ∃ g, FontSamples.two_providers_table !! code = Some g
              ∧ char_page g = MC2PAGE (file FontSamples.accented_row)).
Proof.
  apply (last_provider_overrides_own_characters (128, 64, 128)
           (providers Sample.ascii_row_font) FontSamples.accented_row).
  by vm_compute.
Defined.
End ProviderOrder.

(** ** Instances of the properties above *)

Section FurtherExamples.
Import JS Proto Unpack UnpackFacts UnpackSamples Host HostFacts HostSamples AppPosts.
Existing Instance Sample.node.
Existing Instance Sample.constants.


Lemma unlaunched_generator_hangs_witness :
  observed (run [Call "1.21" false; Finally 0; Resume 0 (ChildExit 0)]
              (run launch_fails (initial ∅))) (ReturnedTask 0) = None.
Proof.
  destruct (unlaunched_generator_hangs ∅ launch_fails
              [Call "1.21" false; Finally 0; Resume 0 (ChildExit 0)] 0 "1.21")
    as (_ & Hobserved & _); [reflexivity|].
  exact Hobserved.
Defined.

Lemma call_returns_task_of_version_witness :
  live (ensureUnpackedVersion "1.21" false (run launch_fails (initial ∅))).2 0 "1.21"
  ∧ ensureUnpackedVersion "constructor" false (run launch_fails (initial ∅)) =
    (ReturnedMember "constructor", run launch_fails (initial ∅)).
Proof.
  destruct (call_returns_task_of_version ∅ launch_fails "1.21" false 0 eq_refl)
    as (Hlive & _ & _ & Hmember).
  split; [exact Hlive | by apply Hmember].
Defined.

Lemma document_hash_consistent_witness :
  document_consistent (document_write Sample.plain_stick fresh)
  ∧ document_consistent
      (exec nothing
         (onDidReceiveMessage ["1.21"]
            (ClientMessage_to_json (ClientUpdateItem (Some Sample.sharp_stick))))
         fresh).1.
Proof.
  destruct (document_hash_consistent fresh) as (Hwrite & _ & Hexec); [reflexivity|].
  split; [apply Hwrite | apply Hexec].
Defined.

Lemma uninstalled_version_ignored_witness :
  awaited (only_versions ["1.20"; "1.21"])
    (onDidReceiveMessage ["1.21"]
       (ClientMessage_to_json (GetAnyResource "1.19" "font/include/default.json")))
    fresh = [GetMinecraftVersions].
Proof.
  assert (Hnot : "1.19" ∉ ["1.20"; "1.21"]).
  { rewrite !not_elem_of_cons. repeat split; try discriminate. apply not_elem_of_nil. }
  exact (proj1 (uninstalled_version_ignored ["1.21"] ["1.20"; "1.21"]
                  (only_versions ["1.20"; "1.21"])
                  (ClientMessage_to_json
                     (GetAnyResource "1.19" "font/include/default.json"))
                  fresh (GetAnyResource "1.19" "font/include/default.json") "1.19"
                  eq_refl eq_refl eq_refl Hnot)).
Defined.

Lemma update_item_written_first_witness :
  document_item
    (exec nothing
       (onDidReceiveMessage ["1.21"]
          (ClientMessage_to_json (ClientUpdateItem (Some Sample.sharp_stick))))
       fresh).1 = Some Sample.sharp_stick.
Proof.
  assert (Hparse : ClientMessages_safeParse
                     (ClientMessage_to_json (ClientUpdateItem (Some Sample.sharp_stick))) =
                   Some (ClientUpdateItem (Some Sample.sharp_stick)))
    by by vm_compute.
  destruct (update_item_written_first ["1.21"] nothing _ fresh Sample.sharp_stick
              Hparse eq_refl)
    as (_ & _ & Hitem & _).
  apply Hitem. discriminate.
Defined.

Lemma only_update_item_both_ways_witness :
  ∃ item, ClientUpdateItem None = ClientUpdateItem item
          ∧ ServerUpdateItem None = ServerUpdateItem item.
Proof.
  apply (only_update_item_both_ways (ClientMessage_to_json (ClientUpdateItem None)));
    reflexivity.
Defined.

Lemma glyph_cell_within_page_witness :
  ∃ g, FontSamples.two_providers_table !! 48%N = Some g
       ∧ Font.char_id g = 48%N
       ∧ Font.char_xAdvance g = Font.char_width g
       ∧ ∃ w, Font.page_width (128, 64, 128) (Font.char_page g) = Some w
              ∧ 0 ≤ Font.char_x g
              ∧ Font.char_x g + Font.char_width g ≤ w.
Proof.
  eexists. split; [by vm_compute|].
  apply (glyph_cell_within_page FontSamples.two_providers 128 64 128
           FontSamples.two_providers_table 48%N); try lia.
  - repeat (apply Forall_cons; split; [right; by eexists|]). apply Forall_nil_2.
  - by vm_compute.
  - by vm_compute.
Defined.

Lemma glyph_table_domain_witness :
  is_Some (FontSamples.two_providers_table !! 233%N)
  ∧ FontSamples.two_providers_table !! 65%N = None.
Proof.
  assert (Hrec : Font.recognised FontSamples.two_providers).
  { repeat (apply Forall_cons; split; [right; by eexists|]). apply Forall_nil_2. }
  pose proof (glyph_table_domain FontSamples.two_providers (128, 64, 128)
                FontSamples.two_providers_table 233%N Hrec eq_refl) as Hdomain.
  split.
  - apply Hdomain. exists FontSamples.accented_row. split.
    + unfold FontSamples.two_providers. cbn [Font.providers].
      apply elem_of_app. right. apply list_elem_of_singleton. reflexivity.
    + eexists. split; [apply list_elem_of_singleton; reflexivity|].
      rewrite !elem_of_cons. auto.
  - by vm_compute.
Defined.
End FurtherExamples.

(** ** The runs of a tooltip *)

Section TooltipRuns.
Import Tooltip TooltipFacts.
Context `{Pixi}.

Lemma queue_texts_app (p q : list (MCText * fill)) :
  queue_texts (p ++ q) = (queue_texts p ++ queue_texts q)%list.
Proof. unfold queue_texts. by rewrite map_app, concat_app. Qed.

Lemma queue_texts_children (items : list MCText) (c : fill) :
  queue_texts (map (fun t => (t, c)) items) = concat (map texts_of items).
Proof. unfold queue_texts. by rewrite map_map. Qed.

Lemma queue_accepted_app (p q : list (MCText * fill)) :
  queue_accepted (p ++ q) = queue_accepted p && queue_accepted q.
Proof. unfold queue_accepted. apply forallb_app. Qed.

Lemma queue_accepted_children (items : list MCText) (c : fill) :
  queue_accepted (map (fun t => (t, c)) items) = forallb colours_accepted items.
Proof.
  unfold queue_accepted. induction items as [|t items IH]; [done|].
  cbn [map forallb fst]. by rewrite IH.
Qed.

Lemma text_fill_accepted (color : option string) (parentColor : fill) :
  match text_fill color parentColor with
  | Some _ => colour_accepted color = true
  | None => colour_accepted color = false
  end.
Proof.
  unfold text_fill, colour_accepted, toPIXIColor. destruct color as [c|]; [|done].
  destruct (String.eqb c ""); [done|]. cbn [orb].
  destruct (in_DEFAULT_TEXT_STYLE c); [done|]. cbn [orb].
  by destruct (color_valid c).
Qed.

(** The loop over a line ends without a throw exactly when every
    object in its queue has an accepted colour, and it has then placed
    the texts of the queue after those it had placed. *)
Lemma line_loop_result (y : Z) (parts : list (MCText * fill)) (ls : line_state) :
  match line_loop y parts ls with
  | Some ls' =>
      queue_accepted parts = true
      ∧ run_text <$> placed ls' ≡ₚ (run_text <$> placed ls) ++ queue_texts parts
  | None => queue_accepted parts = false
  end.
Proof.
  funelim (line_loop y parts ls); simp line_loop.
  - split; [done|]. unfold queue_texts. cbn [map concat]. by rewrite app_nil_r.
  - destruct (line_loop currentY0 rest (place top parentColor currentY0 ls)) as [ls'|].
    + destruct H0 as [Hok Hperm]. split; [done|]. rewrite Hperm.
      unfold place. cbn [placed]. rewrite fmap_app.
      unfold queue_texts. cbn [map concat fst texts_of fmap list_fmap run_text].
      by rewrite <- app_assoc.
    + done.
  - rewrite queue_accepted_app, queue_accepted_children in H0.
    change (queue_accepted ((MArray items, parentColor) :: rest))
      with (forallb colours_accepted items && queue_accepted rest).
    rewrite andb_comm.
    destruct (line_loop currentY0 _ ls) as [ls'|]; [|done].
    destruct H0 as [Hok Hperm]. split; [done|]. rewrite Hperm.
    rewrite queue_texts_app, queue_texts_children.
    unfold queue_texts. cbn [map concat fst texts_of].
    by rewrite <- (Permutation_app_comm (concat (map texts_of items))).
  - pose proof (text_fill_accepted color parentColor) as Hfill. rewrite Heq in Hfill.
    assert (Hqueue : queue_accepted ((MObject text color extra, parentColor) :: rest) =
                     queue_accepted
                       (rest ++ match extra with
                                | Some children =>
                                    map (fun child =>
                                           (child, match color with
                                                   | Some c => RawColor c
                                                   | None => parentColor
                                                   end)) children
                                | None => []
                                end)).
    { rewrite queue_accepted_app. unfold queue_accepted at 1.
      cbn [forallb fst colours_accepted]. rewrite Hfill. cbn [andb].
      fold (queue_accepted rest). rewrite andb_comm. f_equal.
      destruct extra as [children|]; [by rewrite queue_accepted_children | done]. }
    rewrite Hqueue.
    destruct (line_loop currentY0 _ (place text f currentY0 ls)) as [ls'|]; [|done].
    destruct H0 as [Hok Hperm]. split; [done|]. rewrite Hperm.
    unfold place. cbn [placed]. rewrite fmap_app, queue_texts_app.
    cbn [fmap list_fmap run_text]. rewrite <- !app_assoc. cbn [app].
    apply Permutation_app_head.
    change (queue_texts ((MObject text color extra, parentColor) :: rest))
      with (text :: match extra with
                    | Some children => concat (map texts_of children)
                    | None => []
                    end ++ queue_texts rest).
    apply Permutation_cons; [done|].
    destruct extra as [children|].
    + rewrite queue_texts_children. apply Permutation_app_comm.
    + unfold queue_texts at 2. cbn [map concat]. by rewrite !app_nil_r.
  - pose proof (text_fill_accepted color parentColor) as Hfill. rewrite Heq in Hfill.
    unfold queue_accepted. cbn [forallb fst colours_accepted]. by rewrite Hfill.
Qed.

Lemma layout_loop_invariant (I : layout → Prop) (lines : list MCText) (l l' : layout) :
  (∀ l0 line l1, I l0 → layout_line l0 line = Some l1 → I l1) →
  I l → layout_loop lines l = Some l' → I l'.
Proof.
  intros Hline. revert l. induction lines as [|line lines IH]; intros l Hl Hrun.
  - by injection Hrun as <-.
  - cbn [layout_loop] in Hrun. destruct (layout_line l line) as [l1|] eqn:Hl1; [|done].
    eapply IH; [|exact Hrun]. by eapply Hline.
Qed.

Lemma layout_loop_result (lines : list MCText) (l : layout) :
  match layout_loop lines l with
  | Some l' =>
      forallb colours_accepted lines = true
      ∧ run_text <$> runs l' ≡ₚ (run_text <$> runs l) ++ concat (map texts_of lines)
  | None => forallb colours_accepted lines = false
  end.
Proof.
  revert l. induction lines as [|line lines IH]; intros l.
  - cbn. split; [done|]. by rewrite app_nil_r.
  - cbn [layout_loop forallb map concat]. unfold layout_line.
    pose proof (line_loop_result (currentY l) [(line, TOOLTIP_DEFAULT_TEXT_COLOR)]
                  {| currentX := 0; textHeight := 0; placed := [] |}) as Hline.
    unfold queue_accepted, queue_texts in Hline.
    cbn [forallb map concat fst placed fmap list_fmap app] in Hline.
    rewrite andb_true_r, app_nil_r in Hline.
    destruct (line_loop (currentY l) _ _) as [ls|]; [|by rewrite Hline].
    destruct Hline as [-> Hperm]. cbn [andb].
    match goal with
    | |- context [layout_loop lines ?l1] => specialize (IH l1)
    end.
    destruct (layout_loop lines _) as [l'|]; [|done].
    destruct IH as [Hok Hall]. split; [done|]. rewrite Hall. cbn [runs].
    by rewrite fmap_app, Hperm, <- app_assoc.
Qed.

(** [buildTooltip] throws exactly when the colour of some object of
    the lines is a string that is not empty, is no name of the default
    style and that [new PIXI.Color] cannot convert. Otherwise every
    string and every [text] field of the lines is drawn exactly once,
    and nothing else is drawn: the texts of the runs are those of the
    lines, up to order. *)
Theorem tooltip_draws_each_text_once (lines : list MCText) :
  match buildTooltip lines with
  | Some t =>
      forallb colours_accepted lines = true
      ∧ run_text <$> text_runs t ≡ₚ concat (map texts_of lines)
  | None => forallb colours_accepted lines = false
  end.
Proof.
  unfold buildTooltip, layout_lines.
  pose proof (layout_loop_result lines {| currentY := 0; maxWidth := 0; runs := [] |})
    as Hresult.
  destruct (layout_loop lines _) as [l|]; [|done].
  cbn [text_runs]. exact Hresult.
Qed.

Lemma side_by_side_within (x : Z) (rs : list run) :
  (∀ s, 0 ≤ text_width s) →
  side_by_side x rs →
  Forall (fun r => x ≤ run_x r ∧ run_x r + text_width (run_text r) ≤ x + total_width rs) rs.
Proof.
  intros Hwidth. revert x. induction rs as [|r rs IH]; intros x Hside; [constructor|].
  destruct Hside as [Hx Hside]. cbn [total_width foldr].
  fold (total_width rs).
  assert (Htotal : 0 ≤ total_width rs).
  { clear -Hwidth. induction rs as [|r0 rs IHrs]; cbn [total_width foldr]; [done|].
    fold (total_width rs). pose proof (Hwidth (run_text r0)). lia. }
  constructor.
  - pose proof (Hwidth (run_text r)). lia.
  - eapply Forall_impl; [apply IH, Hside|]. cbn beta. intros r' [Hlo Hhi].
    pose proof (Hwidth (run_text r)). lia.
Qed.

Lemma textHeight_nonneg (y : Z) (parts : list (MCText * fill)) (ls ls' : line_state) :
  0 ≤ textHeight ls → line_loop y parts ls = Some ls' → 0 ≤ textHeight ls'.
Proof.
  apply (line_loop_invariant (fun ls => 0 ≤ textHeight ls)).
  intros text f ls0 _. unfold place. cbn [textHeight]. lia.
Qed.

(** When no text has a negative width, every run of a tooltip that is
    built lies within the text area of the panel from left to right,
    and starts within it from top to bottom: the panel is at least as
    wide as the widest line with the padding on both sides, and never
    lower than the padding. *)
Theorem tooltip_runs_inside_panel (lines : list MCText) (t : tooltip) (r : run) :
  (∀ s, 0 ≤ text_width s) →
  buildTooltip lines = Some t →
  r ∈ text_runs t →
  0 ≤ run_x r
  ∧ text_x t + run_x r + text_width (run_text r) ≤ panel_width t - text_x t
  ∧ 0 ≤ run_y r
  ∧ text_y t + run_y r ≤ panel_height t - text_y t.
Proof.
  intros Hwidth Hbuilt Hr. unfold buildTooltip, layout_lines in Hbuilt.
  destruct (layout_loop lines _) as [l|] eqn:Hlayout; [|done].
  injection Hbuilt as <-. cbn [text_runs] in Hr.
  assert (Hinv : 0 ≤ currentY l
                 ∧ Forall (fun r => 0 ≤ run_x r
                                    ∧ run_x r + text_width (run_text r) ≤ maxWidth l
                                    ∧ 0 ≤ run_y r
                                    ∧ run_y r ≤ currentY l) (runs l)).
  { revert Hlayout.
    apply (layout_loop_invariant
             (fun l => 0 ≤ currentY l
                       ∧ Forall (fun r => 0 ≤ run_x r
                                          ∧ run_x r + text_width (run_text r) ≤ maxWidth l
                                          ∧ 0 ≤ run_y r
                                          ∧ run_y r ≤ currentY l) (runs l))).
    - intros l0 line l1 [Hy Hruns] Hline. unfold layout_line in Hline.
      destruct (line_loop (currentY l0) _ _) as [ls|] eqn:Hloop; [|done].
      injection Hline as <-.
      pose proof (line_loop_horizontal _ _ _ _ Hloop) as (Hside & Hx & Hsame).
      assert (Hheight : 0 ≤ textHeight ls)
        by (eapply textHeight_nonneg; [|exact Hloop]; cbn; lia).
      apply (side_by_side_within 0 _ Hwidth) in Hside.
      cbn [currentY maxWidth runs]. split; [lia|].
      apply Forall_app. split.
      + eapply Forall_impl; [exact Hruns|]. cbn beta. intros r' (? & ? & ? & ?).
        repeat split; lia.
      + rewrite Forall_forall in Hside, Hsame. apply Forall_forall. intros r' Hr'.
        destruct (Hside r' Hr') as [Hlo Hhi]. rewrite (Hsame r' Hr').
        repeat split; lia.
    - cbn. split; [done | constructor]. }
  destruct Hinv as [Hy Hruns]. rewrite Forall_forall in Hruns.
  destruct (Hruns r Hr) as (? & ? & ? & ?).
  cbn [text_x text_y panel_width panel_height].
  unfold TOOLTIP_PADDING_OUT_X, TOOLTIP_PADDING_OUT_Y, TOOLTIP_PADDING_INNER_X,
    TOOLTIP_PADDING_INNER_Y.
  repeat split; lia.
Qed.


End TooltipRuns.

Lemma tooltip_runs_inside_panel_witness :
  ∃ t,
    Tooltip.buildTooltip (H := Sample.pixi) [Sample.uneven_line] = Some t
    ∧ let r := {| Tooltip.run_text := "c"; Tooltip.run_fill := Tooltip.TOOLTIP_DEFAULT_TEXT_COLOR;
                  Tooltip.run_x := 24; Tooltip.run_y := 0 |} in
      0 ≤ Tooltip.run_x r
      ∧ Tooltip.text_x t + Tooltip.run_x r
        + Tooltip.text_width (Pixi := Sample.pixi) (Tooltip.run_text r)
        ≤ Tooltip.panel_width t - Tooltip.text_x t
      ∧ 0 ≤ Tooltip.run_y r
      ∧ Tooltip.text_y t + Tooltip.run_y r ≤ Tooltip.panel_height t - Tooltip.text_y t.
Proof.
  eexists. split; [vm_compute; reflexivity|].
  apply (tooltip_runs_inside_panel (H := Sample.pixi) [Sample.uneven_line]).
  - intros s. cbn. lia.
  - vm_compute. reflexivity.
  - vm_compute. constructor 2. constructor 1.
Defined.


(** ** Edits of the side panel *)

Section PanelEdits.
Import Proto Host AppPosts AppEdits.
Context `{Node} `{App.Constants}.

Lemma handle_components (e : edit) (old : option mc.IItem) (item item' : mc.IItem) :
  old = Some item → handle e old = Some item' →
  dom (mc.components item) ⊆ dom (mc.components item').
Proof.
  intros -> Hhandle.
  destruct e; cbn in Hhandle; injection Hhandle as <-; cbn [mc.components];
    rewrite ?dom_insert; set_solver.
Qed.

Lemma handle_open (e : edit) (item : mc.IItem) : is_Some (handle e (Some item)).
Proof. destruct e; by eexists. Qed.

(** No edit of the side panel removes a component or closes the item:
    after any sequence of edits the item is still open and has every
    component it had. Adding a component the item already has empties
    its value. The edits leave the textures, the resources and the
    lists of versions and components as they were. *)
Theorem edits_never_remove_components (es : list edit) (st : App.state)
    (item : mc.IItem) :
  App.editedItem st = Some item →
  (∃ item', App.editedItem (apply_edits es st) = Some item'
            ∧ dom (mc.components item) ⊆ dom (mc.components item'))
  ∧ (∀ component,
       ∃ item', App.editedItem (apply_edit (ComponentAdded component) st).1 = Some item'
                ∧ mc.components item' !! component = Some "")
  ∧ App.itemTextures (apply_edits es st) = App.itemTextures st
  ∧ App.resources (apply_edits es st) = App.resources st
  ∧ App.minecraftVersions (apply_edits es st) = App.minecraftVersions st
  ∧ App.itemComponents (apply_edits es st) = App.itemComponents st.
Proof.
  intros Hitem. split; [|split].
  - revert st item Hitem. induction es as [|e es IH]; intros st item Hitem.
    + by exists item.
    + cbn [apply_edits fold_left]. fold (apply_edits es (apply_edit e st).1).
      unfold apply_edit. rewrite Hitem.
      destruct (handle_open e item) as [item1 Hhandle]. rewrite Hhandle. cbn [fst].
      match goal with
      | |- context [apply_edits es ?st1] =>
          destruct (IH st1 item1 eq_refl) as (item' & Hfinal & Hdom)
      end.
      exists item'. split; [done|].
      etrans; [exact (handle_components e (Some item) item item1 eq_refl Hhandle) | done].
  - intros component. unfold apply_edit. rewrite Hitem. cbn.
    eexists. split; [done|]. cbn. apply lookup_insert_eq.
  - clear item Hitem. revert st. induction es as [|e es IH]; intros st; [done|].
    cbn [apply_edits fold_left]. fold (apply_edits es (apply_edit e st).1).
    destruct (IH (apply_edit e st).1) as (-> & -> & -> & ->).
    unfold apply_edit. by destruct (handle e (App.editedItem st)).
Qed.

(** An edit reaches the document unless it leaves the count [NaN]. The
    first message an edit posts is [update-item] with the edited item,
    the second asks for its texture, and the four resources are asked
    for again exactly when the version is not the one the item had.
    When the count of the edited item is a number and the host handles
    the first message, the hash of the document is that of the edited
    item, whatever the awaited operations do. When the count is [NaN],
    as after the count field was emptied and until a count is entered
    again, the first two messages fail validation: the host logs them
    and leaves the document, its hash, the change events and what it
    has posted as they were. *)
Theorem edit_reaches_document (e : edit) (st : App.state) (item' : mc.IItem)
    (versions : list string) (world : ∀ q, option (answer q)) (h : host) :
  handle e (App.editedItem st) = Some item' →
  let update := post_to_json (App.PostUpdateItem item') in
  let texture := post_to_json (App.PostGetItemTexture item') in
  (apply_edit e st).2 =
    ([App.PostUpdateItem item'; App.PostGetItemTexture item'] ++
     if bool_decide (mc.minecraftVersion <$> App.editedItem st
                     = Some (mc.minecraftVersion item'))
     then []
     else App.requestResource (mc.minecraftVersion item') <$> requested_paths)%list
  ∧ (∀ z, mc.count item' = mc.Num z →
       document_hash (exec world (onDidReceiveMessage versions update) h).1
       = Some (hashItem {| minecraftVersion := mc.minecraftVersion item';
                           id := mc.id item'; count := z;
                           components := mc.components item' |}))
  ∧ (mc.count item' = mc.NaN →
       ClientMessages_safeParse update = None
       ∧ ClientMessages_safeParse texture = None
       ∧ ∀ data, data = update ∨ data = texture →
           exec world (onDidReceiveMessage versions data) h =
           ({| document_item := document_item h;
               document_hash := document_hash h;
               posted := posted h;
               console := console h ++ [("CLIENT MESSAGE", data)];
               changes_fired := changes_fired h |}, true))
  ∧ (∀ item, App.editedItem st = Some item →
       e = CountChanged mc.NaN ∨ (mc.count item = mc.NaN ∧ ∀ n, e ≠ CountChanged n) →
       mc.count item' = mc.NaN).
Proof.
  intros Hhandle update texture. split; [|split; [|split]].
  - unfold apply_edit. rewrite Hhandle. cbn [snd App.item_effects].
    by destruct (bool_decide _).
  - intros z Hcount. subst update. unfold onDidReceiveMessage.
    rewrite ClientMessages_safeParse_post.
    destruct item' as [version itemId n cs]. cbn in Hcount. subst n.
    cbn [validated Item_of_IItem mc.count mc.minecraftVersion mc.id mc.components
           fmap option_fmap option_map].
    set (item := {| minecraftVersion := version; id := itemId; count := z;
                    components := cs |}).
    cbn [exec].
    assert (Hwrite : ∀ h0, document_hash (document_write item h0) = Some (hashItem item)).
    { intros h0. unfold document_write.
      destruct (document_hash h0) as [old|] eqn:Hold; [|done].
      destruct (String.eqb_spec old (hashItem item)) as [->|]; cbn [negb]; done. }
    destruct (world (GetItemComponents (minecraftVersion item))); cbn [exec fst];
      cbn [document_hash]; apply Hwrite.
  - intros Hcount. subst update texture.
    destruct (ClientMessages_safeParse_NaN item' Hcount) as [Hupdate Htexture].
    split; [done|]. split; [done|].
    intros data [-> | ->]; unfold onDidReceiveMessage;
      [rewrite Hupdate | rewrite Htexture]; reflexivity.
  - intros item Hitem Hedit. rewrite Hitem in Hhandle.
    destruct Hedit as [-> | [Hcount Hother]].
    + cbn in Hhandle. by injection Hhandle as <-.
    + destruct e; cbn in Hhandle; injection Hhandle as <-; cbn [mc.count]; try done.
      by destruct (Hother itemCount).
Qed.
End PanelEdits.

(** ** Sessions *)

Section Sessions.
Import JS Proto Host HostFacts AppPosts AppEdits Session SessionFacts.
Context `{Node} `{App.Constants}.

Lemma item_effects_ask_requested (old new : option mc.IItem) :
  Forall asks_requested (App.item_effects old new).
Proof.
  unfold App.item_effects. destruct new as [item|]; [|constructor].
  cbn [app]. apply Forall_cons. split; [exact I|]. apply Forall_cons. split; [exact I|].
  destruct (bool_decide _); [constructor|].
  unfold App.requestResource, requested_paths.
  repeat (apply Forall_cons; split;
          [cbn [asks_requested]; unfold requested_paths; rewrite !elem_of_cons; tauto|]).
  constructor.
Qed.

Lemma posts_ask_requested (ps : list App.post) :
  Forall asks_requested ps →
  Forall (fun data => ∃ p, data = post_to_json p ∧ asks_requested p)
    (post_to_json <$> ps).
Proof.
  intros Hps. apply Forall_fmap. eapply Forall_impl; [exact Hps|].
  intros p Hp. by exists p.
Qed.

Lemma handler_answers_requested (versions : list string) (world : ∀ q, option (answer q))
    (p : App.post) (h : host) :
  asks_requested p →
  Forall answers_requested (posted h) →
  Forall answers_requested
    (posted (exec world (onDidReceiveMessage versions (post_to_json p)) h).1).
Proof.
  intros Hp Hposted. unfold onDidReceiveMessage.
  rewrite ClientMessages_safeParse_post.
  destruct p as [|[v i [z|] cs]|[v i [z|] cs]|version resource];
    cbn [validated Item_of_IItem mc.count fmap option_fmap option_map exec];
    repeat (cbn [exec fst];
            match goal with
            | |- context [world ?q] => destruct (world q)
            | |- context [if negb ?b then _ else _] => destruct (negb b)
            | |- context [has_version ?i] => destruct (has_version i)
            end);
    cbn [exec fst posted]; rewrite ?document_write_posted; cbn [posted];
    rewrite ?Forall_app, ?Forall_singleton; repeat split; done.
Qed.

Lemma step_only_requested (versions : list string) (s : system) (a : action) :
  only_requested s → only_requested (step versions s a).
Proof.
  intros (Hto & Hposted & Hkeys). destruct a as [world| |e]; cbn [step].
  - destruct (to_host s) as [|data rest] eqn:Hqueue.
    { split; [by rewrite Hqueue | by split]. }
    apply Forall_cons in Hto as [(p & -> & Hp) Hrest].
    split; [exact Hrest|]. split; [by apply handler_answers_requested | exact Hkeys].
  - destruct (posted (ext s) !! delivered s) as [m|] eqn:Hm; [|by split; [|split]].
    assert (Hanswer : answers_requested m).
    { rewrite Forall_forall in Hposted. eapply Hposted, list_elem_of_lookup_2, Hm. }
    unfold App.onMessage. rewrite ServerMessages_safeParse_posted.
    destruct m as [item texture|item|vs|version resource texture|cs];
      cbn [fst snd app ext to_host App.resources fmap list_fmap];
      (split; [|split; [done|]]); rewrite ?app_nil_r; try done.
    + apply Forall_app. split; [done|].
      apply posts_ask_requested, item_effects_ask_requested.
    + intros key. cbn [app App.resources].
      destruct (decide (key = hashResource version resource)) as [->|Hne].
      * intros _. by exists version, resource.
      * rewrite lookup_insert_ne by done. apply Hkeys.
  - unfold apply_edit. destruct (handle e (App.editedItem (app s))) as [item|].
    + cbn [fst snd app ext to_host App.resources]. split; [|done].
      apply Forall_app. split; [done|].
      apply posts_ask_requested, item_effects_ask_requested.
    + cbn [fst snd fmap list_fmap]. by rewrite app_nil_r.
Qed.

Lemma run_only_requested (versions : list string) (actions : list action) (s : system) :
  only_requested s → only_requested (run versions actions s).
Proof.
  revert s. induction actions as [|a actions IH]; intros s Hs; [done|].
  apply IH. by apply step_only_requested.
Qed.

(** The panel asks the host for four paths of a version and never for
    the font manifest, and the host answers requests only. So in a
    session, whatever the user edits and however the awaited
    operations end, every key of the resources of the panel is the
    key of one of the four paths, and the condition under which
    [tryLoadFonts] loads the fonts holds only if the key of the font
    manifest is also the key of one of the four paths. *)
Theorem fonts_load_only_on_key_collision (versions : list string)
    (actions : list action) (h : host) (item : Item) :
  Forall answers_requested (posted h) →
  let s := run versions actions (mounted h) in
  (∀ key, is_Some (App.resources (app s) !! key) → requested_key key)
  ∧ (fonts_available item (App.resources (app s)) = true →
     requested_key (hashResource (minecraftVersion item) App.FONT_DATA_JSON)).
Proof.
  intros Hposted s.
  assert (Hs : only_requested s).
  { apply run_only_requested. split; [|split; [done|]].
    - apply Forall_singleton. by exists App.PostReady.
    - intros key. cbn. rewrite lookup_empty. by intros [? ?]. }
  destruct Hs as (_ & _ & Hkeys). split; [done|].
  unfold fonts_available. rewrite !andb_true_iff, !bool_decide_eq_true.
  intros (_ & Hdata). by apply Hkeys.
Qed.

(** Opening does not change the document: when the panel says it is
    ready, the host posts the item of the document first; the panel
    answers that message with [update-item] for the same item; and
    when the host handles this answer, the document keeps its item
    and its hash and no change event is fired. *)
Theorem opening_fires_no_change (versions : list string)
    (world world' : ∀ q, option (answer q)) (h : host) (item : Item) (st : App.state) :
  document_consistent h →
  document_item h = Some item →
  let h1 := (exec world (onDidReceiveMessage versions (post_to_json App.PostReady)) h).1 in
  let answer := App.onMessage (ServerMessage_to_json (ServerUpdateItem (Some item))) st in
  let h2 := (exec world'
               (onDidReceiveMessage versions
                  (post_to_json (App.PostUpdateItem (IItem_of_Item item)))) h1).1 in
  (∃ rest, posted h1 =
           (posted h ++ ServerUpdateItem (Some item)
                        :: UpdateMinecraftVersions versions :: rest)%list)
  ∧ (∃ requests, answer.2 = App.PostUpdateItem (IItem_of_Item item)
                            :: App.PostGetItemTexture (IItem_of_Item item) :: requests)
  ∧ ClientMessages_safeParse (post_to_json (App.PostUpdateItem (IItem_of_Item item)))
    = Some (ClientUpdateItem (Some item))
  ∧ document_item h2 = Some item
  ∧ document_hash h2 = document_hash h
  ∧ changes_fired h2 = changes_fired h.
Proof.
  intros Hconsistent Hitem h1 answer h2.
  assert (Hh1 : document_item h1 = Some item ∧ document_hash h1 = document_hash h
                ∧ changes_fired h1 = changes_fired h
                ∧ ∃ rest, posted h1 =
                          (posted h ++ ServerUpdateItem (Some item)
                                       :: UpdateMinecraftVersions versions :: rest)%list).
  { subst h1. unfold onDidReceiveMessage.
    rewrite ClientMessages_safeParse_post. cbn [validated].
    cbn [exec document_item]. rewrite Hitem.
    destruct (has_version (Some item)) as [version|]; cbn [exec];
      [destruct (world (GetItemComponents version))|]; cbn [exec fst document_item
        document_hash changes_fired posted];
      repeat split; try done; rewrite <- ?app_assoc; cbn [app]; by eexists. }
  destruct Hh1 as (Hitem1 & Hhash1 & Hfired1 & Hposted1).
  subst h2. clearbody h1.
  split; [done|]. split.
  { subst answer. unfold App.onMessage. rewrite ServerMessages_safeParse_posted.
    cbn [snd App.item_effects app fmap option_fmap option_map]. by eexists. }
  assert (Hparse : ClientMessages_safeParse
                     (post_to_json (App.PostUpdateItem (IItem_of_Item item)))
                   = Some (ClientUpdateItem (Some item))).
  { apply (ClientMessages_safeParse_posted (ClientUpdateItem (Some item))). }
  split; [done|].
  assert (Hwrite : ∀ h', document_hash h' = document_hash h →
                         document_write item h' = h').
  { intros h' Hhash'. unfold document_write. rewrite Hhash', Hconsistent, Hitem. cbn.
    by rewrite String.eqb_refl. }
  unfold onDidReceiveMessage. rewrite Hparse.
  cbn [exec]. rewrite Hwrite by done.
  destruct (world' (GetItemComponents (minecraftVersion item))); cbn [exec fst
    document_item document_hash changes_fired]; done.
Qed.

(** What is saved is what opens: the file [saveCustomDocumentAs]
    writes is on the disk at the destination, and a document
    initialised from it holds the item that was saved, [null]
    included, with a hash that fits. *)
Theorem save_then_open (h h0 : host) (destination : string) (fs : gmap string entry) :
  document_item h0 = None →
  document_hash h0 = None →
  ∃ e, saveCustomDocumentAs h destination fs !! destination = Some e
       ∧ document_item (document_init (content e) h0) = document_item h
       ∧ document_consistent (document_init (content e) h0).
Proof.
  intros Hitem0 Hhash0. unfold saveCustomDocumentAs. rewrite lookup_insert_eq.
  eexists. split; [done|]. cbn [content own document_init].
  destruct (document_item h) as [item|]; cbn [document_to_json].
  - unfold Item_parse.
    assert (Hi := Item_schema_to_json item).
    destruct (Item_to_json item) eqn:Hj; try discriminate Hj.
    rewrite Hi. by cbn.
  - cbn. unfold document_consistent. by rewrite Hitem0, Hhash0.
Qed.
End Sessions.

Section SessionExamples.
Import JS Proto Host HostFacts HostSamples AppPosts AppEdits Session SessionFacts
  SessionSamples.
Existing Instance Sample.node.
Existing Instance Sample.constants.

(** The count field is emptied, a component is changed and the id is
    edited: the item keeps its components. *)
Lemma edits_never_remove_components_witness :
  ∃ item',
    App.editedItem
      (apply_edits [CountChanged mc.NaN; ComponentChanged Preview.ENCHANTMENTS "{}";
                    IdChanged "minecraft:egg"]
         {| App.minecraftVersions := []; App.itemTextures := ∅; App.resources := ∅;
            App.editedItem := Some (IItem_of_Item Sample.sharp_stick);
            App.itemComponents := [] |})
    = Some item'
    ∧ dom (mc.components (IItem_of_Item Sample.sharp_stick)) ⊆ dom (mc.components item').
Proof.
  apply (edits_never_remove_components
           [CountChanged mc.NaN; ComponentChanged Preview.ENCHANTMENTS "{}";
            IdChanged "minecraft:egg"]
           {| App.minecraftVersions := []; App.itemTextures := ∅; App.resources := ∅;
              App.editedItem := Some (IItem_of_Item Sample.sharp_stick);
              App.itemComponents := [] |}
           (IItem_of_Item Sample.sharp_stick)).
  reflexivity.
Defined.

(** Choosing a version on an empty document writes the default item.
    Emptying the count field of an open item writes nothing: the
    message fails validation. *)
Lemma edit_reaches_document_witness :
  document_hash
    (exec nothing
       (onDidReceiveMessage ["1.21"]
          (post_to_json
             (App.PostUpdateItem
                {| mc.minecraftVersion := "1.21"; mc.id := "stone"; mc.count := mc.Num 1;
                   mc.components := ∅ |})))
       fresh).1
  = Some (hashItem {| minecraftVersion := "1.21"; id := "stone"; count := 1;
                      components := ∅ |})
  ∧ ClientMessages_safeParse
      (post_to_json
         (App.PostUpdateItem
            {| mc.minecraftVersion := minecraftVersion Sample.sharp_stick;
               mc.id := id Sample.sharp_stick; mc.count := mc.NaN;
               mc.components := components Sample.sharp_stick |})) = None.
Proof.
  split.
  - pose proof (edit_reaches_document (VersionChanged "1.21") App.initial
                  {| mc.minecraftVersion := "1.21"; mc.id := "stone";
                     mc.count := mc.Num 1; mc.components := ∅ |}
                  ["1.21"] nothing fresh eq_refl) as Hedit.
    cbv zeta in Hedit. destruct Hedit as (_ & Hnumber & _).
    exact (Hnumber 1 eq_refl).
  - pose proof (edit_reaches_document (CountChanged mc.NaN)
                  {| App.minecraftVersions := []; App.itemTextures := ∅;
                     App.resources := ∅;
                     App.editedItem := Some (IItem_of_Item Sample.sharp_stick);
                     App.itemComponents := [] |}
                  {| mc.minecraftVersion := minecraftVersion Sample.sharp_stick;
                     mc.id := id Sample.sharp_stick; mc.count := mc.NaN;
                     mc.components := components Sample.sharp_stick |}
                  ["1.21"] nothing fresh eq_refl) as Hedit.
    cbv zeta in Hedit. destruct Hedit as (_ & _ & Hnan & _).
    exact (proj1 (Hnan eq_refl)).
Defined.

Lemma fonts_load_only_on_key_collision_witness :
  requested_key (hashResource "1.21" App.GLINT_TEXTURE_PATH).
Proof.
  assert (Hposted : Forall answers_requested (posted fresh)) by constructor.
  apply (proj1 (fonts_load_only_on_key_collision ["1.20"; "1.21"] choose_version fresh
                  Sample.plain_stick Hposted)).
  vm_compute. by eexists.
Defined.

Lemma opening_fires_no_change_witness :
  changes_fired
    (exec everything
       (onDidReceiveMessage ["1.21"]
          (ClientMessage_to_json (ClientUpdateItem (Some Sample.sharp_stick))))
       (exec everything (onDidReceiveMessage ["1.21"] (ClientMessage_to_json Ready))
          (document_write Sample.sharp_stick fresh)).1).1
  = changes_fired (document_write Sample.sharp_stick fresh).
Proof.
  apply (opening_fires_no_change ["1.21"] everything everything
           (document_write Sample.sharp_stick fresh) Sample.sharp_stick App.initial);
    reflexivity.
Defined.

Lemma save_then_open_witness :
  ∃ e, saveCustomDocumentAs (document_write Sample.sharp_stick fresh) "stick.item" ∅
         !! "stick.item" = Some e
       ∧ document_item (document_init (content e) fresh) = Some Sample.sharp_stick
       ∧ document_consistent (document_init (content e) fresh).
Proof.
  apply (save_then_open (document_write Sample.sharp_stick fresh) fresh "stick.item" ∅);
    reflexivity.
Defined.
End SessionExamples.

(** ** The preview *)

Section PreviewFacts.
Import Preview PreviewState.
Context `{NBT} `{App.Constants}.

Lemma tryLoadEditedTexture_glint (p : preview) :
  isEnchanted (tryLoadEditedTexture p) = isEnchanted p
  ∧ _editedItem (tryLoadEditedTexture p) = _editedItem p.
Proof.
  unfold tryLoadEditedTexture.
  destruct (_editedItem p) as [item|] eqn:Hitem; [|done].
  by destruct (_textures p !! hashItemTexture item).
Qed.

Lemma step_keeps_glint (p : preview) (ev : event) :
  plain p → keeps_plain ev → isEnchanted p = 1 →
  plain (step p ev) ∧ isEnchanted (step p ev) = 1.
Proof.
  intros Hplain Hev Hglint. destruct ev as [textures|resources|item|k|k]; cbn [step].
  - destruct (tryLoadEditedTexture_glint
                {| _resources := _resources p; _textures := textures;
                   _editedItem := _editedItem p; hasTexture := hasTexture p;
                   uItemSampler := uItemSampler p; isEnchanted := isEnchanted p;
                   uGlintSampler := uGlintSampler p; loading := loading p |})
      as [Hg Hi].
    split; [|by rewrite Hg]. unfold plain. by rewrite Hi.
  - done.
  - destruct (tryLoadEditedTexture_glint
                {| _resources := _resources p; _textures := _textures p;
                   _editedItem := item; hasTexture := hasTexture p;
                   uItemSampler := uItemSampler p; isEnchanted := isEnchanted p;
                   uGlintSampler := uGlintSampler p; loading := loading p |})
      as [Hg Hi].
    split; [|by rewrite Hg]. unfold plain. rewrite Hi. cbn [_editedItem].
    intros item' ->. exact Hev.
  - destruct (loading p !! k) as [[data|data]|]; [| |done].
    + cbn [resume set_item_texture set_loading _editedItem].
      destruct (_editedItem p) as [item|] eqn:Hitem; [|by split; [intros ?; cbn; rewrite Hitem|]].
      rewrite (Hplain item Hitem).
      split; [|done]. intros item'. cbn. rewrite Hitem. intros [= <-]. by apply Hplain.
    + cbn [resume set_glint set_loading]. split; [|done]. exact Hplain.
  - destruct (loading p !! k); [|done]. split; [exact Hplain | done].
Qed.

(** An edit that removes the enchantment does not switch the glint
    off: once the glint is on, it stays on when the preview is handed
    an item that is not enchanted (or none), and through every later
    event but [onResources] while it is handed no enchanted item: new
    textures, and loads that end well or badly. *)
Theorem glint_stays_after_enchantment_removed (evs : list event) (p : preview)
    (item : option Item) :
  isEnchanted p = 1 →
  keeps_plain (OnEditedItem item) →
  Forall keeps_plain evs →
  isEnchanted (run (OnEditedItem item :: evs) p) = 1.
Proof.
  intros Hglint Hitem Hevs. cbn [run fold_left].
  assert (Hfirst : plain (step p (OnEditedItem item))
                   ∧ isEnchanted (step p (OnEditedItem item)) = 1).
  { cbn [step].
    match goal with
    | |- context [tryLoadEditedTexture ?q] =>
        destruct (tryLoadEditedTexture_glint q) as [Hg Hi]
    end.
    split; [|by rewrite Hg]. unfold plain. rewrite Hi. cbn [_editedItem].
    intros item' ->. exact Hitem. }
  destruct Hfirst as [Hplain Hglint'].
  revert Hplain Hglint'. generalize (step p (OnEditedItem item)). clear p Hglint Hitem.
  induction Hevs as [|ev evs Hev Hevs IH]; intros p Hplain Hglint; [done|].
  cbn [fold_left]. destruct (step_keeps_glint p ev Hplain Hev Hglint) as [Hplain' Hglint'].
  by apply IH.
Qed.

Lemma tryLoadGlintTexture_item (p : preview) :
  _editedItem (tryLoadGlintTexture p) = _editedItem p
  ∧ hasTexture (tryLoadGlintTexture p) = hasTexture p
  ∧ uItemSampler (tryLoadGlintTexture p) = uItemSampler p.
Proof.
  unfold tryLoadGlintTexture. destruct (_editedItem p) as [item|] eqn:Hitem; [|done].
  destruct (_resources p !! _) as [data|]; [|done].
  by destruct (negb (isItemEnchanted item)).
Qed.

(** A load that ends late wins: when the item is replaced by one that
    has no texture while the texture of the first is loading, the
    texture of the first is shown for the second once its load
    ends. *)
Theorem late_texture_shown_for_next_item (p : preview) (first next : Item) (data : string) :
  _textures p !! hashItemTexture first = Some data →
  _textures p !! hashItemTexture next = None →
  let shown := step (step p (OnEditedItem (Some first))) (OnEditedItem (Some next)) in
  let p' := step shown (Loaded (length (loading p))) in
  hasTexture shown = 0
  ∧ _editedItem p' = Some next
  ∧ hasTexture p' = 1
  ∧ uItemSampler p' = Some data.
Proof.
  destruct p as [res tex it ht us ie ug ld]. cbn [_textures loading].
  intros Hfirst Hnext.
  assert (H1 : step {| _resources := res; _textures := tex; _editedItem := it;
                       hasTexture := ht; uItemSampler := us; isEnchanted := ie;
                       uGlintSampler := ug; loading := ld |} (OnEditedItem (Some first)) =
               {| _resources := res; _textures := tex; _editedItem := Some first;
                  hasTexture := ht; uItemSampler := us; isEnchanted := ie;
                  uGlintSampler := ug; loading := ld ++ [ItemTexture data] |}).
  { cbn [step]. unfold tryLoadEditedTexture. cbn [_editedItem _textures].
    by rewrite Hfirst. }
  assert (H2 : step {| _resources := res; _textures := tex; _editedItem := Some first;
                       hasTexture := ht; uItemSampler := us; isEnchanted := ie;
                       uGlintSampler := ug; loading := ld ++ [ItemTexture data] |}
                 (OnEditedItem (Some next)) =
               {| _resources := res; _textures := tex; _editedItem := Some next;
                  hasTexture := 0; uItemSampler := None; isEnchanted := ie;
                  uGlintSampler := ug; loading := ld ++ [ItemTexture data] |}).
  { cbn [step]. unfold tryLoadEditedTexture. cbn [_editedItem _textures].
    by rewrite Hnext. }
  cbn zeta. rewrite H1, H2. split; [done|]. cbn [step loading].
  rewrite lookup_app_r by done. rewrite Nat.sub_diag. cbn [lookup list_lookup].
  cbn [resume set_item_texture set_loading _resources _textures
    _editedItem hasTexture uItemSampler isEnchanted uGlintSampler loading].
  destruct (isItemEnchanted next); [|done].
  match goal with
  | |- context [tryLoadGlintTexture ?q] =>
      destruct (tryLoadGlintTexture_item q) as (-> & -> & ->)
  end.
  done.
Qed.
End PreviewFacts.

Section PreviewExamples.
Import Preview PreviewState PreviewSamples.
Existing Instance Sample.nbt.
Existing Instance Sample.constants.

Lemma glint_stays_after_enchantment_removed_witness :
  isItemEnchanted Sample.plain_stick = false
  ∧ isEnchanted
      (run [OnEditedItem (Some Sample.plain_stick); OnTextures stick_texture; Loaded 0]
         glinting) = 1.
Proof.
  split; [reflexivity|].
  apply (glint_stays_after_enchantment_removed [OnTextures stick_texture; Loaded 0]
           glinting (Some Sample.plain_stick)).
  - reflexivity.
  - reflexivity.
  - repeat constructor.
Defined.

Lemma late_texture_shown_for_next_item_witness :
  let p := step (step initial (OnTextures stick_texture))
             (OnEditedItem (Some Sample.plain_stick)) in
  _editedItem (step (step p (OnEditedItem (Some egg))) (Loaded 0)) = Some egg
  ∧ uItemSampler (step (step p (OnEditedItem (Some egg))) (Loaded 0)) = Some "U1RJQ0s=".
Proof.
  destruct (late_texture_shown_for_next_item (step initial (OnTextures stick_texture))
              Sample.plain_stick egg "U1RJQ0s=")
    as (_ & Hitem & _ & Hsampler); [reflexivity | reflexivity |].
  split; [exact Hitem | exact Hsampler].
Defined.
End PreviewExamples.

(** ** The class path of the data generator *)

Section ClassPath.
Import RunMinecraft.
Context `{Node}.

Lemma rules_loop_excludes (platform : string) (rs : list MCVersionLibraryRule) :
  rules_loop platform rs = existsb (excludes platform) rs.
Proof.
  induction rs as [|rule rs IH]; [done|]. cbn [rules_loop existsb]. unfold excludes at 1.
  destruct (String.eqb (action rule) "allow"); cbn [andb orb]; [|done].
  destruct (os rule) as [os_name|]; cbn [orb]; [|done].
  by destruct (negb (bool_decide (os_name = Some platform))).
Qed.

Lemma library_loop_filter (dot platform : string) (ls : list MCVersionLibrary)
    (classPath : list string) :
  library_loop dot platform ls classPath =
  (classPath ++ ((fun library => path_join [dot; "libraries"; artifact_path library])
                 <$> List.filter (on_class_path platform) ls))%list.
Proof.
  revert classPath. induction ls as [|library ls IH]; intros classPath.
  - cbn. by rewrite app_nil_r.
  - cbn [library_loop List.filter]. cbn zeta.
    assert (Hskip : match rules library with
                    | Some rs => rules_loop platform rs
                    | None => false
                    end = negb (on_class_path platform library)).
    { unfold on_class_path. destruct (rules library) as [rs|]; [|done].
      by rewrite rules_loop_excludes, negb_involutive. }
    rewrite Hskip. destruct (on_class_path platform library); cbn [negb].
    + rewrite IH. cbn [fmap list_fmap]. by rewrite <- app_assoc.
    + apply IH.
Qed.

Lemma existsb_excludes_allow (platform : string) (rs : list MCVersionLibraryRule) :
  existsb (excludes platform)
    (List.filter (fun rule => String.eqb (action rule) "allow") rs) =
  existsb (excludes platform) rs.
Proof.
  induction rs as [|rule rs IH]; [done|]. cbn [List.filter existsb].
  destruct (String.eqb (action rule) "allow") eqn:Haction.
  - cbn [existsb]. by rewrite IH.
  - rewrite IH. unfold excludes at 2. by rewrite Haction.
Qed.

Lemma class_path_allow_rules_only (dot platform : string) (ls : list MCVersionLibrary) :
  (fun library => path_join [dot; "libraries"; artifact_path library])
    <$> List.filter (on_class_path platform) (allow_rules_only <$> ls) =
  (fun library => path_join [dot; "libraries"; artifact_path library])
    <$> List.filter (on_class_path platform) ls.
Proof.
  induction ls as [|library ls IH]; [done|].
  cbn [fmap list_fmap List.filter].
  assert (Hsame : on_class_path platform (allow_rules_only library) =
                  on_class_path platform library).
  { unfold on_class_path, allow_rules_only. cbn [rules].
    destruct (rules library) as [rs|]; [|done]. cbn. by rewrite existsb_excludes_allow. }
  rewrite Hsame. destruct (on_class_path platform library); [|exact IH].
  cbn [fmap list_fmap artifact_path allow_rules_only]. f_equal. exact IH.
Qed.

(** The class path of the command is made of the libraries that no
    [allow] rule binds to another system, in the order of the
    manifest, and ends with the jar of the version; the flags come
    last, after the main class. Rules with another action never keep
    a library off the class path: without them the command is the
    same. *)
Theorem datagen_command_class_path (platform dot version : string)
    (flags : list string) (versionData : MCVersionData) :
  getDatagenRunCommand platform dot version flags versionData =
    ("java" :: "-cp"
     :: String.concat (classPathSep platform)
          (((fun library => path_join [dot; "libraries"; artifact_path library])
            <$> List.filter (on_class_path (libPlatform platform)) (libraries versionData))
           ++ [path_join [dot; "versions"; version; version +:+ ".jar"]])
     :: "net.minecraft.data.Main" :: flags)
  ∧ getDatagenRunCommand platform dot version flags
      {| libraries := allow_rules_only <$> libraries versionData |} =
    getDatagenRunCommand platform dot version flags versionData.
Proof.
  unfold getDatagenRunCommand. cbn zeta. rewrite !library_loop_filter. cbn [app libraries].
  split; [done|]. by rewrite class_path_allow_rules_only.
Qed.
End ClassPath.

(** ** The language server *)

Section LatestRelease.
Import LanguageServer.

Lemma head_insert (r : release) (l : list release) :
  head (insert r l) =
  match head l with
  | Some x => if created_at r <? created_at x then Some x else Some r
  | None => Some r
  end.
Proof. destruct l as [|x rest]; [done|]. cbn. by destruct (created_at r <? created_at x). Qed.

(** The head of the sorted list: the first of the newest. *)
Lemma head_sort (l : list release) :
  match head (sort l) with
  | None => l = []
  | Some r =>
      ∃ before after,
        l = (before ++ r :: after)%list
        ∧ Forall (fun x => created_at x < created_at r) before
        ∧ Forall (fun x => created_at x ≤ created_at r) after
  end.
Proof.
  induction l as [|r l IH]; [done|]. cbn [sort foldr]. fold (sort l).
  rewrite head_insert. destruct (head (sort l)) as [x|].
  - destruct IH as (before & after & -> & Hbefore & Hafter).
    destruct (Z.ltb_spec (created_at r) (created_at x)) as [Hlt|Hge].
    + exists (r :: before), after. split; [done|]. split; [by constructor | done].
    + exists [], (before ++ x :: after)%list. split; [done|]. split; [constructor|].
      apply Forall_app. split.
      * eapply Forall_impl; [exact Hbefore|]. cbn. lia.
      * constructor; [done|]. eapply Forall_impl; [exact Hafter|]. cbn. lia.
  - subst l. exists [], []. split; [done|]. split; constructor.
Qed.

Lemma filter_split {A : Type} (P : A → bool) (l l1 : list A) (x : A) (l2 : list A) :
  List.filter P l = (l1 ++ x :: l2)%list →
  ∃ before after,
    l = (before ++ x :: after)%list
    ∧ List.filter P before = l1 ∧ List.filter P after = l2 ∧ P x = true.
Proof.
  revert l1. induction l as [|y l IH]; intros l1 Hf.
  - by destruct l1.
  - cbn [List.filter] in Hf. destruct (P y) eqn:Hy.
    + destruct l1 as [|z l1].
      * injection Hf as -> Hrest. by exists [], l.
      * injection Hf as -> Hrest.
        destruct (IH l1 Hrest) as (before & after & -> & Hb & Ha & Hx).
        exists (z :: before), after. cbn [List.filter app]. by rewrite Hy, Hb.
    + destruct (IH l1 Hf) as (before & after & -> & Hb & Ha & Hx).
      exists (y :: before), after. cbn [List.filter app]. by rewrite Hy.
Qed.

Lemma Forall_filter_impl {A : Type} (P : A → bool) (Q : A → Prop) (l : list A) :
  Forall Q (List.filter P l) → Forall (fun x => P x = true → Q x) l.
Proof.
  induction l as [|y l IH]; intros Hf; [constructor|].
  cbn [List.filter] in Hf. destruct (P y) eqn:Hy.
  - apply Forall_cons in Hf as [Hq Hf]. constructor; [done | by apply IH].
  - constructor; [congruence | by apply IH].
Qed.

(** Only prereleases are candidates: the release chosen is a
    prerelease of the list, none of the prereleases is newer, and none
    of those listed before it is as new. Without a prerelease nothing
    is chosen, whatever else the list has. *)
Theorem latest_is_newest_prerelease (releases : list release) :
  match getLatestLanguageServer releases with
  | None => Forall (fun r => prerelease r = false) releases
  | Some (tag, id) =>
      ∃ r before after,
        releases = (before ++ r :: after)%list
        ∧ tag = tag_name r ∧ id = release_id r
        ∧ prerelease r = true
        ∧ Forall (fun x => prerelease x = true → created_at x < created_at r) before
        ∧ Forall (fun x => prerelease x = true → created_at x ≤ created_at r) after
  end.
Proof.
  unfold getLatestLanguageServer.
  pose proof (head_sort (List.filter prerelease releases)) as Hhead.
  destruct (head (sort (List.filter prerelease releases))) as [r|].
  - destruct Hhead as (before' & after' & Hsplit & Hbefore & Hafter).
    apply filter_split in Hsplit as (before & after & -> & <- & <- & Hpre).
    exists r, before, after. repeat split; try done; by apply Forall_filter_impl.
  - apply Forall_forall. intros r Hr. destruct (prerelease r) eqn:Hpre; [|done].
    assert (Hin : In r (List.filter prerelease releases)).
    { apply filter_In. split; [by apply list_elem_of_In | done]. }
    rewrite Hhead in Hin. destruct Hin.
Qed.
End LatestRelease.

Section LanguageServerUpgrade.
Import LanguageServer.
Context `{Node}.
Variable location : string.

Lemma connect_state (info tag : option string) (st : install) :
  (connect location info tag st).1 = st.
Proof.
  unfold connect. cbn zeta. destruct (if _ && _ then info else tag) as [t|]; [|done].
  by destruct (_ || _).
Qed.

Lemma connect_missing (info tag : option string) (st : install) :
  (∀ t, info = Some t → t ∉ installed st) →
  (∀ t, tag = Some t → t ∉ installed st) →
  connect location info tag st = (st, Disabled).
Proof.
  intros Hinfo Htag. unfold connect. cbn zeta.
  destruct (negb (truthy tag) && bool_decide (is_Some info)).
  - destruct info as [t|]; [|done].
    rewrite (bool_decide_eq_false_2 (t ∈ installed st)) by by apply Hinfo.
    by rewrite orb_true_r.
  - destruct tag as [t|]; [|done].
    rewrite (bool_decide_eq_false_2 (t ∈ installed st)) by by apply Htag.
    by rewrite orb_true_r.
Qed.

(** A release without its zip costs the server that was there: when
    the newest release is not the installed one and has no zip, the
    installed server is removed and the new tag is written down all
    the same, and no server is started. The next start finds the tag
    written down, so it installs nothing and starts no server either,
    whether the release has its zip by then or not. *)
Theorem upgrade_without_zip_disables (st : install) (tag old : string) (id : Z)
    (asset : bool) :
  currentTag st = Some old →
  old ≠ tag →
  old ∈ installed st →
  tag ∉ installed st →
  let first := loadLanguageServer location (Some (tag, id)) false st in
  first = ({| installed := installed st ∖ {[ old ]}; currentTag := Some tag |}, Disabled)
  ∧ loadLanguageServer location (Some (tag, id)) asset first.1 = (first.1, Disabled).
Proof.
  intros Hcurrent Hne Hold Hnew.
  assert (Hfirst : loadLanguageServer location (Some (tag, id)) false st =
                   ({| installed := installed st ∖ {[ old ]}; currentTag := Some tag |},
                    Disabled)).
  { unfold loadLanguageServer. cbn zeta. rewrite Hcurrent.
    rewrite bool_decide_eq_true_2 by congruence.
    cbn [ensureLanguageServerInstalled]. rewrite bool_decide_eq_true_2 by done.
    apply connect_missing; cbn [installed]; intros t [= <-]; set_solver. }
  cbn zeta. rewrite Hfirst. split; [done|]. cbn [fst].
  unfold loadLanguageServer. cbn zeta. cbn [currentTag].
  rewrite bool_decide_eq_false_2 by (intros Hn; by apply Hn).
  apply connect_missing; cbn [installed]; [|done]. intros t [= <-]. set_solver.
Qed.

Lemma connect_settled (info : option string) (tag : string) (st : install) :
  currentTag st = Some tag →
  (∀ old, info = Some old → old ∉ installed st ∨ old = tag) →
  connect location (Some tag) None st = connect location info (Some tag) st.
Proof.
  intros Hcurrent Hinfo. unfold connect. cbn zeta. cbn [truthy negb andb].
  rewrite (bool_decide_eq_true_2 (is_Some (Some tag))) by by eexists.
  destruct (String.eqb_spec tag "") as [->|Hnonempty]; cbn [negb andb orb].
  - destruct info as [old|]; cbn [bool_decide]; [|done].
    rewrite (bool_decide_eq_true_2 (is_Some (Some old))) by by eexists.
    destruct (Hinfo old eq_refl) as [Hgone| ->]; [|done].
    rewrite (bool_decide_eq_false_2 (old ∈ installed st)) by done.
    by rewrite orb_true_r.
  - done.
Qed.

(** A start that is not rejected settles the installation: the next
    start with the same newest release changes nothing and ends as the
    first did, whether the release has its zip by then or not. *)
Theorem second_start_changes_nothing (latest : option (string * Z)) (asset asset' : bool)
    (st : install) :
  (loadLanguageServer location latest asset st).2 ≠ Rejects →
  loadLanguageServer location latest asset' (loadLanguageServer location latest asset st).1
  = loadLanguageServer location latest asset st.
Proof.
  unfold loadLanguageServer. cbn zeta.
  destruct latest as [[tag id]|].
  - destruct (decide (currentTag st = Some tag)) as [Hsame|Hdiff].
    + rewrite (bool_decide_eq_false_2 (currentTag st ≠ Some tag)) by (intros Hn; by apply Hn).
      rewrite connect_state. rewrite Hsame.
      rewrite (bool_decide_eq_false_2 (Some tag ≠ Some tag)) by (intros Hn; by apply Hn).
      done.
    + rewrite (bool_decide_eq_true_2 (currentTag st ≠ Some tag)) by done.
      destruct (currentTag st) as [old|] eqn:Hcurrent.
      * destruct (bool_decide (old ∈ _)); [|done]. intros _.
        rewrite connect_state. cbn [currentTag].
        rewrite (bool_decide_eq_false_2 (Some tag ≠ Some tag)) by (intros Hn; by apply Hn).
        apply connect_settled; [done|]. intros ? [= <-]. left. cbn [installed]. set_solver.
      * intros _. rewrite connect_state. cbn [currentTag].
        rewrite (bool_decide_eq_false_2 (Some tag ≠ Some tag)) by (intros Hn; by apply Hn).
        by apply connect_settled.
  - intros _. by rewrite connect_state.
Qed.
End LanguageServerUpgrade.

Section LanguageServerExamples.
Import LanguageServer.
Existing Instance Sample.node.

Lemma upgrade_without_zip_disables_witness :
  loadLanguageServer "~/.local/share/.basalt-mc" (Some ("v2", 7)) false
    {| installed := {[ "v1" ]}; currentTag := Some "v1" |}
  = ({| installed := {[ "v1" ]} ∖ {[ "v1" ]}; currentTag := Some "v2" |}, Disabled)
  ∧ loadLanguageServer "~/.local/share/.basalt-mc" (Some ("v2", 7)) true
      (loadLanguageServer "~/.local/share/.basalt-mc" (Some ("v2", 7)) false
         {| installed := {[ "v1" ]}; currentTag := Some "v1" |}).1
    = ((loadLanguageServer "~/.local/share/.basalt-mc" (Some ("v2", 7)) false
          {| installed := {[ "v1" ]}; currentTag := Some "v1" |}).1, Disabled).
Proof.
  assert (Hne : "v1" ≠ "v2") by discriminate.
  assert (Hold : "v1" ∈ ({[ "v1" ]} : gset string)) by set_solver.
  assert (Hnew : "v2" ∉ ({[ "v1" ]} : gset string)) by set_solver.
  exact (upgrade_without_zip_disables "~/.local/share/.basalt-mc"
           {| installed := {[ "v1" ]}; currentTag := Some "v1" |} "v2" "v1" 7 true
           eq_refl Hne Hold Hnew).
Defined.

Lemma second_start_changes_nothing_witness :
  loadLanguageServer "~/.local/share/.basalt-mc" (Some ("v2", 7)) false
    (loadLanguageServer "~/.local/share/.basalt-mc" (Some ("v2", 7)) true
       {| installed := {[ "v1" ]}; currentTag := Some "v1" |}).1
  = loadLanguageServer "~/.local/share/.basalt-mc" (Some ("v2", 7)) true
      {| installed := {[ "v1" ]}; currentTag := Some "v1" |}.
Proof.
  apply (second_start_changes_nothing "~/.local/share/.basalt-mc" (Some ("v2", 7)) true false
           {| installed := {[ "v1" ]}; currentTag := Some "v1" |}).
  vm_compute. discriminate.
Defined.
End LanguageServerExamples.
